(** * Simulated execution pipeline: order validation, fill simulation,
      portfolio accounting and the per-tick backtest loop.

    The development embeds [models.py], [engine.py] and the simulation loop of
    [backtest_runner.py].  Python [int] is [Z]; Python [float] is idealised as
    an exact rational [Q] (no rounding, no NaN, no infinities), so that
    [int * float] is [inject_Z q * p]; [str] is [string]; a [dict] keyed by
    symbol is a [gmap string _]; the [deque] of timestamps is a [list Q] whose
    head is the left end.  Readings of [time.time()] and the draws of the
    [random] module are inputs of the functions that consume them.  Where the
    rounding of floats decides a property, the code is given on binary64
    itself, the kernel's primitive [float] (module [binary64] below). *)

From Stdlib Require Import ZArith QArith Qround Qabs Lqa String List Lia Sorted.
From Stdlib Require PrimFloat FloatOps SpecFloat Uint63.
From stdpp Require Import gmap strings pretty.
Import ListNotations.

Open Scope Q_scope.

(** ** Numbers and built-ins *)

(** [a < b] on floats, as a boolean. *)
Definition Qltb (a b : Q) : bool := negb (Qle_bool b a).

(** Round to the nearest integer, ties to the even one (Python's [round]). *)
Definition round_half_even (x : Q) : Z :=
  let f := Qfloor x in
  let r := x - inject_Z f in
  if Qltb r (1 # 2) then f
  else if Qltb (1 # 2) r then (f + 1)%Z
  else if Z.even f then f else (f + 1)%Z.

(** [round(x, ndigits)] for a non-negative [ndigits]. *)
Definition round (x : Q) (ndigits : Z) : Q :=
  inject_Z (round_half_even (x * 10 ^ ndigits)) / 10 ^ ndigits.

(** ** models.py *)

Inductive OrderStatus := NEW | PENDING | FILLED | REJECTED | FAILED | CANCELED.

(** [Order.side], and the signals of a strategy: the string ["BUY"] or
    ["SELL"]. *)
Inductive Side := BUY | SELL.

Definition is_BUY (s : Side) : bool := match s with BUY => true | SELL => false end.
Definition is_SELL (s : Side) : bool := match s with SELL => true | BUY => false end.

(** Exceptions: the two classes of [models.py] and the built-ins
    [ValueError], which [random.randint] raises, and [AttributeError]; each
    carries its message. *)
Inductive exn :=
| OrderError (msg : string)
| ExecutionError (msg : string)
| ValueError (msg : string)
| AttributeError (msg : string).

(** [str(e)] *)
Definition str (e : exn) : string :=
  match e with
  | OrderError m | ExecutionError m | ValueError m | AttributeError m => m
  end.

Inductive result (A : Type) :=
| Return (a : A)
| Raise (e : exn).
Arguments Return {A} a.
Arguments Raise {A} e.

Module MarketDataPoint.
Record t := { timestamp : Q; symbol : string; price : Q }.
End MarketDataPoint.

Module Order.
Record t := {
  symbol : string;
  quantity : Z;
  price : Q;
  side : Side;
  order_type : string;
  status : OrderStatus;
  filled_quantity : Z;
  reason : string;
  order_id : Q
}.

(** The dataclass constructor as the runner calls it; [now] is the reading
    of [time.time()] the [order_id] default factory makes. *)
Definition init (symbol : string) (quantity : Z) (price : Q) (side : Side)
    (now : Q) : t :=
  {| symbol := symbol; quantity := quantity; price := price; side := side;
     order_type := "LIMIT"; status := NEW; filled_quantity := 0;
     reason := ""; order_id := now |}.

Definition validate (self : t) : result unit :=
  if (quantity self <=? 0)%Z then
    Raise (OrderError "Order quantity must be strictly positive")
  else if Qle_bool (price self) 0 then
    Raise (OrderError "Order price must be strictly positive")
  else Return tt.

Definition mark_filled (self : t) (filled_qty : Z) (fill_price : Q) : t :=
  let fq := (filled_quantity self + filled_qty)%Z in
  {| symbol := symbol self; quantity := quantity self; price := price self;
     side := side self; order_type := order_type self;
     status := if (fq =? quantity self)%Z then FILLED else PENDING;
     filled_quantity := fq;
     reason := reason self; order_id := order_id self |}.

Definition mark_failed (self : t) (reason : string) : t :=
  {| symbol := symbol self; quantity := quantity self; price := price self;
     side := side self; order_type := order_type self;
     status := FAILED; filled_quantity := filled_quantity self;
     reason := reason; order_id := order_id self |}.

Definition mark_rejected (self : t) (reason : string) : t :=
  {| symbol := symbol self; quantity := quantity self; price := price self;
     side := side self; order_type := order_type self;
     status := REJECTED; filled_quantity := filled_quantity self;
     reason := reason; order_id := order_id self |}.
End Order.

(** ** engine.py *)

Module Gateway.
(** One line of the audit file. *)
Record row := {
  row_timestamp : Q;
  row_order_id : Q;
  row_symbol : string;
  row_side : Side;
  row_quantity : Z;
  row_price : Q;
  row_status : OrderStatus;
  row_reason : string
}.

(** The audit file below its header line. *)
Definition t := list row.

Definition init : t := [].

Definition log_order (now : Q) (self : t) (order : Order.t) : t :=
  self ++ [ {| row_timestamp := now;
               row_order_id := Order.order_id order;
               row_symbol := Order.symbol order;
               row_side := Order.side order;
               row_quantity := Order.quantity order;
               row_price := Order.price order;
               row_status := Order.status order;
               row_reason := Order.reason order |} ].
End Gateway.

Module OrderManager.
Record t := {
  capital : Q;
  orders_timestamps : list Q;
  MAX_ORDERS_PER_MIN : Z;
  positions : gmap string Q;
  MAX_POSITION : Z
}.

Definition init (initial_capital : Q) (max_orders_per_minute : Z) : t :=
  {| capital := initial_capital;
     orders_timestamps := [];
     MAX_ORDERS_PER_MIN := max_orders_per_minute;
     positions := ∅;
     MAX_POSITION := 500 |}.

Definition set_orders_timestamps (self : t) (ts : list Q) : t :=
  {| capital := capital self;
     orders_timestamps := ts;
     MAX_ORDERS_PER_MIN := MAX_ORDERS_PER_MIN self;
     positions := positions self;
     MAX_POSITION := MAX_POSITION self |}.

Definition set_positions (self : t) (ps : gmap string Q) : t :=
  {| capital := capital self;
     orders_timestamps := orders_timestamps self;
     MAX_ORDERS_PER_MIN := MAX_ORDERS_PER_MIN self;
     positions := ps;
     MAX_POSITION := MAX_POSITION self |}.

(** [while ts and ts[0] < now - 60: ts.popleft()] *)
Fixpoint popleft_expired (now : Q) (ts : list Q) : list Q :=
  match ts with
  | [] => []
  | t0 :: rest =>
      if Qltb t0 (now - 60) then popleft_expired now rest else ts
  end.

(** [now] is the reading of [time.time()] in step 3.  The result is the
    returned boolean, the manager and the order after the call. *)
Definition validate_order (now : Q) (self : t) (order : Order.t)
    : bool * t * Order.t :=
  match Order.validate order with
  | Raise e => (false, self, Order.mark_rejected order (str e))
  | Return _ =>
    if is_BUY (Order.side order)
       && Qltb (capital self) (inject_Z (Order.quantity order) * Order.price order)
    then (false, self, Order.mark_rejected order "Insufficient capital.")
    else
      let ts := popleft_expired now (orders_timestamps self) in
      let self := set_orders_timestamps self ts in
      if (Z.of_nat (length ts) >=? MAX_ORDERS_PER_MIN self)%Z then
        (false, self, Order.mark_rejected order "Rate limit exceeded.")
      else
        let current_pos := default 0.0 (positions self !! Order.symbol order) in
        if is_BUY (Order.side order)
           && Qltb (inject_Z (MAX_POSITION self))
                   (current_pos + inject_Z (Order.quantity order))
        then (false, self,
              Order.mark_rejected order
                ("Position limit (" +:+ pretty (MAX_POSITION self) +:+ ") exceeded."))
        else if is_SELL (Order.side order)
                && Qltb (current_pos - inject_Z (Order.quantity order))
                        (- inject_Z (MAX_POSITION self))
        then (false, self,
              Order.mark_rejected order
                ("Short position limit (-" +:+ pretty (MAX_POSITION self) +:+ ") exceeded."))
        else (true, set_orders_timestamps self (ts ++ [now]), order)
  end.
End OrderManager.

(** The [random] module: every call takes the value the generator produced as
    an argument. *)
Module random.
(** [randint(a, b)]: an integer of the closed range [a..b] picked by the raw
    draw, or [ValueError] when the range is empty. *)
Definition randint (a b : Z) (raw : Z) : result Z :=
  if (a <=? b)%Z then Return (a + raw mod (b - a + 1))%Z
  else Raise (ValueError
                ("empty range in randrange(" +:+ pretty a +:+ ", "
                   +:+ pretty (b + 1)%Z +:+ ")")).

(** [gauss(mu, sigma)] from a standard normal sample [z]. *)
Definition gauss (mu sigma : Q) (z : Q) : Q := mu + z * sigma.

(** What one call of [simulate_execution] may consume, in program order:
    up to three results of [random.random()], the raw draw of [randint] and
    the normal sample of [gauss]. *)
Record draws := {
  random1 : Q;
  random2 : Q;
  random3 : Q;
  randint_raw : Z;
  gauss_z : Q
}.
End random.

Module MatchingEngine.
Record t := { slippage_factor : Q }.

Definition init (slippage_factor : Q) : t :=
  {| slippage_factor := slippage_factor |}.

(** Step 3 of [simulate_execution], reached with the quantity to fill. *)
Definition fill (self : t) (d : random.draws) (order : Order.t)
    (filled_qty : Z) : Order.t * result (Q * Z) :=
  let slippage := random.gauss 0 (slippage_factor self) (random.gauss_z d) in
  let fill_price := Order.price order * (1 + slippage) in
  let order :=
    if (filled_qty >? 0)%Z then Order.mark_filled order filled_qty fill_price
    else order in
  (order, Return (round fill_price 2, filled_qty)).

(** The order after the call, and either the raised exception or the
    returned pair [(fill_price, filled_quantity)]. *)
Definition simulate_execution (self : t) (d : random.draws)
    (order : Order.t) : Order.t * result (Q * Z) :=
  if Qltb (random.random1 d) 0.02 then
    (order, Raise (ExecutionError "Simulated execution failure (2% chance)"))
  else
    let fill_probability := 0.95 in
    let partial_probability := 0.04 in
    if Qltb (random.random2 d) fill_probability then
      fill self d order (Order.quantity order)
    else if Qltb (random.random3 d) partial_probability then
      match random.randint 1 (Order.quantity order - 1) (random.randint_raw d) with
      | Raise e => (order, Raise e)
      | Return filled_qty => fill self d order filled_qty
      end
    else
      (Order.mark_rejected order "Canceled/No liquidity.", Return (0.0, 0%Z)).
End MatchingEngine.

Module Portfolio.
(** The per-symbol dict [{"quantity": Q, "avg_price": P}]. *)
Record position := { quantity : Q; avg_price : Q }.

(** [om] tells whether the reference to the runner's [OrderManager] is set
    ([None] otherwise).  The referenced object is the one the runner
    validates with: the functions that write through [self.om] take that
    object and return it updated. *)
Record t := {
  cash : Q;
  positions : gmap string position;
  trades : list (Q * Q);
  om : bool
}.

Definition init (initial_cash : Q) : t :=
  {| cash := initial_cash; positions := ∅; trades := []; om := false |}.

Definition set_om (self : t) : t :=
  {| cash := cash self; positions := positions self; trades := trades self;
     om := true |}.

Definition append_trade (self : t) (sample : Q * Q) : t :=
  {| cash := cash self; positions := positions self;
     trades := trades self ++ [sample]; om := om self |}.

(** The average price [update_from_fill] leaves in the position. *)
Definition new_avg_price (pos : position) (new_qty fill_price : Q)
    (filled_qty : Z) : Q :=
  let current_qty := quantity pos in
  if Qle_bool 0 (new_qty * current_qty) && negb (Qeq_bool new_qty 0) then
    let new_total_cost :=
      avg_price pos * current_qty + fill_price * inject_Z filled_qty in
    new_total_cost / new_qty
  else if Qeq_bool new_qty 0 then 0.0
  else avg_price pos.

Definition update_from_fill (self : t) (manager : OrderManager.t)
    (order : Order.t) (fill_price : Q) (filled_qty : Z)
    : t * OrderManager.t :=
  let symbol := Order.symbol order in
  let pos := default {| quantity := 0.0; avg_price := 0.0 |}
                     (positions self !! symbol) in
  let cost := inject_Z filled_qty * fill_price in
  let cash' := cash self + (if is_SELL (Order.side order) then cost else - cost) in
  let current_qty := quantity pos in
  let new_qty :=
    if is_BUY (Order.side order) then current_qty + inject_Z filled_qty
    else current_qty - inject_Z filled_qty in
  let pos := {| quantity := new_qty;
                avg_price := new_avg_price pos new_qty fill_price filled_qty |} in
  let self := {| cash := cash'; positions := <[symbol := pos]> (positions self);
                 trades := trades self; om := om self |} in
  (self,
   if om self then
     OrderManager.set_positions manager
       (<[symbol := new_qty]> (OrderManager.positions manager))
   else manager).

Definition compute_equity (self : t) (current_prices : gmap string Q) : Q :=
  map_fold
    (fun (sym : string) (pos : position) (total_value : Q) =>
       let price := default (avg_price pos) (current_prices !! sym) in
       total_value + quantity pos * price)
    (cash self) (positions self).
End Portfolio.

(** ** backtest_runner.py *)

Module Runner.
(** The configuration constants of the module that the loop reads.  The
    loop takes them as an argument so that a run under another
    configuration can be stated; [config] holds the values of the source. *)
Record Config := { INITIAL_CASH : Q; DEFAULT_QTY : Z }.

Definition config : Config :=
  {| INITIAL_CASH := 100000.0; DEFAULT_QTY := 10 |}.

(** The objects the simulation loop works on.  [order] is the loop body's
    local variable, [None] until the constructor has returned. *)
Record World := {
  gateway : Gateway.t;
  order_manager : OrderManager.t;
  portfolio : Portfolio.t;
  order : option Order.t
}.

(** What the outside world supplies while one signal is processed: the
    readings of [time.time()] made by the [Order] constructor, by
    [validate_order] and by [log_order], and the random draws. *)
Record Env := {
  clock_order_id : Q;
  clock_validate : Q;
  clock_log : Q;
  rng : random.draws
}.

(** Statements: a state transformer that may raise; the mutations made
    before an exception is raised stay. *)
Definition M (A : Type) : Type := World -> result A * World.

Definition ret {A} (a : A) : M A := fun w => (Return a, w).
Definition raise {A} (e : exn) : M A := fun w => (Raise e, w).
Definition bind {A B} (m : M A) (k : A -> M B) : M B :=
  fun w =>
    match m w with
    | (Return a, w') => k a w'
    | (Raise e, w') => (Raise e, w')
    end.
Definition try_except {A} (body : M A) (handler : exn -> M A) : M A :=
  fun w =>
    match body w with
    | (Return a, w') => (Return a, w')
    | (Raise e, w') => handler e w'
    end.

Declare Scope stmt_scope.
Delimit Scope stmt_scope with stmt.
Notation "x <- m ;; k" := (bind m (fun x => k))
  (at level 100, m at next level, right associativity) : stmt_scope.
Notation "m ;; k" := (bind m (fun _ => k))
  (at level 100, right associativity) : stmt_scope.
Local Open Scope stmt_scope.

Definition get_order : M (option Order.t) := fun w => (Return (order w), w).

Definition set_order (o : option Order.t) : M unit :=
  fun w => (Return tt,
            {| gateway := gateway w; order_manager := order_manager w;
               portfolio := portfolio w; order := o |}).

(** The object bound to [order], for a statement that reads its attribute
    [attr]; on [None] Python raises [AttributeError].  The loop body binds the
    variable before its first use. *)
Definition the_order (attr : string) : M Order.t :=
  fun w =>
    match order w with
    | Some o => (Return o, w)
    | None =>
        (Raise (AttributeError
                  ("'NoneType' object has no attribute '" +:+ attr +:+ "'")), w)
    end.

(** [order.mark_failed(reason=...)] *)
Definition mark_failed (reason : string) : M unit :=
  o <- the_order "mark_failed" ;;
  set_order (Some (Order.mark_failed o reason)).

(** [gateway.log_order(order)] *)
Definition log_order (now : Q) : M unit :=
  o <- the_order "order_id" ;;
  fun w =>
    (Return tt,
     {| gateway := Gateway.log_order now (gateway w) o;
        order_manager := order_manager w;
        portfolio := portfolio w; order := order w |}).

(** [order_manager.validate_order(order)] *)
Definition validate_order (now : Q) : M bool :=
  o <- the_order "validate" ;;
  fun w =>
    let '(ok, manager, o') :=
      OrderManager.validate_order now (order_manager w) o in
    (Return ok,
     {| gateway := gateway w; order_manager := manager;
        portfolio := portfolio w; order := Some o' |}).

(** [matching_engine.simulate_execution(order)] *)
Definition simulate_execution (engine : MatchingEngine.t) (d : random.draws)
    : M (Q * Z) :=
  o <- the_order "quantity" ;;
  fun w =>
    let '(o', r) := MatchingEngine.simulate_execution engine d o in
    (r, {| gateway := gateway w; order_manager := order_manager w;
           portfolio := portfolio w; order := Some o' |}).

(** [portfolio.update_from_fill(order, fill_price, filled_qty)]; the
    portfolio's [om] is the runner's [order_manager]. *)
Definition update_from_fill (fill_price : Q) (filled_qty : Z) : M unit :=
  o <- the_order "symbol" ;;
  fun w =>
    let '(p, manager) :=
      Portfolio.update_from_fill (portfolio w) (order_manager w) o
        fill_price filled_qty in
    (Return tt,
     {| gateway := gateway w; order_manager := manager;
        portfolio := p; order := order w |}).

(** The body of [for direction in all_signals]. *)
Definition process_signal (cfg : Config) (engine : MatchingEngine.t)
    (tick : MarketDataPoint.t) (direction : Side) (env : Env) : M unit :=
  set_order None ;;
  try_except
    (set_order
       (Some (Order.init (MarketDataPoint.symbol tick) (DEFAULT_QTY cfg)
                (MarketDataPoint.price tick) direction (clock_order_id env))) ;;
     ok <- validate_order (clock_validate env) ;;
     if negb ok then
       log_order (clock_log env)
     else
       r <- simulate_execution engine (rng env) ;;
       let '(fill_price, filled_qty) := r in
       (if (filled_qty >? 0)%Z then update_from_fill fill_price filled_qty
        else ret tt) ;;
       log_order (clock_log env))
    (fun e =>
       match e with
       | ExecutionError _ =>
           o <- get_order ;;
           match o with
           | Some _ => mark_failed (str e) ;; log_order (clock_log env)
           | None => ret tt
           end
       | _ =>
           o <- get_order ;;
           match o with
           | Some _ =>
               mark_failed ("Unknown Error: " +:+ str e) ;;
               log_order (clock_log env)
           | None => ret tt
           end
       end).

Fixpoint process_signals (cfg : Config) (engine : MatchingEngine.t)
    (tick : MarketDataPoint.t) (all_signals : list (Side * Env)) : M unit :=
  match all_signals with
  | [] => ret tt
  | (direction, env) :: rest =>
      process_signal cfg engine tick direction env ;;
      process_signals cfg engine tick rest
  end.

(** The equity sample appended at the end of a tick. *)
Definition record_equity (tick : MarketDataPoint.t) : M unit :=
  fun w =>
    let current_prices : gmap string Q :=
      {[ MarketDataPoint.symbol tick := MarketDataPoint.price tick ]} in
    let equity := Portfolio.compute_equity (portfolio w) current_prices in
    (Return tt,
     {| gateway := gateway w; order_manager := order_manager w;
        portfolio :=
          Portfolio.append_trade (portfolio w)
            (MarketDataPoint.timestamp tick, equity);
        order := order w |}).

(** The body of [for tick in ticks]; the signals the strategies return for
    the tick come with the tick. *)
Definition process_tick (cfg : Config) (engine : MatchingEngine.t)
    (tick : MarketDataPoint.t) (all_signals : list (Side * Env)) : M unit :=
  process_signals cfg engine tick all_signals ;;
  record_equity tick.

Fixpoint simulation_loop (cfg : Config) (engine : MatchingEngine.t)
    (ticks : list (MarketDataPoint.t * list (Side * Env))) : M unit :=
  match ticks with
  | [] => ret tt
  | (tick, all_signals) :: rest =>
      process_tick cfg engine tick all_signals ;;
      simulation_loop cfg engine rest
  end.

(** The components as [run_backtest_simulation] creates and links them. *)
Definition initial_world (cfg : Config) : World :=
  {| gateway := Gateway.init;
     order_manager := OrderManager.init (INITIAL_CASH cfg) 50;
     portfolio := Portfolio.set_om (Portfolio.init (INITIAL_CASH cfg));
     order := None |}.

(** The simulation proper of [run_backtest_simulation]: the components, the
    loop over the loaded ticks, and the state it ends in. *)
Definition run_backtest_simulation (cfg : Config)
    (ticks : list (MarketDataPoint.t * list (Side * Env)))
    : result unit * World :=
  simulation_loop cfg (MatchingEngine.init 0.0001) ticks (initial_world cfg).
End Runner.

(** ** The four checks of [validate_order], named

    Each definition is the condition under which the corresponding step of
    [OrderManager.validate_order] lets the order through. *)

Definition cost (o : Order.t) : Q :=
  inject_Z (Order.quantity o) * Order.price o.

Definition structural_ok (o : Order.t) : Prop :=
  (0 < Order.quantity o)%Z /\ 0 < Order.price o.

Definition capital_ok (om : OrderManager.t) (o : Order.t) : Prop :=
  Order.side o = BUY -> cost o <= OrderManager.capital om.

(** The rate-limit window as step 3 sees it at time [now]. *)
Definition window (now : Q) (om : OrderManager.t) : list Q :=
  OrderManager.popleft_expired now (OrderManager.orders_timestamps om).

Definition rate_ok (now : Q) (om : OrderManager.t) : Prop :=
  (Z.of_nat (length (window now om)) < OrderManager.MAX_ORDERS_PER_MIN om)%Z.

Definition current_pos (om : OrderManager.t) (o : Order.t) : Q :=
  default 0.0 (OrderManager.positions om !! Order.symbol o).

Definition position_ok (om : OrderManager.t) (o : Order.t) : Prop :=
  match Order.side o with
  | BUY =>
      current_pos om o + inject_Z (Order.quantity o)
      <= inject_Z (OrderManager.MAX_POSITION om)
  | SELL =>
      - inject_Z (OrderManager.MAX_POSITION om)
      <= current_pos om o - inject_Z (Order.quantity o)
  end.

Definition position_reason (om : OrderManager.t) (o : Order.t) : string :=
  match Order.side o with
  | BUY => "Position limit (" +:+ pretty (OrderManager.MAX_POSITION om) +:+ ") exceeded."
  | SELL =>
      "Short position limit (-" +:+ pretty (OrderManager.MAX_POSITION om) +:+ ") exceeded."
  end.


(** ** Sample inputs

    Concrete objects on which the statements below are instantiated. *)

Definition sample_order (side : Side) (quantity : Z) (price : Q) : Order.t :=
  Order.init "AAPL" quantity price side 0.

(** A manager as the runner creates it, holding [held] shares of AAPL. *)
Definition sample_manager (held : Q) : OrderManager.t :=
  OrderManager.set_positions (OrderManager.init 100000.0 50) {[ "AAPL"%string := held ]}.

(** The same manager with [n] timestamps, all equal to [t], in its window. *)
Definition busy_manager (n : nat) (t : Q) : OrderManager.t :=
  OrderManager.set_orders_timestamps (sample_manager 0) (repeat t n).

(** Draws that select a full fill, a partial fill and a cancellation, all
    with zero slippage. *)
Definition full_fill_draws : random.draws :=
  {| random.random1 := 0.5; random.random2 := 0.5; random.random3 := 0.5;
     random.randint_raw := 0; random.gauss_z := 0 |}.

Definition partial_fill_draws (raw : Z) : random.draws :=
  {| random.random1 := 0.5; random.random2 := 0.97; random.random3 := 0.01;
     random.randint_raw := raw; random.gauss_z := 0 |}.

Definition no_liquidity_draws : random.draws :=
  {| random.random1 := 0.5; random.random2 := 0.97; random.random3 := 0.5;
     random.randint_raw := 0; random.gauss_z := 0 |}.

Definition failure_draws : random.draws :=
  {| random.random1 := 0.01; random.random2 := 0.5; random.random3 := 0.5;
     random.randint_raw := 0; random.gauss_z := 0 |}.

(** All three clock readings of one signal equal to [wall]. *)
Definition sample_env (wall : Q) (d : random.draws) : Runner.Env :=
  {| Runner.clock_order_id := wall; Runner.clock_validate := wall;
     Runner.clock_log := wall; Runner.rng := d |}.

Definition sample_tick (observed_at price : Q) : MarketDataPoint.t :=
  {| MarketDataPoint.timestamp := observed_at;
     MarketDataPoint.symbol := "AAPL";
     MarketDataPoint.price := price |}.

(** ** Runs of validations

    [submissions om subs outs om'] : the orders of [subs], each with the clock
    reading of its validation, are validated one after the other on the
    manager [om]; [outs] lists the returned booleans with the orders after the
    call and [om'] is the manager at the end.  Between two calls the portfolio
    may have rewritten the manager's position mirror (that is all
    [update_from_fill] writes in it).  Every order passes the structural,
    capital and position checks in the state it meets. *)
Inductive submissions :
  OrderManager.t -> list (Q * Order.t) -> list (bool * Order.t) -> OrderManager.t -> Prop :=
| submissions_nil (om : OrderManager.t) : submissions om [] [] om
| submissions_cons (om om1 om' : OrderManager.t) (now : Q) (o o1 : Order.t)
    (ok : bool) (ps : gmap string Q) (rest : list (Q * Order.t))
    (outs : list (bool * Order.t)) :
    structural_ok o -> capital_ok om o -> position_ok om o ->
    OrderManager.validate_order now om o = (ok, om1, o1) ->
    submissions (OrderManager.set_positions om1 ps) rest outs om' ->
    submissions om ((now, o) :: rest) ((ok, o1) :: outs) om'.

(** Fifty-one submissions of the same BUY order, one per second of the clock. *)
Definition sample_submissions : list (Q * Order.t) :=
  map (fun i : nat => (inject_Z (Z.of_nat i), sample_order BUY 10 100)) (seq 0 51).

(** Fifty-one ticks observed 120 seconds apart, each with one signal (BUY and
    SELL in turn, every order filled in full), the whole run taking 51
    milliseconds of the clock. *)
Definition spaced_ticks : list (MarketDataPoint.t * list (Side * Runner.Env)) :=
  map (fun i : nat =>
         (sample_tick (120 * inject_Z (Z.of_nat i)) 100,
          [(if Nat.even i then BUY else SELL,
            sample_env (1000 + inject_Z (Z.of_nat i) / 1000) full_fill_draws)]))
      (seq 0 51).

(** ** Positions and cost basis, named *)

(** [self.positions.get(symbol, {"quantity": 0.0, "avg_price": 0.0})] *)
Definition held (p : Portfolio.t) (symbol : string) : Portfolio.position :=
  default {| Portfolio.quantity := 0.0; Portfolio.avg_price := 0.0 |}
          (Portfolio.positions p !! symbol).

(** The blend [update_from_fill] computes: the old basis times the old
    quantity plus the fill price times the filled quantity, over the new
    quantity. *)
Definition blended (old : Portfolio.position) (fill_price : Q) (filled_qty : Z)
    (new_qty : Q) : Q :=
  (Portfolio.avg_price old * Portfolio.quantity old
   + fill_price * inject_Z filled_qty) / new_qty.

(** The average of the prices [x1] and [x2] weighted by the quantities [w1]
    and [w2]. *)
Definition weighted_average (x1 w1 x2 w2 : Q) : Q :=
  (x1 * w1 + x2 * w2) / (w1 + w2).

(** Old and new quantity share sign, or the old quantity is zero. *)
Definition same_direction (old_qty new_qty : Q) : Prop :=
  (0 < old_qty /\ 0 < new_qty) \/ (old_qty < 0 /\ new_qty < 0) \/ old_qty == 0.

(** The fill takes the position through zero. *)
Definition flips_sign (old_qty new_qty : Q) : Prop :=
  (0 < old_qty /\ new_qty < 0) \/ (old_qty < 0 /\ 0 < new_qty).

Definition signed_fill (s : Side) (filled_qty : Z) : Q :=
  match s with BUY => inject_Z filled_qty | SELL => - inject_Z filled_qty end.

(** A portfolio that bought 10 shares of AAPL at 100. *)
Definition long_10_at_100 : Portfolio.t :=
  fst (Portfolio.update_from_fill (Portfolio.init 100000.0) (sample_manager 0)
         (sample_order BUY 10 100) 100 10).

(** ** Fill prices, named *)

(** [order.price * (1 + slippage)], the price handed to [mark_filled]. *)
Definition slipped_price (engine : MatchingEngine.t) (d : random.draws)
    (o : Order.t) : Q :=
  Order.price o
  * (1 + random.gauss 0 (MatchingEngine.slippage_factor engine) (random.gauss_z d)).

(** The price [simulate_execution] returns with a fill. *)
Definition reported_price (engine : MatchingEngine.t) (d : random.draws)
    (o : Order.t) : Q :=
  round (slipped_price engine d o) 2.

(** ** Sequences of fills *)

(** [order.mark_filled(qty, price)] for each [(qty, price)] of [fills], in
    order. *)
Definition mark_filled_all (o : Order.t) (fills : list (Z * Q)) : Order.t :=
  fold_left (fun o f => Order.mark_filled o (fst f) (snd f)) fills o.

Definition total_filled (fills : list (Z * Q)) : Z :=
  fold_right (fun f acc => (fst f + acc)%Z) 0%Z fills.

(** ** Fills applied to the account *)

(** [portfolio.update_from_fill(order, fill_price, filled_qty)] for each
    triple of [fills], in order, the portfolio's [om] being [manager]. *)
Definition apply_fills (fills : list (Order.t * Q * Z))
    (st : Portfolio.t * OrderManager.t) : Portfolio.t * OrderManager.t :=
  fold_left
    (fun st f =>
       let '(o, fill_price, filled_qty) := f in
       Portfolio.update_from_fill (fst st) (snd st) o fill_price filled_qty)
    fills st.

(** The sum of [filled_qty * fill_price] over the fills of side [s]. *)
Definition fills_value (s : Side) (fills : list (Order.t * Q * Z)) : Q :=
  fold_right
    (fun f acc =>
       let '(o, fill_price, filled_qty) := f in
       match s, Order.side o with
       | BUY, BUY | SELL, SELL => inject_Z filled_qty * fill_price + acc
       | _, _ => acc
       end)
    0 fills.

(** The cash after the fills, each amount subtracted (BUY) or added (SELL)
    in turn. *)
Definition cash_after (cash_before : Q) (fills : list (Order.t * Q * Z)) : Q :=
  fold_left
    (fun cash f =>
       let '(o, fill_price, filled_qty) := f in
       cash + (if is_SELL (Order.side o) then inject_Z filled_qty * fill_price
               else - (inject_Z filled_qty * fill_price)))
    fills cash_before.

(** The reason the runner's handlers give to [mark_failed]. *)
Definition failure_reason (e : exn) : string :=
  match e with
  | ExecutionError _ => str e
  | _ => "Unknown Error: " +:+ str e
  end.

Definition signals_count {A B : Type} (ticks : list (A * list B)) : nat :=
  fold_right (fun t acc => (length (snd t) + acc)%nat) 0%nat ticks.

(** The configuration of the source with the default quantity set to 1. *)
Definition single_share_config : Runner.Config :=
  {| Runner.INITIAL_CASH := 100000.0; Runner.DEFAULT_QTY := 1 |}.

(** ** Invariants of the run, named *)

(** The manager's position mirror agrees with the portfolio's positions. *)
Definition mirror_ok (p : Portfolio.t) (om : OrderManager.t) : Prop :=
  forall s : string,
    OrderManager.positions om !! s
    = Portfolio.quantity <$> (Portfolio.positions p !! s).

(** Every position of the mirror lies within the symmetric bound. *)
Definition positions_bounded (om : OrderManager.t) : Prop :=
  forall (s : string) (q : Q),
    OrderManager.positions om !! s = Some q ->
    - inject_Z (OrderManager.MAX_POSITION om) <= q
    /\ q <= inject_Z (OrderManager.MAX_POSITION om).

(** A flat position carries no cost basis. *)
Definition flat_has_no_basis (p : Portfolio.t) : Prop :=
  forall s : string,
    Portfolio.quantity (held p s) == 0 -> Portfolio.avg_price (held p s) == 0.

(** The signed sum of the quantities of the fills of [symbol]. *)
Definition fills_quantity (symbol : string) (fills : list (Order.t * Q * Z)) : Q :=
  fold_right
    (fun f acc =>
       let '(o, _, filled_qty) := f in
       if String.eqb (Order.symbol o) symbol
       then signed_fill (Order.side o) filled_qty + acc
       else acc)
    0 fills.

(** What a log line says of the order's request. *)
Definition row_request (r : Gateway.row) : string * Side * Z * Q :=
  (Gateway.row_symbol r, Gateway.row_side r, Gateway.row_quantity r,
   Gateway.row_price r).

(** The requests the loop derives from the signals of the ticks, in order. *)
Definition requests (cfg : Runner.Config)
    (ticks : list (MarketDataPoint.t * list (Side * Runner.Env)))
    : list (string * Side * Z * Q) :=
  flat_map
    (fun t =>
       map (fun s => (MarketDataPoint.symbol (fst t), fst s,
                      Runner.DEFAULT_QTY cfg, MarketDataPoint.price (fst t)))
           (snd t))
    ticks.

(** The statuses an order can have when it is logged. *)
Definition logged_status (s : OrderStatus) : Prop :=
  s = FILLED \/ s = PENDING \/ s = REJECTED \/ s = FAILED.

(** The state a run keeps between signals: the portfolio is linked to the
    manager, the mirror agrees with the portfolio, and every mirrored position
    is within the (non-negative) bound. *)
Definition ledger_ok (w : Runner.World) : Prop :=
  Portfolio.om (Runner.portfolio w) = true
  /\ mirror_ok (Runner.portfolio w) (Runner.order_manager w)
  /\ (0 <= OrderManager.MAX_POSITION (Runner.order_manager w))%Z
  /\ positions_bounded (Runner.order_manager w).

(** The settings of the manager and the size of its window. *)
Definition manager_settings (capital : Q) (w : Runner.World) : Prop :=
  OrderManager.capital (Runner.order_manager w) = capital
  /\ OrderManager.MAX_ORDERS_PER_MIN (Runner.order_manager w) = 50%Z
  /\ OrderManager.MAX_POSITION (Runner.order_manager w) = 500%Z
  /\ (length (OrderManager.orders_timestamps (Runner.order_manager w)) <= 50)%nat.


(** ** The cash in binary64

    Python's [float] is IEEE 754 binary64, which is the kernel's primitive
    [float].  The development idealises it as [Q]; the cash update of
    [update_from_fill] is given here once more on the floats themselves,
    where every multiplication and addition rounds to the nearest float. *)

Module binary64.
Import PrimFloat.

Definition t : Set := float.

(** The conversion of the [int] operand of [int * float], for an [int] below
    [2^63] in magnitude. *)
Definition of_int (n : Z) : t :=
  if (n <? 0)%Z then PrimFloat.opp (PrimFloat.of_uint63 (Uint63.of_Z (- n)))
  else PrimFloat.of_uint63 (Uint63.of_Z n).


(** The number a finite float stands for, exactly. *)
Definition to_Q (x : t) : Q :=
  match FloatOps.Prim2SF x with
  | SpecFloat.S754_finite s m e =>
      (if s then - inject_Z (Zpos m) else inject_Z (Zpos m)) * Qpower 2 e
  | _ => 0
  end.


(** The two statements of [update_from_fill] that account for the cash:
    [cost = filled_qty * fill_price] and
    [self.cash += cost if order.side == "SELL" else -cost]. *)
Definition update_cash (cash : t) (side : Side) (fill_price : t)
    (filled_qty : Z) : t :=
  let cost := PrimFloat.mul (of_int filled_qty) fill_price in
  PrimFloat.add cash (if is_SELL side then cost else PrimFloat.opp cost).

(** The cash after [update_from_fill] for each fill [(side, fill_price,
    filled_qty)], in order. *)
Definition cash_after (cash_before : t) (fills : list (Side * t * Z)) : t :=
  fold_left
    (fun cash f =>
       let '(side, fill_price, filled_qty) := f in
       update_cash cash side fill_price filled_qty)
    fills cash_before.

(** The sum of [filled_qty * fill_price] over the fills of side [s], as a
    number: the sum of the claim, not a computation of the program. *)
Definition fills_value (s : Side) (fills : list (Side * t * Z)) : Q :=
  fold_right
    (fun f acc =>
       let '(side, fill_price, filled_qty) := f in
       match s, side with
       | BUY, BUY | SELL, SELL => inject_Z filled_qty * to_Q fill_price + acc
       | _, _ => acc
       end)
    0 fills.



End binary64.

(** ** Strategies.py *)

Module Strategies.
(** The built-in exceptions the strategies can meet. *)
Inductive error :=
| ValueError (msg : string)
| ZeroDivisionError (msg : string)
| IndexError (msg : string).

(** [deque(maxlen=n)]: the constructor refuses a negative [maxlen]. *)
Definition deque_new (maxlen : Z) : error + list Q :=
  if (maxlen <? 0)%Z then inl (ValueError "maxlen must be non-negative")
  else inr [].

(** [d.append(x)] on a deque of bound [maxlen]: the item goes to the right end
    and, when the bound is exceeded, the leftmost item is dropped. *)
Definition deque_append (maxlen : Z) (d : list Q) (x : Q) : list Q :=
  let d' := d ++ [x] in
  if (maxlen <? Z.of_nat (length d'))%Z then tl d' else d'.

(** [sum(d)] *)
Definition sum (d : list Q) : Q := fold_left Qplus d 0.

(** [sum(d) / len(d)] *)
Definition mean (d : list Q) : error + Q :=
  match d with
  | [] => inl (ZeroDivisionError "division by zero")
  | _ => inr (sum d / inject_Z (Z.of_nat (length d)))
  end.

(** [last != side], for a [_last_signal] that is [None] or a side. *)
Definition differs (last : option Side) (s : Side) : bool :=
  match last, s with
  | Some BUY, BUY | Some SELL, SELL => false
  | _, _ => true
  end.
End Strategies.

Module MAC.
Record t := {
  _short_window : Z;
  _long_window : Z;
  _short_prices : list Q;
  _long_prices : list Q;
  _last_signal : option Side
}.

Definition init (short_window long_window : Z) : Strategies.error + t :=
  match Strategies.deque_new short_window with
  | inl e => inl e
  | inr short_prices =>
      match Strategies.deque_new long_window with
      | inl e => inl e
      | inr long_prices =>
          inr {| _short_window := short_window; _long_window := long_window;
                 _short_prices := short_prices; _long_prices := long_prices;
                 _last_signal := None |}
      end
  end.

Definition set_last_signal (self : t) (s : Side) : t :=
  {| _short_window := _short_window self; _long_window := _long_window self;
     _short_prices := _short_prices self; _long_prices := _long_prices self;
     _last_signal := Some s |}.

(** The strategy after the call, and the raised exception or the returned
    list of signals. *)
Definition generate_signals (self : t) (tick : MarketDataPoint.t)
    : t * (Strategies.error + list Side) :=
  let self :=
    {| _short_window := _short_window self; _long_window := _long_window self;
       _short_prices :=
         Strategies.deque_append (_short_window self) (_short_prices self)
           (MarketDataPoint.price tick);
       _long_prices :=
         Strategies.deque_append (_long_window self) (_long_prices self)
           (MarketDataPoint.price tick);
       _last_signal := _last_signal self |} in
  if (Z.of_nat (length (_short_prices self)) <? _short_window self)%Z
     || (Z.of_nat (length (_long_prices self)) <? _long_window self)%Z
  then (self, inr [])
  else
    match Strategies.mean (_short_prices self) with
    | inl e => (self, inl e)
    | inr short_ma =>
        match Strategies.mean (_long_prices self) with
        | inl e => (self, inl e)
        | inr long_ma =>
            if Qltb long_ma short_ma && Strategies.differs (_last_signal self) BUY
            then (set_last_signal self BUY, inr [BUY])
            else if Qltb short_ma long_ma
                    && Strategies.differs (_last_signal self) SELL
            then (set_last_signal self SELL, inr [SELL])
            else (self, inr [])
        end
    end.
End MAC.

Module Momentum.
Record t := {
  _window : Z;
  _prices : list Q;
  _last_signal : option Side
}.

Definition init (window : Z) : Strategies.error + t :=
  match Strategies.deque_new window with
  | inl e => inl e
  | inr prices =>
      inr {| _window := window; _prices := prices; _last_signal := None |}
  end.

Definition set_last_signal (self : t) (s : Side) : t :=
  {| _window := _window self; _prices := _prices self; _last_signal := Some s |}.

Definition generate_signals (self : t) (tick : MarketDataPoint.t)
    : t * (Strategies.error + list Side) :=
  let self :=
    {| _window := _window self;
       _prices :=
         Strategies.deque_append (_window self) (_prices self)
           (MarketDataPoint.price tick);
       _last_signal := _last_signal self |} in
  if (Z.of_nat (length (_prices self)) <? _window self)%Z then (self, inr [])
  else
    match _prices self with
    | [] => (self, inl (Strategies.IndexError "deque index out of range"))
    | oldest :: _ =>
        let momentum := MarketDataPoint.price tick - oldest in
        if Qltb 0 momentum && Strategies.differs (_last_signal self) BUY
        then (set_last_signal self BUY, inr [BUY])
        else if Qltb momentum 0 && Strategies.differs (_last_signal self) SELL
        then (set_last_signal self SELL, inr [SELL])
        else (self, inr [])
    end.
End Momentum.

(** ** A strategy fed a sequence of ticks *)

(** The calls [generate_signals(tick)] for the ticks in order, as the runner
    and the warm-up make them: the strategy at the end and the signals of
    each tick, or the first exception. *)
Fixpoint feed {S : Type}
    (generate_signals : S -> MarketDataPoint.t -> S * (Strategies.error + list Side))
    (self : S) (ticks : list MarketDataPoint.t)
    : S * (Strategies.error + list (list Side)) :=
  match ticks with
  | [] => (self, inr [])
  | tick :: rest =>
      match generate_signals self tick with
      | (self, inl e) => (self, inl e)
      | (self, inr signals) =>
          match feed generate_signals self rest with
          | (self, inl e) => (self, inl e)
          | (self, inr later) => (self, inr (signals :: later))
          end
      end
  end.

(** No two consecutive signals are the same. *)
Fixpoint alternating (signals : list Side) : Prop :=
  match signals with
  | s1 :: ((s2 :: _) as rest) => s1 <> s2 /\ alternating rest
  | _ => True
  end.

(** The last signal given, as a list. *)
Definition last_as_list (last : option Side) : list Side :=
  match last with Some s => [s] | None => [] end.

(** Ticks of one symbol with the given prices, observed one second apart. *)
Definition ticks_of_prices (prices : list Q) : list MarketDataPoint.t :=
  map (fun ip => sample_tick (inject_Z (Z.of_nat (fst ip))) (snd ip))
      (combine (seq 0 (length prices)) prices).

(** A crossover strategy of windows 1 and 2 and a momentum strategy of
    window 2, as their constructors leave them. *)
Definition sample_MAC : MAC.t :=
  {| MAC._short_window := 1; MAC._long_window := 2;
     MAC._short_prices := []; MAC._long_prices := [];
     MAC._last_signal := None |}.

Definition sample_Momentum : Momentum.t :=
  {| Momentum._window := 2; Momentum._prices := [];
     Momentum._last_signal := None |}.

(** No signal on each of [n] ticks. *)
Definition silent (n : nat) : list (list Side) := repeat [] n.

(** Prices that rise from each tick to the next ([BUY]) or fall ([SELL]). *)
Definition trend (s : Side) (prices : list Q) : Prop :=
  StronglySorted (fun a b => match s with BUY => a < b | SELL => b < a end) prices.

(** [a] comes before [b] on a trend. *)
Definition ahead (s : Side) (a b : Q) : Prop :=
  match s with BUY => a < b | SELL => b < a end.

(** The two windows of a crossover strategy hold the latest prices: the short
    window is the right end of the long one while the short one is full, and
    the two are equal before. *)
Definition windows_nested (short_window long_window : Z)
    (short_prices long_prices : list Q) : Prop :=
  (Z.of_nat (length short_prices) <= short_window)%Z
  /\ (Z.of_nat (length long_prices) <= long_window)%Z
  /\ exists older,
      long_prices = older ++ short_prices
      /\ ((Z.of_nat (length short_prices) < short_window)%Z -> older = []).

(** ** The performance reporter ([reporting.py])

    The constructor and the maximum-drawdown loop of [calculate_metrics].  The
    Sharpe ratio (numpy's mean and standard deviation), the formatting of the
    metrics and the writing of the report are not modelled. *)

Module PerformanceReporter.
Record t := {
  equity_curve : list (Q * Q);
  timestamps : list Q;
  equity_values : list Q
}.

(** [__init__], given the equity curve found in [backtest_results]; the [zip]
    splits the samples into timestamps and values. *)
Definition init (curve : list (Q * Q)) : result t :=
  match curve with
  | [] =>
      Raise (ValueError "Equity curve is empty or insufficient for analysis. Cannot generate report.")
  | _ =>
      if (Z.of_nat (length curve) <? 2)%Z
      then Raise (ValueError "Equity curve is empty or insufficient for analysis. Cannot generate report.")
      else Return {| equity_curve := curve;
                     timestamps := map fst curve;
                     equity_values := map snd curve |}
  end.

(** One pass of the body of [for equity in equity_array] over the pair
    [(peak, max_drawdown)].  The division is that of non-zero floats: with a
    peak of 0 numpy gives [nan] or [inf] and a warning, which the rationals do
    not have. *)
Definition drawdown_step (state : Q * Q) (equity : Q) : Q * Q :=
  let '(peak, max_drawdown) := state in
  let peak := if Qltb peak equity then equity else peak in
  let drawdown := (peak - equity) / peak in
  (peak, if Qltb max_drawdown drawdown then drawdown else max_drawdown).

(** The maximum drawdown as [calculate_metrics] computes it; [None] stands
    for the [IndexError] of [equity_array[0]] on an empty array, which the
    constructor rules out. *)
Definition max_drawdown (equity_values : list Q) : option Q :=
  match equity_values with
  | [] => None
  | first :: _ => Some (snd (fold_left drawdown_step equity_values (first, 0)))
  end.
End PerformanceReporter.

(** The last step of [run_backtest_simulation]: a reporter is constructed when
    the equity curve is not empty, and an exception of the constructor leaves
    the function. *)
Definition make_reporter (w : Runner.World)
    : result (option PerformanceReporter.t) :=
  match Portfolio.trades (Runner.portfolio w) with
  | [] => Return None
  | curve =>
      match PerformanceReporter.init curve with
      | Return reporter => Return (Some reporter)
      | Raise e => Raise e
      end
  end.

(** [a] and, later in the list, [b]. *)
Definition earlier (a b : Q) (values : list Q) : Prop :=
  exists l1 l2 l3, values = l1 ++ a :: l2 ++ b :: l3.

(** What the drawdown loop has established after the values [seen]: [peak] is
    the largest of them, and [max_drawdown] the largest relative decline from
    a value to a later one. *)
Definition drawdown_invariant (seen : list Q) (peak max_drawdown : Q) : Prop :=
  Forall (fun a => 0 < a <= peak) seen
  /\ In peak seen
  /\ 0 <= max_drawdown
  /\ (forall a b, earlier a b seen -> (a - b) / a <= max_drawdown)
  /\ (max_drawdown == 0
      \/ exists a b, earlier a b seen /\ max_drawdown == (a - b) / a).

(** ** Price-time priority ([models.py]) *)

Module LimitOrder.
Record t := {
  price_key : Q;
  timestamp_key : Q;
  order : Order.t
}.

(** [__lt__] *)
Definition lt (self other : t) : bool :=
  if negb (Qeq_bool (price_key self) (price_key other))
  then Qltb (price_key self) (price_key other)
  else Qltb (timestamp_key self) (timestamp_key other).
End LimitOrder.

(** ** The order book ([engine.py]) *)

#[global] Instance Side_eq_dec : EqDecision Side.
Proof. solve_decision. Defined.

#[global] Instance OrderStatus_eq_dec : EqDecision OrderStatus.
Proof. solve_decision. Defined.

(** [==] on two orders: the dataclass compares the fields in turn. *)
Definition Order_eq (a b : Order.t) : bool :=
  String.eqb (Order.symbol a) (Order.symbol b)
  && (Order.quantity a =? Order.quantity b)%Z
  && Qeq_bool (Order.price a) (Order.price b)
  && bool_decide (Order.side a = Order.side b)
  && String.eqb (Order.order_type a) (Order.order_type b)
  && bool_decide (Order.status a = Order.status b)
  && (Order.filled_quantity a =? Order.filled_quantity b)%Z
  && String.eqb (Order.reason a) (Order.reason b)
  && Qeq_bool (Order.order_id a) (Order.order_id b).

Module heapq.
(** The exception of a comparison Python does not support. *)
Inductive error := TypeError (msg : string).

(** An item of the book's heaps: [(price_key, timestamp_key, order)]. *)
Definition item : Type := Q * Q * Order.t.

Definition price_key (x : item) : Q := fst (fst x).
Definition timestamp_key (x : item) : Q := snd (fst x).
Definition order (x : item) : Order.t := snd x.

(** [a < b] on two such tuples: the first components that differ decide, and
    two orders that differ cannot be compared ([Order] defines no [__lt__]). *)
Definition lt (a b : item) : error + bool :=
  if negb (Qeq_bool (price_key a) (price_key b))
  then inr (Qltb (price_key a) (price_key b))
  else if negb (Qeq_bool (timestamp_key a) (timestamp_key b))
  then inr (Qltb (timestamp_key a) (timestamp_key b))
  else if Order_eq (order a) (order b) then inr false
  else inl (TypeError "'<' not supported between instances of 'Order' and 'Order'").

(** [_siftdown(heap, 0, pos)]: the item at [pos] moves towards the root,
    changing places with its parent for as long as it is smaller; a failed
    comparison leaves the heap as the exchanges made so far have left it.
    [pos] halves at every turn, so [fuel >= pos] turns are enough. *)
Fixpoint siftdown (fuel : nat) (heap : list item) (pos : nat)
    : list item * option error :=
  match fuel with
  | O => (heap, None)
  | S fuel =>
      if (0 <? pos)%nat then
        let parentpos := Nat.div2 (pos - 1) in
        match heap !! pos, heap !! parentpos with
        | Some newitem, Some parent =>
            match lt newitem parent with
            | inl e => (heap, Some e)
            | inr true =>
                siftdown fuel (<[parentpos := newitem]> (<[pos := parent]> heap))
                  parentpos
            | inr false => (heap, None)
            end
        | _, _ => (heap, None)
        end
      else (heap, None)
  end.

(** [heappush(heap, item)] *)
Definition heappush (heap : list item) (x : item) : list item * option error :=
  siftdown (length heap) (heap ++ [x]) (length heap).
End heapq.

Module OrderBook.
Record t := {
  bids : list heapq.item;
  asks : list heapq.item
}.

Definition init : t := {| bids := []; asks := [] |}.

(** [add_order(order)], with the reading [now] of [time.time()]: the book
    after the call and the exception raised, if any. *)
Definition add_order (now : Q) (self : t) (order : Order.t)
    : t * option heapq.error :=
  let price_key := if is_BUY (Order.side order) then - Order.price order
                   else Order.price order in
  let timestamp_key := now in
  let limit_order := (price_key, timestamp_key, order) in
  if is_BUY (Order.side order) then
    let '(heap, e) := heapq.heappush (bids self) limit_order in
    ({| bids := heap; asks := asks self |}, e)
  else
    let '(heap, e) := heapq.heappush (asks self) limit_order in
    ({| bids := bids self; asks := heap |}, e).

Definition check_match (self : t) : bool :=
  match bids self, asks self with
  | [], _ | _, [] => false
  | best_bid :: _, best_ask :: _ =>
      let best_bid_price := - heapq.price_key best_bid in
      let best_ask_price := heapq.price_key best_ask in
      Qle_bool best_ask_price best_bid_price
  end.
End OrderBook.

(** Calls of [add_order] one after the other, each with its clock reading, up
    to the first exception. *)
Fixpoint add_orders (calls : list (Q * Order.t)) (book : OrderBook.t)
    : OrderBook.t * option heapq.error :=
  match calls with
  | [] => (book, None)
  | (now, order) :: rest =>
      match OrderBook.add_order now book order with
      | (book, Some e) => (book, Some e)
      | (book, None) => add_orders rest book
      end
  end.

(** The order of the heap on the two keys. *)
Definition key_le (a b : heapq.item) : Prop :=
  heapq.price_key a < heapq.price_key b
  \/ (heapq.price_key a == heapq.price_key b
      /\ heapq.timestamp_key a <= heapq.timestamp_key b).

(** The first item of the heap is a least one. *)
Definition root_min (heap : list heapq.item) : Prop :=
  forall r i x, heap !! 0%nat = Some r -> heap !! i = Some x -> key_le r x.

(** The item [add_order] makes of an order. *)
Definition item_of (call : Q * Order.t) : heapq.item :=
  ((if is_BUY (Order.side (snd call)) then - Order.price (snd call)
    else Order.price (snd call)),
   fst call, snd call).

(** The book holds the orders of the calls made so far, the BUY orders among
    the bids and the others among the asks, with a best item at the root of
    each heap. *)
Definition book_of (calls : list (Q * Order.t)) (book : OrderBook.t) : Prop :=
  root_min (OrderBook.bids book)
  /\ root_min (OrderBook.asks book)
  /\ (forall y, In y (OrderBook.bids book)
                <-> exists c, In c calls /\ Order.side (snd c) = BUY
                              /\ y = item_of c)
  /\ (forall y, In y (OrderBook.asks book)
                <-> exists c, In c calls /\ Order.side (snd c) = SELL
                              /\ y = item_of c).

(** ** The live trader ([alpaca_runner.py])

    The broker is outside the program: the bars it returns and the position it
    reports are inputs, and what is modelled of a call of [submit_order] is
    that it is made, with its side and quantity. *)

Module AlpacaTrader.
Definition QTY : Z := 10.

(** The trader's own state: the strategy. *)
Record t := { strategy : MAC.t }.

(** [__init__], once the connection is made. *)
Definition init : Strategies.error + t :=
  match MAC.init 5 20 with
  | inl e => inl e
  | inr strategy => inr {| strategy := strategy |}
  end.

(** [warm_up_strategy], given the bars of the past: each one is fed to the
    strategy and the signals are dropped. *)
Definition warm_up_strategy (self : t) (past_bars : list MarketDataPoint.t)
    : Strategies.error + t :=
  match feed MAC.generate_signals (strategy self) past_bars with
  | (_, inl e) => inl e
  | (strategy, inr _) => inr {| strategy := strategy |}
  end.

(** Step 3 of the loop body: the order submitted for the signals of a tick,
    if any, [current_qty] being the answer of [check_position]. *)
Definition process_signals (signals : list Side) (current_qty : Z)
    : option (Side * Z) :=
  match last signals with
  | None => None
  | Some BUY => Some (BUY, QTY)
  | Some SELL =>
      if (0 <? current_qty)%Z then Some (SELL, Z.min QTY current_qty)
      else None
  end.

(** One turn of the loop of [run] on a tick: an exception of the strategy is
    caught and reported, and no order is submitted. *)
Definition turn (self : t) (tick : MarketDataPoint.t) (current_qty : Z)
    : t * option (Side * Z) :=
  match MAC.generate_signals (strategy self) tick with
  | (strategy, inl _) => ({| strategy := strategy |}, None)
  | (strategy, inr signals) =>
      ({| strategy := strategy |}, process_signals signals current_qty)
  end.

(** The first turns of the loop, one for each tick received, with the
    position held at that time: the orders submitted. *)
Fixpoint run (self : t) (ticks : list (MarketDataPoint.t * Z))
    : list (option (Side * Z)) :=
  match ticks with
  | [] => []
  | (tick, current_qty) :: rest =>
      let '(self, submitted) := turn self tick current_qty in
      submitted :: run self rest
  end.
End AlpacaTrader.

(** What a submitted order may be when [current_qty] shares are held. *)
Definition order_allowed (current_qty : Z) (submitted : option (Side * Z)) : Prop :=
  match submitted with
  | None => True
  | Some (BUY, qty) => qty = AlpacaTrader.QTY
  | Some (SELL, qty) => (0 < qty <= current_qty)%Z /\ (qty <= AlpacaTrader.QTY)%Z
  end.

(** [n] bars with the prices 100, 101, ... *)
Definition rising_bars (n : nat) : list MarketDataPoint.t :=
  ticks_of_prices (map (fun i => inject_Z (Z.of_nat i)) (seq 100 n)).

(** ** The backtest with its strategies ([backtest_runner.py])

    [Runner.simulation_loop] takes the signals of each tick as given; here
    they come from the strategies of [strategies_list], whose calls are made
    outside the [try] of the loop body. *)

(** An object of a class that implements [Strategy]. *)
Inductive strategy :=
| a_MAC (self : MAC.t)
| a_Momentum (self : Momentum.t).

(** [strat.generate_signals(tick)] *)
Definition generate_signals (strat : strategy) (tick : MarketDataPoint.t)
    : strategy * (Strategies.error + list Side) :=
  match strat with
  | a_MAC self =>
      let '(self, r) := MAC.generate_signals self tick in (a_MAC self, r)
  | a_Momentum self =>
      let '(self, r) := Momentum.generate_signals self tick in (a_Momentum self, r)
  end.

(** Step 1 of the loop body: the signals of the strategies, in the order of
    the list; an exception leaves the later strategies uncalled. *)
Fixpoint collect_signals (strategies_list : list strategy)
    (tick : MarketDataPoint.t)
    : list strategy * (Strategies.error + list Side) :=
  match strategies_list with
  | [] => ([], inr [])
  | strat :: rest =>
      match generate_signals strat tick with
      | (strat, inl e) => (strat :: rest, inl e)
      | (strat, inr signals) =>
          match collect_signals rest tick with
          | (rest, inl e) => (strat :: rest, inl e)
          | (rest, inr more) => (strat :: rest, inr (signals ++ more))
          end
      end
  end.

(** The signals of a tick, each with the clock readings and random draws its
    order will meet: [envs i] are those of the tick's [i]-th signal. *)
Definition with_envs (all_signals : list Side) (envs : nat -> Runner.Env)
    : list (Side * Runner.Env) :=
  combine all_signals (map envs (seq 0 (length all_signals))).

(** The loop of [run_backtest_simulation] with the strategies: the strategies
    and the components at the end, and how the loop ended: with an exception
    of a strategy, which nothing catches, or as the loop body did. *)
Fixpoint backtest (cfg : Runner.Config) (engine : MatchingEngine.t)
    (strategies_list : list strategy)
    (ticks : list (MarketDataPoint.t * (nat -> Runner.Env))) (w : Runner.World)
    : list strategy * (Strategies.error + result unit) * Runner.World :=
  match ticks with
  | [] => (strategies_list, inr (Return tt), w)
  | (tick, envs) :: rest =>
      match collect_signals strategies_list tick with
      | (strategies_list, inl e) => (strategies_list, inl e, w)
      | (strategies_list, inr all_signals) =>
          match Runner.process_tick cfg engine tick (with_envs all_signals envs) w with
          | (Return _, w) => backtest cfg engine strategies_list rest w
          | (Raise e, w) => (strategies_list, inr (Raise e), w)
          end
      end
  end.

(** The strategies on their own: the signals of the ticks up to the first
    exception of a strategy, and that exception. *)
Fixpoint feed_all (strategies_list : list strategy)
    (ticks : list MarketDataPoint.t)
    : list strategy * list (list Side) * option Strategies.error :=
  match ticks with
  | [] => (strategies_list, [], None)
  | tick :: rest =>
      match collect_signals strategies_list tick with
      | (strategies_list, inl e) => (strategies_list, [], Some e)
      | (strategies_list, inr all_signals) =>
          let '(strategies_list, later, e) := feed_all strategies_list rest in
          (strategies_list, all_signals :: later, e)
      end
  end.

(** The ticks for which signals were obtained, with these signals. *)
Definition attach (ticks : list (MarketDataPoint.t * (nat -> Runner.Env)))
    (signals : list (list Side))
    : list (MarketDataPoint.t * list (Side * Runner.Env)) :=
  map (fun ts => (fst (fst ts), with_envs (snd ts) (snd (fst ts))))
      (combine ticks signals).

(** ** The rows of the ASCII plot ([reporting.py])

    [_generate_ascii_plot] up to the scaling of the values to rows; the choice
    of the columns (numpy's [linspace]) and the drawing are not modelled. *)





(** Three ticks of rising prices, each with the clock and draws of a full
    fill for its signals. *)
Definition rising_ticks : list (MarketDataPoint.t * (nat -> Runner.Env)) :=
  [(sample_tick 0 100, fun _ => sample_env 0 full_fill_draws);
   (sample_tick 60 101, fun _ => sample_env 60 full_fill_draws);
   (sample_tick 120 102, fun _ => sample_env 120 full_fill_draws)].
(** ** Arithmetic on the boolean comparisons *)

Lemma Qltb_true (a b : Q) : Qltb a b = true <-> a < b.
Proof.
  unfold Qltb. rewrite negb_true_iff, <- not_true_iff_false, Qle_bool_iff.
  split; [apply Qnot_le_lt | apply Qlt_not_le].
Qed.

Lemma Qltb_false (a b : Q) : Qltb a b = false <-> b <= a.
Proof.
  unfold Qltb. rewrite negb_false_iff. apply Qle_bool_iff.
Qed.

Lemma Qle_bool_false (a b : Q) : Qle_bool a b = false <-> b < a.
Proof.
  rewrite <- not_true_iff_false, Qle_bool_iff.
  split; [apply Qnot_le_lt | apply Qlt_not_le].
Qed.

(** ** [Order.validate] and the steps of [validate_order] *)

Lemma validate_Return (o : Order.t) :
  structural_ok o -> Order.validate o = Return tt.
Proof.
  intros [Hq Hp]. unfold Order.validate.
  destruct (Z.leb_spec (Order.quantity o) 0) as [Hle|_]; [lia|].
  apply Qle_bool_false in Hp. now rewrite Hp.
Qed.


Lemma capital_check_passes (om : OrderManager.t) (o : Order.t) :
  capital_ok om o ->
  is_BUY (Order.side o) && Qltb (OrderManager.capital om) (cost o) = false.
Proof.
  unfold capital_ok. destruct (Order.side o); simpl; [|reflexivity].
  intros H. apply Qltb_false. now apply H.
Qed.

Lemma capital_check_fails (om : OrderManager.t) (o : Order.t) :
  ~ capital_ok om o ->
  is_BUY (Order.side o) && Qltb (OrderManager.capital om) (cost o) = true.
Proof.
  unfold capital_ok. destruct (Order.side o); simpl.
  - intros H. apply Qltb_true. apply Qnot_le_lt. intros Hle. now apply H.
  - intros H. exfalso. apply H. discriminate.
Qed.

Lemma rate_check_passes (now : Q) (om : OrderManager.t) :
  rate_ok now om ->
  (Z.of_nat (length (window now om)) >=? OrderManager.MAX_ORDERS_PER_MIN om)%Z = false.
Proof. unfold rate_ok. intros H. rewrite Z.geb_leb. now apply Z.leb_gt. Qed.

Lemma rate_check_fails (now : Q) (om : OrderManager.t) :
  ~ rate_ok now om ->
  (Z.of_nat (length (window now om)) >=? OrderManager.MAX_ORDERS_PER_MIN om)%Z = true.
Proof.
  unfold rate_ok. intros H. rewrite Z.geb_leb. apply Z.leb_le. lia.
Qed.


Lemma validate_order_capital (now : Q) (om : OrderManager.t) (o : Order.t) :
  structural_ok o -> ~ capital_ok om o ->
  OrderManager.validate_order now om o
  = (false, om, Order.mark_rejected o "Insufficient capital.").
Proof.
  intros Hs Hc. unfold OrderManager.validate_order.
  rewrite (validate_Return o Hs).
  pose proof (capital_check_fails om o Hc) as E. unfold cost in E.
  now rewrite E.
Qed.

Lemma validate_order_rate (now : Q) (om : OrderManager.t) (o : Order.t) :
  structural_ok o -> capital_ok om o -> ~ rate_ok now om ->
  OrderManager.validate_order now om o
  = (false, OrderManager.set_orders_timestamps om (window now om),
     Order.mark_rejected o "Rate limit exceeded.").
Proof.
  intros Hs Hc Hr. unfold OrderManager.validate_order.
  rewrite (validate_Return o Hs).
  pose proof (capital_check_passes om o Hc) as E. unfold cost in E. rewrite E.
  pose proof (rate_check_fails now om Hr) as R. unfold window in R.
  cbn [OrderManager.MAX_ORDERS_PER_MIN OrderManager.set_orders_timestamps].
  now rewrite R.
Qed.

Lemma validate_order_position (now : Q) (om : OrderManager.t) (o : Order.t) :
  structural_ok o -> capital_ok om o -> rate_ok now om -> ~ position_ok om o ->
  OrderManager.validate_order now om o
  = (false, OrderManager.set_orders_timestamps om (window now om),
     Order.mark_rejected o (position_reason om o)).
Proof.
  intros Hs Hc Hr Hp. unfold OrderManager.validate_order.
  rewrite (validate_Return o Hs).
  pose proof (capital_check_passes om o Hc) as E. unfold cost in E. rewrite E.
  pose proof (rate_check_passes now om Hr) as R. unfold window in R.
  cbn [OrderManager.MAX_ORDERS_PER_MIN OrderManager.set_orders_timestamps
       OrderManager.positions OrderManager.MAX_POSITION].
  rewrite R.
  unfold position_ok, position_reason, current_pos in *.
  destruct (Order.side o); simpl.
  - apply Qnot_le_lt, Qltb_true in Hp. now rewrite Hp.
  - apply Qnot_le_lt, Qltb_true in Hp. now rewrite Hp.
Qed.

Lemma validate_order_admit (now : Q) (om : OrderManager.t) (o : Order.t) :
  structural_ok o -> capital_ok om o -> rate_ok now om -> position_ok om o ->
  OrderManager.validate_order now om o
  = (true, OrderManager.set_orders_timestamps om (window now om ++ [now]), o).
Proof.
  intros Hs Hc Hr Hp. unfold OrderManager.validate_order.
  rewrite (validate_Return o Hs).
  pose proof (capital_check_passes om o Hc) as E. unfold cost in E. rewrite E.
  pose proof (rate_check_passes now om Hr) as R. unfold window in R.
  cbn [OrderManager.MAX_ORDERS_PER_MIN OrderManager.set_orders_timestamps
       OrderManager.positions OrderManager.MAX_POSITION
       OrderManager.capital OrderManager.orders_timestamps].
  rewrite R.
  unfold position_ok, current_pos, window in *.
  destruct (Order.side o); simpl.
  - apply Qltb_false in Hp. now rewrite Hp.
  - apply Qltb_false in Hp. now rewrite Hp.
Qed.

(** ** The validator's checks, in order *)


(** Closed facts on concrete rationals, by evaluation. *)
Ltac by_evaluation :=
  vm_compute;
  first [ reflexivity
        | intros; discriminate
        | let H := fresh in
          intro H; exfalso;
          first [ apply H; reflexivity
                | apply (H eq_refl); reflexivity
                | apply H; intros; discriminate ] ].


(** ** Position limit *)

Lemma position_reason_500 (om : OrderManager.t) (o : Order.t) :
  OrderManager.MAX_POSITION om = 500%Z ->
  position_reason om o
  = match Order.side o with
    | BUY => "Position limit (500) exceeded."%string
    | SELL => "Short position limit (-500) exceeded."%string
    end.
Proof. intros H. unfold position_reason. rewrite H. now destruct (Order.side o). Qed.

(** C8: with the bound of 500 shares that [OrderManager.__init__] sets, and for
    an order that passes the structural, capital and rate checks: against a
    long position of 495 a BUY of 10 is rejected by the position check and a
    BUY of 5 is admitted (the projected position may sit exactly on the
    bound); against a short position of -495 the same holds for SELL and the
    bound -500. *)
Theorem position_limit_495 (now : Q) (om : OrderManager.t) (o : Order.t) :
  OrderManager.MAX_POSITION om = 500%Z ->
  0 < Order.price o -> capital_ok om o -> rate_ok now om ->
  (Order.side o = BUY -> current_pos om o == 495 ->
     (Order.quantity o = 10%Z ->
        OrderManager.validate_order now om o
        = (false, OrderManager.set_orders_timestamps om (window now om),
           Order.mark_rejected o "Position limit (500) exceeded."))
     /\ (Order.quantity o = 5%Z ->
           OrderManager.validate_order now om o
           = (true, OrderManager.set_orders_timestamps om (window now om ++ [now]), o)))
  /\ (Order.side o = SELL -> current_pos om o == -495 ->
        (Order.quantity o = 10%Z ->
           OrderManager.validate_order now om o
           = (false, OrderManager.set_orders_timestamps om (window now om),
              Order.mark_rejected o "Short position limit (-500) exceeded."))
        /\ (Order.quantity o = 5%Z ->
              OrderManager.validate_order now om o
              = (true, OrderManager.set_orders_timestamps om (window now om ++ [now]), o))).
Proof.
  intros HM Hp Hc Hr.
  assert (Hs : forall q, Order.quantity o = q -> (0 < q)%Z -> structural_ok o)
    by (intros q Hq Hpos; split; [lia | exact Hp]).
  split; intros Hside Hcur; split; intros Hq.
  - rewrite validate_order_position; try assumption.
    + rewrite (position_reason_500 om o HM), Hside. reflexivity.
    + apply (Hs 10%Z); [assumption | lia].
    + unfold position_ok. rewrite Hside, HM, Hq, Hcur. by_evaluation.
  - apply validate_order_admit; try assumption.
    + apply (Hs 5%Z); [assumption | lia].
    + unfold position_ok. rewrite Hside, HM, Hq, Hcur. by_evaluation.
  - rewrite validate_order_position; try assumption.
    + rewrite (position_reason_500 om o HM), Hside. reflexivity.
    + apply (Hs 10%Z); [assumption | lia].
    + unfold position_ok. rewrite Hside, HM, Hq, Hcur. by_evaluation.
  - apply validate_order_admit; try assumption.
    + apply (Hs 5%Z); [assumption | lia].
    + unfold position_ok. rewrite Hside, HM, Hq, Hcur. by_evaluation.
Qed.

Lemma position_limit_495_witness :
  OrderManager.validate_order 1 (sample_manager 495) (sample_order BUY 10 100)
  = (false,
     OrderManager.set_orders_timestamps (sample_manager 495)
       (window 1 (sample_manager 495)),
     Order.mark_rejected (sample_order BUY 10 100) "Position limit (500) exceeded.")
  /\ OrderManager.validate_order 1 (sample_manager 495) (sample_order BUY 5 100)
     = (true,
        OrderManager.set_orders_timestamps (sample_manager 495)
          (window 1 (sample_manager 495) ++ [1]),
        sample_order BUY 5 100)
  /\ OrderManager.validate_order 1 (sample_manager (-495)) (sample_order SELL 10 100)
     = (false,
        OrderManager.set_orders_timestamps (sample_manager (-495))
          (window 1 (sample_manager (-495))),
        Order.mark_rejected (sample_order SELL 10 100)
          "Short position limit (-500) exceeded.")
  /\ OrderManager.validate_order 1 (sample_manager (-495)) (sample_order SELL 5 100)
     = (true,
        OrderManager.set_orders_timestamps (sample_manager (-495))
          (window 1 (sample_manager (-495)) ++ [1]),
        sample_order SELL 5 100).
Proof.
  repeat apply conj.
  - destruct (position_limit_495 1 (sample_manager 495) (sample_order BUY 10 100))
      as [HB _]; [by_evaluation .. |].
    apply HB; by_evaluation.
  - destruct (position_limit_495 1 (sample_manager 495) (sample_order BUY 5 100))
      as [HB _]; [by_evaluation .. |].
    apply HB; by_evaluation.
  - destruct (position_limit_495 1 (sample_manager (-495)) (sample_order SELL 10 100))
      as [_ HS]; [by_evaluation .. |].
    apply HS; by_evaluation.
  - destruct (position_limit_495 1 (sample_manager (-495)) (sample_order SELL 5 100))
      as [_ HS]; [by_evaluation .. |].
    apply HS; by_evaluation.
Defined.

(** ** Capital check *)

Lemma update_from_fill_keeps_capital (p : Portfolio.t) (om : OrderManager.t)
    (o : Order.t) (fill_price : Q) (filled_qty : Z) :
  OrderManager.capital (snd (Portfolio.update_from_fill p om o fill_price filled_qty))
  = OrderManager.capital om.
Proof. unfold Portfolio.update_from_fill. simpl. now destruct (Portfolio.om p). Qed.

Lemma validate_order_keeps_capital (now : Q) (om : OrderManager.t) (o : Order.t) :
  OrderManager.capital (snd (fst (OrderManager.validate_order now om o)))
  = OrderManager.capital om.
Proof.
  unfold OrderManager.validate_order.
  repeat match goal with
         | |- context [match ?x with _ => _ end] => destruct x
         end; reflexivity.
Qed.

(** What the code checks: a structurally valid BUY is rejected for capital
    exactly when its cost exceeds the manager's own [capital] field, which no
    call changes after construction. *)
Lemma capital_rejection_iff (now : Q) (om : OrderManager.t) (o : Order.t) :
  structural_ok o -> Order.side o = BUY ->
  (Order.reason (snd (OrderManager.validate_order now om o)) = "Insufficient capital."%string
   /\ fst (fst (OrderManager.validate_order now om o)) = false)
  <-> OrderManager.capital om < cost o.
Proof.
  intros Hs Hside. split.
  - intros [Hreason Hfalse]. apply Qnot_le_lt. intros Hle.
    assert (Hc : capital_ok om o) by (intros _; exact Hle).
    destruct (Z.ltb_spec (Z.of_nat (length (window now om)))
                (OrderManager.MAX_ORDERS_PER_MIN om)) as [Hr|Hr].
    + destruct (Qlt_le_dec (inject_Z (OrderManager.MAX_POSITION om))
                  (current_pos om o + inject_Z (Order.quantity o))) as [Hp|Hp].
      * rewrite validate_order_position in Hreason; try assumption.
        -- unfold position_reason in Hreason. rewrite Hside in Hreason.
           simpl in Hreason. discriminate Hreason.
        -- unfold position_ok. rewrite Hside. now apply Qlt_not_le.
      * rewrite validate_order_admit in Hfalse; try assumption.
        -- discriminate Hfalse.
        -- unfold position_ok. now rewrite Hside.
    + rewrite validate_order_rate in Hreason; try assumption.
      * simpl in Hreason. discriminate Hreason.
      * unfold rate_ok. lia.
  - intros Hlt. rewrite validate_order_capital; try assumption.
    + split; reflexivity.
    + intros Hc. apply (Qlt_not_le _ _ Hlt). now apply Hc.
Qed.

(** A SELL order is never refused for capital, whatever the capital is. *)
Lemma sell_not_capital_checked (now : Q) (om : OrderManager.t) (o : Order.t) :
  Order.side o = SELL ->
  Order.reason o <> "Insufficient capital."%string ->
  Order.reason (snd (OrderManager.validate_order now om o))
  <> "Insufficient capital."%string.
Proof.
  intros Hside Hre. unfold OrderManager.validate_order, Order.validate.
  rewrite Hside. simpl.
  repeat match goal with
         | |- context [if ?c then _ else _] => destruct c
         end; simpl; try exact Hre; discriminate.
Qed.

(** C1, evaluated where it fails: after one filled BUY of 10 shares at 6000 the
    account holds 40000 in cash while the manager's [capital] is still
    100000; a second BUY costing 60000 exceeds the cash and is admitted. *)
Theorem capital_check_after_fill :
  let w1 := snd (Runner.run_backtest_simulation Runner.config
                   [(sample_tick 0 6000, [(BUY, sample_env 1 full_fill_draws)])]) in
  let o := Order.init "AAPL" 10 6000 BUY 2 in
  Portfolio.cash (Runner.portfolio w1) == 40000
  /\ OrderManager.capital (Runner.order_manager w1) == 100000
  /\ structural_ok o
  /\ Portfolio.cash (Runner.portfolio w1) < cost o
  /\ OrderManager.validate_order 2 (Runner.order_manager w1) o
     = (true,
        OrderManager.set_orders_timestamps (Runner.order_manager w1) [1; 2], o).
Proof. repeat apply conj; by_evaluation. Qed.

(** ** Rate limit *)

Lemma popleft_expired_length (now : Q) (ts : list Q) :
  (length (OrderManager.popleft_expired now ts) <= length ts)%nat.
Proof.
  induction ts as [|t0 rest IH]; simpl; [lia|].
  destruct (Qltb t0 (now - 60)); simpl; lia.
Qed.

Lemma popleft_expired_fresh (now t0 : Q) (ts : list Q) :
  Forall (fun t => t0 <= t) ts -> now <= t0 + 60 ->
  OrderManager.popleft_expired now ts = ts.
Proof.
  intros Hall Hnow. destruct ts as [|t rest]; simpl; [reflexivity|].
  apply Forall_inv in Hall.
  assert (E : Qltb t (now - 60) = false) by (apply Qltb_false; lra).
  now rewrite E.
Qed.

Lemma popleft_expired_oldest (now oldest : Q) (rest : list Q) :
  oldest < now - 60 ->
  (length (OrderManager.popleft_expired now (oldest :: rest)) <= length rest)%nat.
Proof.
  intros H. simpl. apply Qltb_true in H. rewrite H.
  apply popleft_expired_length.
Qed.

Lemma submissions_fill_window (om om' : OrderManager.t)
    (subs : list (Q * Order.t)) (outs : list (bool * Order.t)) (t0 : Q) :
  submissions om subs outs om' ->
  OrderManager.MAX_ORDERS_PER_MIN om = 50%Z ->
  Forall (fun t => t0 <= t) (OrderManager.orders_timestamps om) ->
  (forall now o, In (now, o) subs -> t0 <= now <= t0 + 60) ->
  (length (OrderManager.orders_timestamps om) <= 50)%nat ->
  (length (OrderManager.orders_timestamps om) + length subs = 51)%nat ->
  (exists firsts o_last,
      outs = firsts ++ [(false, o_last)]
      /\ (length firsts + 1 = length subs)%nat
      /\ Forall (fun r => fst r = true) firsts
      /\ Order.status o_last = REJECTED
      /\ Order.reason o_last = "Rate limit exceeded."%string)
  /\ OrderManager.MAX_ORDERS_PER_MIN om' = 50%Z
  /\ length (OrderManager.orders_timestamps om') = 50%nat.
Proof.
  induction 1 as [om | om om1 om' now o o1 ok ps rest outs Hs Hc Hp Hv Hrest IH];
    intros HM Hall Htimes Hle Hlen.
  - simpl in Hlen. lia.
  - assert (Hnow : t0 <= now <= t0 + 60) by (apply (Htimes now o); now left).
    assert (Hw : window now om = OrderManager.orders_timestamps om)
      by (apply (popleft_expired_fresh now t0); [exact Hall | apply Hnow]).
    destruct (Nat.eq_dec (length (OrderManager.orders_timestamps om)) 50%nat) as [E|E].
    + (* the window is full: this is the last submission, and it is refused *)
      assert (rest = []) by (destruct rest; [reflexivity | simpl in Hlen; lia]).
      subst rest. inversion Hrest; subst.
      rewrite validate_order_rate in Hv; try assumption.
      * injection Hv as <- <- <-.
        split; [exists [], (Order.mark_rejected o "Rate limit exceeded.")|].
        { repeat split; constructor. }
        simpl. rewrite Hw. split; assumption.
      * unfold rate_ok. rewrite Hw, HM. lia.
    + (* room left: the order is admitted and its time recorded *)
      rewrite validate_order_admit in Hv; try assumption.
      2:{ unfold rate_ok. rewrite Hw, HM. lia. }
      injection Hv as <- <- <-. rewrite Hw in IH.
      destruct IH as ((firsts & o_last & -> & Hl & Hf & Hst & Hre) & HM' & Hlen').
      * exact HM.
      * simpl. apply Forall_app. split; [exact Hall|].
        constructor; [apply Hnow | constructor].
      * intros n' o' Hin. apply (Htimes n' o'). now right.
      * simpl. rewrite length_app. simpl. lia.
      * simpl. rewrite length_app. simpl in *. lia.
      * split; [|split; assumption].
        exists ((true, o) :: firsts), o_last.
        repeat split; try assumption.
        -- simpl. lia.
        -- constructor; [reflexivity | exact Hf].
Qed.

(** C3 (amended to the clock the code reads): on a manager with an empty
    window and the ceiling of 50, take 51 submissions, each passing the
    structural, capital and position checks, whose [time.time()] readings lie
    within one span of 60 seconds.  The first 50 are admitted and the 51st is
    rejected with "Rate limit exceeded.".  Afterwards, as soon as a reading is
    more than 60 seconds past the oldest recorded timestamp, an order passing
    the other checks is admitted again. *)
Theorem rate_limit_51 (om0 om' : OrderManager.t)
    (subs : list (Q * Order.t)) (outs : list (bool * Order.t)) (t0 : Q) :
  OrderManager.orders_timestamps om0 = [] ->
  OrderManager.MAX_ORDERS_PER_MIN om0 = 50%Z ->
  submissions om0 subs outs om' ->
  length subs = 51%nat ->
  (forall now o, In (now, o) subs -> t0 <= now <= t0 + 60) ->
  (exists firsts o51,
      outs = firsts ++ [(false, o51)]
      /\ length firsts = 50%nat
      /\ Forall (fun r => fst r = true) firsts
      /\ Order.status o51 = REJECTED
      /\ Order.reason o51 = "Rate limit exceeded."%string)
  /\ (exists oldest,
        head (OrderManager.orders_timestamps om') = Some oldest
        /\ forall now o,
             oldest < now - 60 ->
             structural_ok o -> capital_ok om' o -> position_ok om' o ->
             OrderManager.validate_order now om' o
             = (true,
                OrderManager.set_orders_timestamps om' (window now om' ++ [now]), o)).
Proof.
  intros Hts HM Hrun Hlen Htimes.
  destruct (submissions_fill_window om0 om' subs outs t0 Hrun HM) as (Hout & HM' & Hlen').
  - rewrite Hts. constructor.
  - exact Htimes.
  - rewrite Hts. simpl. lia.
  - rewrite Hts, Hlen. reflexivity.
  - split.
    + destruct Hout as (firsts & o51 & E & Hl & Hrest).
      exists firsts, o51. split; [exact E|]. split; [lia | exact Hrest].
    + destruct (OrderManager.orders_timestamps om') as [|oldest rest] eqn:E;
        [discriminate Hlen'|].
      exists oldest. split; [reflexivity|].
      intros now o Hold Hs Hc Hp. apply validate_order_admit; try assumption.
      unfold rate_ok, window. rewrite E, HM'.
      pose proof (popleft_expired_oldest now oldest rest Hold).
      simpl in Hlen'. lia.
Qed.

(** One step of a concrete run: the call is evaluated and the state it leaves
    is kept in normal form. *)
Ltac submit_one :=
  lazymatch goal with
  | |- submissions ?om ((?now, ?o) :: _) _ _ =>
      let r := eval vm_compute in (OrderManager.validate_order now om o) in
      lazymatch r with
      | (?ok, ?om1, ?o1) =>
          let ps := eval vm_compute in (OrderManager.positions om1) in
          apply (submissions_cons om om1 _ now o o1 ok ps);
          [ split; by_evaluation | by_evaluation | by_evaluation
          | vm_compute; reflexivity | ]
      end
  end.

Lemma rate_limit_51_witness :
  exists outs om',
    submissions (sample_manager 0) sample_submissions outs om'
    /\ (exists firsts o51,
          outs = firsts ++ [(false, o51)]
          /\ length firsts = 50%nat
          /\ Forall (fun r => fst r = true) firsts
          /\ Order.status o51 = REJECTED
          /\ Order.reason o51 = "Rate limit exceeded."%string).
Proof.
  assert (D : exists outs om',
             submissions (sample_manager 0) sample_submissions outs om').
  { eexists. eexists. unfold sample_submissions. simpl map.
    do 51 submit_one. apply submissions_nil. }
  destruct D as (outs & om' & D). exists outs, om'. split; [exact D|].
  apply (rate_limit_51 (sample_manager 0) om' sample_submissions outs 0).
  - reflexivity.
  - reflexivity.
  - exact D.
  - reflexivity.
  - intros now o Hin. unfold sample_submissions in Hin.
    apply in_map_iff in Hin. destruct Hin as (i & E & Hi).
    injection E as <- _. apply in_seq in Hi.
    split.
    + change 0 with (inject_Z 0). rewrite <- Zle_Qle. lia.
    + change (0 + 60) with (inject_Z 60). rewrite <- Zle_Qle. lia.
Defined.

(** Counterexample to C3 as stated in observation time: fifty orders, one per
    tick, the ticks observed 120 seconds apart, have all been admitted and
    filled; the 51st order comes 120 seconds of observation time after the
    50th and passes the structural, capital and position checks, yet it is
    rejected with "Rate limit exceeded." because the readings of the clock
    lie within 51 milliseconds. *)
Lemma rate_limit_ignores_observation_time :
  let w50 := snd (Runner.run_backtest_simulation Runner.config (firstn 50 spaced_ticks)) in
  let om50 := Runner.order_manager w50 in
  let o51 := Order.init "AAPL" (Runner.DEFAULT_QTY Runner.config) 100 BUY (1000 + 50 / 1000) in
  map (fun x => MarketDataPoint.timestamp (fst x)) (skipn 49 spaced_ticks)
  = [120 * inject_Z 49; 120 * inject_Z 50]
  /\ map Gateway.row_status (Runner.gateway w50) = repeat FILLED 50
  /\ structural_ok o51 /\ capital_ok om50 o51 /\ position_ok om50 o51
  /\ OrderManager.validate_order (1000 + 50 / 1000) om50 o51
     = (false, om50, Order.mark_rejected o51 "Rate limit exceeded.")
  /\ map (fun r => (Gateway.row_status r, Gateway.row_reason r))
         (skipn 50 (Runner.gateway
                      (snd (Runner.run_backtest_simulation Runner.config spaced_ticks))))
     = [(REJECTED, "Rate limit exceeded."%string)].
Proof. repeat apply conj; by_evaluation. Qed.

(** ** Cost basis *)

Lemma held_update_from_fill (p : Portfolio.t) (om : OrderManager.t) (o : Order.t)
    (fill_price : Q) (filled_qty : Z) :
  held (fst (Portfolio.update_from_fill p om o fill_price filled_qty)) (Order.symbol o)
  = let old := held p (Order.symbol o) in
    let new_qty :=
      if is_BUY (Order.side o) then Portfolio.quantity old + inject_Z filled_qty
      else Portfolio.quantity old - inject_Z filled_qty in
    {| Portfolio.quantity := new_qty;
       Portfolio.avg_price := Portfolio.new_avg_price old new_qty fill_price filled_qty |}.
Proof.
  unfold held, Portfolio.update_from_fill. cbn [fst Portfolio.positions].
  now rewrite lookup_insert_eq.
Qed.

Lemma same_direction_product (old_qty new_qty : Q) :
  same_direction old_qty new_qty -> 0 <= new_qty * old_qty.
Proof.
  intros [[H1 H2] | [[H1 H2] | H]].
  - apply Qmult_le_0_compat; now apply Qlt_le_weak.
  - assert (E : new_qty * old_qty == (- new_qty) * (- old_qty)) by ring.
    rewrite E. apply Qmult_le_0_compat; lra.
  - rewrite H. lra.
Qed.

Lemma flips_sign_product (old_qty new_qty : Q) :
  flips_sign old_qty new_qty -> new_qty * old_qty < 0 /\ ~ new_qty == 0.
Proof.
  intros [[H1 H2] | [H1 H2]].
  - split; [|lra].
    assert (0 < (- new_qty) * old_qty) by (apply Qmult_lt_0_compat; lra).
    assert (E : new_qty * old_qty == - ((- new_qty) * old_qty)) by ring.
    rewrite E. lra.
  - split; [|lra].
    assert (0 < new_qty * (- old_qty)) by (apply Qmult_lt_0_compat; lra).
    assert (E : new_qty * old_qty == - (new_qty * (- old_qty))) by ring.
    rewrite E. lra.
Qed.

Lemma Qeq_bool_false (a b : Q) : ~ a == b -> Qeq_bool a b = false.
Proof.
  intros H. destruct (Qeq_bool a b) eqn:E; [|reflexivity].
  exfalso. now apply H, Qeq_bool_iff.
Qed.

(** The average price after a fill, in the three cases of the code. *)
Lemma new_avg_price_cases (p : Portfolio.t) (om : OrderManager.t) (o : Order.t)
    (fill_price : Q) (filled_qty : Z) :
  let old := held p (Order.symbol o) in
  let new := held (fst (Portfolio.update_from_fill p om o fill_price filled_qty))
                  (Order.symbol o) in
  Portfolio.quantity new
  = Portfolio.quantity old + signed_fill (Order.side o) filled_qty
  /\ (same_direction (Portfolio.quantity old) (Portfolio.quantity new) ->
      ~ Portfolio.quantity new == 0 ->
      Portfolio.avg_price new
      = blended old fill_price filled_qty (Portfolio.quantity new))
  /\ (Portfolio.quantity new == 0 -> Portfolio.avg_price new = 0.0)
  /\ (flips_sign (Portfolio.quantity old) (Portfolio.quantity new) ->
      Portfolio.avg_price new = Portfolio.avg_price old).
Proof.
  intros old new. subst new. rewrite held_update_from_fill. fold old.
  cbn zeta. cbn [Portfolio.quantity Portfolio.avg_price].
  set (new_qty := if is_BUY (Order.side o) then _ else _).
  split; [subst new_qty; now destruct (Order.side o)|].
  unfold Portfolio.new_avg_price, blended.
  split; [|split].
  - intros Hd Hnz. apply same_direction_product, Qle_bool_iff in Hd.
    rewrite Hd, (Qeq_bool_false _ _ Hnz). reflexivity.
  - intros Hz. apply Qeq_bool_iff in Hz. rewrite Hz.
    rewrite andb_false_r. reflexivity.
  - intros Hf. apply flips_sign_product in Hf. destruct Hf as [Hneg Hnz].
    apply Qle_bool_false in Hneg. rewrite Hneg, (Qeq_bool_false _ _ Hnz).
    reflexivity.
Qed.

(** C2 (amended): after a fill the position holds the old quantity plus the
    filled quantity for BUY, minus it for SELL.  A BUY fill on a long or flat
    position makes the cost basis the average of the old basis and the fill
    price, weighted by the old quantity and the filled quantity.  If the new
    quantity is zero the cost basis becomes zero.  If the fill flips the sign
    of the position the cost basis is left as it was. *)
Theorem cost_basis_update (p : Portfolio.t) (om : OrderManager.t) (o : Order.t)
    (fill_price : Q) (filled_qty : Z) :
  let old := held p (Order.symbol o) in
  let new := held (fst (Portfolio.update_from_fill p om o fill_price filled_qty))
                  (Order.symbol o) in
  Portfolio.quantity new
  = Portfolio.quantity old + signed_fill (Order.side o) filled_qty
  /\ (Order.side o = BUY -> 0 <= Portfolio.quantity old -> (0 < filled_qty)%Z ->
      Portfolio.avg_price new
      = weighted_average (Portfolio.avg_price old) (Portfolio.quantity old)
          fill_price (inject_Z filled_qty))
  /\ (Portfolio.quantity new == 0 -> Portfolio.avg_price new = 0.0)
  /\ (flips_sign (Portfolio.quantity old) (Portfolio.quantity new) ->
      Portfolio.avg_price new = Portfolio.avg_price old).
Proof.
  intros old new.
  destruct (new_avg_price_cases p om o fill_price filled_qty)
    as (Hq & Hblend & Hzero & Hflip).
  fold old new in Hq, Hblend, Hzero, Hflip.
  split; [exact Hq|]. split; [|split; assumption].
  intros Hside Hold Hfilled.
  assert (Hk : 0 < inject_Z filled_qty)
    by (change 0 with (inject_Z 0); rewrite <- Zlt_Qlt; exact Hfilled).
  rewrite Hside in Hq. simpl in Hq.
  rewrite Hblend.
  - unfold blended, weighted_average. now rewrite Hq.
  - rewrite Hq. destruct (Qlt_le_dec 0 (Portfolio.quantity old)) as [Hpos|Hle].
    + left. split; [exact Hpos | lra].
    + right; right. lra.
  - rewrite Hq. lra.
Qed.

Lemma cost_basis_update_witness :
  (* first purchase: weighted average *)
  Portfolio.avg_price
    (held (fst (Portfolio.update_from_fill (Portfolio.init 100000.0) (sample_manager 0)
                  (sample_order BUY 10 100) 100 10)) "AAPL")
  = weighted_average
      (Portfolio.avg_price (held (Portfolio.init 100000.0) "AAPL"))
      (Portfolio.quantity (held (Portfolio.init 100000.0) "AAPL")) 100 (inject_Z 10)
  (* closing the position: reset *)
  /\ Portfolio.avg_price
       (held (fst (Portfolio.update_from_fill long_10_at_100 (sample_manager 10)
                     (sample_order SELL 10 110) 110 10)) "AAPL")
     = 0.0
  (* selling through zero: unchanged *)
  /\ Portfolio.avg_price
       (held (fst (Portfolio.update_from_fill long_10_at_100 (sample_manager 10)
                     (sample_order SELL 15 110) 110 15)) "AAPL")
     = Portfolio.avg_price (held long_10_at_100 "AAPL").
Proof.
  repeat apply conj.
  - apply (proj1 (proj2 (cost_basis_update (Portfolio.init 100000.0) (sample_manager 0)
                           (sample_order BUY 10 100) 100 10))); by_evaluation.
  - apply (proj1 (proj2 (proj2 (cost_basis_update long_10_at_100 (sample_manager 10)
                                  (sample_order SELL 10 110) 110 10)))).
    by_evaluation.
  - apply (proj2 (proj2 (proj2 (cost_basis_update long_10_at_100 (sample_manager 10)
                                  (sample_order SELL 15 110) 110 15)))).
    left. split; by_evaluation.
Defined.

(** Counterexample to C2 as stated.  A position of 10 shares bought at 100 is
    taken to -5 by a SELL of 15 at 110: the blended formula would give -530,
    and the cost basis stays 100.  The same position reduced to 5 by a SELL of
    5 at 110 gets the cost basis 310, which is no average of 100 and 110; and
    a flat position opened short by a SELL of 5 at 110 gets the cost basis
    -110. *)
Lemma sign_flip_keeps_basis :
  let old := held long_10_at_100 "AAPL" in
  let flipped := held (fst (Portfolio.update_from_fill long_10_at_100 (sample_manager 10)
                              (sample_order SELL 15 110) 110 15)) "AAPL" in
  let reduced := held (fst (Portfolio.update_from_fill long_10_at_100 (sample_manager 10)
                              (sample_order SELL 5 110) 110 5)) "AAPL" in
  let short := held (fst (Portfolio.update_from_fill (Portfolio.init 100000.0)
                            (sample_manager 0) (sample_order SELL 5 110) 110 5)) "AAPL" in
  Portfolio.quantity old == 10
  /\ Portfolio.avg_price old == 100
  /\ Portfolio.quantity flipped == -5
  /\ blended old 110 15 (Portfolio.quantity flipped) == -530
  /\ Portfolio.avg_price flipped == 100
  /\ ~ Portfolio.avg_price flipped == blended old 110 15 (Portfolio.quantity flipped)
  /\ Portfolio.quantity reduced == 5
  /\ Portfolio.avg_price reduced == 310
  /\ ~ Portfolio.avg_price reduced <= 110
  /\ Portfolio.quantity short == -5
  /\ Portfolio.avg_price short == -110.
Proof. repeat apply conj; by_evaluation. Qed.

(** ** Execution outcomes *)

Lemma randint_range (a b raw : Z) :
  (a <= b)%Z ->
  exists k, random.randint a b raw = Return k /\ (a <= k <= b)%Z.
Proof.
  intros H. unfold random.randint.
  destruct (Z.leb_spec a b) as [_|Hlt]; [|lia].
  eexists. split; [reflexivity|].
  pose proof (Z.mod_pos_bound raw (b - a + 1)). lia.
Qed.

Lemma randint_onto (a b k : Z) :
  (a <= k <= b)%Z -> random.randint a b (k - a) = Return k.
Proof.
  intros H. unfold random.randint.
  destruct (Z.leb_spec a b) as [_|Hlt]; [|lia].
  rewrite Z.mod_small by lia. f_equal. lia.
Qed.

Lemma randint_empty (a b raw : Z) :
  (b < a)%Z -> exists msg, random.randint a b raw = Raise (ValueError msg).
Proof.
  intros H. unfold random.randint.
  destruct (Z.leb_spec a b) as [Hle|_]; [lia|]. eexists. reflexivity.
Qed.

Lemma fill_positive (engine : MatchingEngine.t) (d : random.draws) (o : Order.t) (k : Z) :
  (0 < k)%Z ->
  MatchingEngine.fill engine d o k
  = (Order.mark_filled o k (slipped_price engine d o),
     Return (reported_price engine d o, k)).
Proof.
  intros H. unfold MatchingEngine.fill.
  destruct (Z.gtb_spec k 0) as [_|Hle]; [reflexivity | lia].
Qed.

(** C4 (amended): for an order of positive quantity, one call of
    [simulate_execution] with its draws [r1], [r2], [r3] has exactly one of
    four outcomes.  [r1 < 0.02]: [ExecutionError] is raised and the order is
    untouched.  Otherwise [r2 < 0.95]: the whole quantity is filled.
    Otherwise [r3 < 0.04] and the quantity is at least 2: a quantity [k] with
    [1 <= k <= quantity - 1], bounds included, is filled.  Otherwise the order
    is marked REJECTED with "Canceled/No liquidity." and [(0.0, 0)] is
    returned.  With a fill the returned price is
    [round(price * (1 + slippage), 2)]. *)
Theorem simulate_execution_outcomes (engine : MatchingEngine.t) (d : random.draws)
    (o : Order.t) :
  (0 < Order.quantity o)%Z ->
  (random.random1 d < 0.02 ->
     MatchingEngine.simulate_execution engine d o
     = (o, Raise (ExecutionError "Simulated execution failure (2% chance)")))
  /\ (0.02 <= random.random1 d -> random.random2 d < 0.95 ->
        MatchingEngine.simulate_execution engine d o
        = (Order.mark_filled o (Order.quantity o) (slipped_price engine d o),
           Return (reported_price engine d o, Order.quantity o)))
  /\ (0.02 <= random.random1 d -> 0.95 <= random.random2 d ->
      random.random3 d < 0.04 -> (2 <= Order.quantity o)%Z ->
        exists k, (1 <= k <= Order.quantity o - 1)%Z
          /\ MatchingEngine.simulate_execution engine d o
             = (Order.mark_filled o k (slipped_price engine d o),
                Return (reported_price engine d o, k)))
  /\ (0.02 <= random.random1 d -> 0.95 <= random.random2 d ->
      0.04 <= random.random3 d ->
        MatchingEngine.simulate_execution engine d o
        = (Order.mark_rejected o "Canceled/No liquidity.", Return (0.0, 0%Z))).
Proof.
  intros Hq. unfold MatchingEngine.simulate_execution. repeat split.
  - intros H1. apply Qltb_true in H1. now rewrite H1.
  - intros H1 H2. apply Qltb_false in H1. apply Qltb_true in H2.
    rewrite H1, H2. now apply fill_positive.
  - intros H1 H2 H3 Hq2.
    apply Qltb_false in H1. apply Qltb_false in H2. apply Qltb_true in H3.
    rewrite H1, H2, H3.
    destruct (randint_range 1 (Order.quantity o - 1) (random.randint_raw d))
      as (k & -> & Hk); [lia|].
    exists k. split; [exact Hk|]. apply fill_positive. lia.
  - intros H1 H2 H3.
    apply Qltb_false in H1. apply Qltb_false in H2. apply Qltb_false in H3.
    now rewrite H1, H2, H3.
Qed.

Lemma simulate_execution_outcomes_witness :
  MatchingEngine.simulate_execution (MatchingEngine.init 0.0001) failure_draws
    (sample_order BUY 10 100)
  = (sample_order BUY 10 100,
     Raise (ExecutionError "Simulated execution failure (2% chance)"))
  /\ MatchingEngine.simulate_execution (MatchingEngine.init 0.0001) full_fill_draws
       (sample_order BUY 10 100)
     = (Order.mark_filled (sample_order BUY 10 100) 10
          (slipped_price (MatchingEngine.init 0.0001) full_fill_draws
             (sample_order BUY 10 100)),
        Return (reported_price (MatchingEngine.init 0.0001) full_fill_draws
                  (sample_order BUY 10 100), 10%Z))
  /\ (exists k, (1 <= k <= 10 - 1)%Z
        /\ MatchingEngine.simulate_execution (MatchingEngine.init 0.0001)
             (partial_fill_draws 3) (sample_order BUY 10 100)
           = (Order.mark_filled (sample_order BUY 10 100) k
                (slipped_price (MatchingEngine.init 0.0001) (partial_fill_draws 3)
                   (sample_order BUY 10 100)),
              Return (reported_price (MatchingEngine.init 0.0001)
                        (partial_fill_draws 3) (sample_order BUY 10 100), k)))
  /\ MatchingEngine.simulate_execution (MatchingEngine.init 0.0001) no_liquidity_draws
       (sample_order BUY 10 100)
     = (Order.mark_rejected (sample_order BUY 10 100) "Canceled/No liquidity.",
        Return (0.0, 0%Z)).
Proof.
  pose proof (fun d => simulate_execution_outcomes (MatchingEngine.init 0.0001) d
                         (sample_order BUY 10 100) eq_refl) as T.
  repeat apply conj.
  - apply (proj1 (T failure_draws)). by_evaluation.
  - apply (proj1 (proj2 (T full_fill_draws))); by_evaluation.
  - apply (proj1 (proj2 (proj2 (T (partial_fill_draws 3))))); by_evaluation.
  - apply (proj2 (proj2 (proj2 (T no_liquidity_draws)))); by_evaluation.
Defined.

(** Counterexample to C4 as stated: with the quantity 10 and the partial-fill
    branch selected, the filled quantity can be 1 (and 9), which is not
    strictly between 1 and 9; and with the quantity 1 the call ends in none of
    the four outcomes but in a [ValueError]. *)
Lemma partial_fill_bounds_inclusive :
  (exists p,
     snd (MatchingEngine.simulate_execution (MatchingEngine.init 0.0001)
            (partial_fill_draws 0) (sample_order BUY 10 100))
     = Return (p, 1%Z))
  /\ (exists p,
        snd (MatchingEngine.simulate_execution (MatchingEngine.init 0.0001)
               (partial_fill_draws 8) (sample_order BUY 10 100))
        = Return (p, 9%Z))
  /\ ~ (1 < 1 < 10 - 1)%Z /\ ~ (1 < 9 < 10 - 1)%Z
  /\ MatchingEngine.simulate_execution (MatchingEngine.init 0.0001)
       (partial_fill_draws 0) (sample_order BUY 1 100)
     = (sample_order BUY 1 100, Raise (ValueError "empty range in randrange(1, 1)")).
Proof.
  repeat apply conj.
  - eexists. vm_compute. reflexivity.
  - eexists. vm_compute. reflexivity.
  - lia.
  - lia.
  - vm_compute. reflexivity.
Qed.

(** ** Filled quantity and status *)

Lemma mark_filled_all_spec (fills : list (Z * Q)) (o : Order.t) :
  Order.filled_quantity (mark_filled_all o fills)
  = (Order.filled_quantity o + total_filled fills)%Z
  /\ Order.quantity (mark_filled_all o fills) = Order.quantity o.
Proof.
  revert o. induction fills as [|f rest IH]; intros o; simpl.
  - split; [lia | reflexivity].
  - destruct (IH (Order.mark_filled o (fst f) (snd f))) as [E1 E2].
    unfold mark_filled_all in *. simpl. rewrite E1, E2. simpl. split; [lia | reflexivity].
Qed.

Lemma mark_filled_status (o : Order.t) (k : Z) (p : Q) :
  let o' := Order.mark_filled o k p in
  (Order.status o' = FILLED <-> Order.filled_quantity o' = Order.quantity o')
  /\ (Order.filled_quantity o' <> Order.quantity o' -> Order.status o' = PENDING).
Proof.
  simpl. destruct (Z.eqb_spec (Order.filled_quantity o + k) (Order.quantity o));
    split; try tauto; try (split; [discriminate | contradiction]).
Qed.

Lemma mark_filled_all_status (fills : list (Z * Q)) (o : Order.t) :
  fills <> [] ->
  let o' := mark_filled_all o fills in
  (Order.status o' = FILLED <-> Order.filled_quantity o' = Order.quantity o')
  /\ (Order.filled_quantity o' <> Order.quantity o' -> Order.status o' = PENDING).
Proof.
  intros Hne. destruct (exists_last Hne) as (front & f & ->).
  unfold mark_filled_all. rewrite fold_left_app. simpl.
  apply (mark_filled_status _ (fst f) (snd f)).
Qed.

Lemma simulate_execution_fresh (engine : MatchingEngine.t) (d : random.draws)
    (o : Order.t) :
  Order.status o = NEW -> Order.filled_quantity o = 0%Z -> (0 < Order.quantity o)%Z ->
  let o' := fst (MatchingEngine.simulate_execution engine d o) in
  Order.quantity o' = Order.quantity o
  /\ (0 <= Order.filled_quantity o' <= Order.quantity o')%Z
  /\ (Order.status o' = FILLED <-> Order.filled_quantity o' = Order.quantity o').
Proof.
  intros Hst Hf Hq. unfold MatchingEngine.simulate_execution.
  assert (Hnew : Order.quantity o = Order.quantity o
                 /\ (0 <= Order.filled_quantity o <= Order.quantity o)%Z
                 /\ (Order.status o = FILLED <-> Order.filled_quantity o = Order.quantity o)).
  { rewrite Hst, Hf. repeat split; try lia; discriminate. }
  destruct (Qltb (random.random1 d) 0.02); [exact Hnew|].
  destruct (Qltb (random.random2 d) 0.95).
  - rewrite fill_positive by exact Hq. simpl. rewrite Hf.
    destruct (Z.eqb_spec (0 + Order.quantity o) (Order.quantity o)); [|lia].
    repeat split; lia.
  - destruct (Qltb (random.random3 d) 0.04).
    + unfold random.randint.
      destruct (Z.leb_spec 1 (Order.quantity o - 1)) as [Hle|Hgt]; [|exact Hnew].
      pose proof (Z.mod_pos_bound (random.randint_raw d) (Order.quantity o - 1 - 1 + 1)).
      rewrite fill_positive by lia. simpl. rewrite Hf.
      destruct (Z.eqb_spec
                  (0 + (1 + random.randint_raw d mod (Order.quantity o - 1 - 1 + 1)))
                  (Order.quantity o)); [lia|].
      repeat split; try lia; discriminate.
    + simpl. rewrite Hf. repeat split; try lia; discriminate.
Qed.

(** C5 (amended): fills accumulate in [filled_quantity], and after every
    non-empty sequence of fills the status is FILLED if and only if
    [filled_quantity == quantity], and PENDING otherwise.  An order as the
    pipeline creates it (NEW, nothing filled, positive quantity) has
    [0 <= filled_quantity <= quantity] after its one call of
    [simulate_execution], with status FILLED exactly when the two are
    equal. *)
Theorem filled_quantity_and_status (o : Order.t) (fills : list (Z * Q))
    (engine : MatchingEngine.t) (d : random.draws) :
  Order.filled_quantity (mark_filled_all o fills)
  = (Order.filled_quantity o + total_filled fills)%Z
  /\ (fills <> [] ->
      (Order.status (mark_filled_all o fills) = FILLED
       <-> Order.filled_quantity (mark_filled_all o fills)
           = Order.quantity (mark_filled_all o fills))
      /\ (Order.filled_quantity (mark_filled_all o fills)
          <> Order.quantity (mark_filled_all o fills) ->
          Order.status (mark_filled_all o fills) = PENDING))
  /\ (Order.status o = NEW -> Order.filled_quantity o = 0%Z ->
      (0 < Order.quantity o)%Z ->
      let o' := fst (MatchingEngine.simulate_execution engine d o) in
      (0 <= Order.filled_quantity o' <= Order.quantity o')%Z
      /\ (Order.status o' = FILLED <-> Order.filled_quantity o' = Order.quantity o')).
Proof.
  split; [apply mark_filled_all_spec|]. split.
  - intros Hne. now apply mark_filled_all_status.
  - intros Hst Hf Hq. now apply simulate_execution_fresh.
Qed.

Lemma filled_quantity_and_status_witness :
  ((Order.status (mark_filled_all (sample_order BUY 10 100) [(4%Z, 100); (6%Z, 101)])
    = FILLED
    <-> Order.filled_quantity
          (mark_filled_all (sample_order BUY 10 100) [(4%Z, 100); (6%Z, 101)])
        = Order.quantity
            (mark_filled_all (sample_order BUY 10 100) [(4%Z, 100); (6%Z, 101)])))
  /\ (0 <= Order.filled_quantity
             (fst (MatchingEngine.simulate_execution (MatchingEngine.init 0.0001)
                     (partial_fill_draws 3) (sample_order BUY 10 100)))
        <= Order.quantity
             (fst (MatchingEngine.simulate_execution (MatchingEngine.init 0.0001)
                     (partial_fill_draws 3) (sample_order BUY 10 100))))%Z.
Proof.
  split.
  - apply (proj1 (proj2 (filled_quantity_and_status (sample_order BUY 10 100)
                           [(4%Z, 100); (6%Z, 101)] (MatchingEngine.init 0.0001)
                           full_fill_draws))).
    intros H. discriminate H.
  - apply (proj2 (proj2 (filled_quantity_and_status (sample_order BUY 10 100) []
                           (MatchingEngine.init 0.0001) (partial_fill_draws 3))));
      by_evaluation.
Defined.

(** Counterexample to C5 as stated: an order of 10 shares is filled for 4 and
    stays PENDING; the additional fill that [simulate_execution] then makes is
    for the whole requested quantity, so [filled_quantity] becomes 14, above
    [quantity], and the order stays PENDING.  Likewise a second full fill
    takes a FILLED order to 20 shares and back to PENDING. *)
Lemma second_fill_exceeds_quantity :
  let engine := MatchingEngine.init 0.0001 in
  let o1 := fst (MatchingEngine.simulate_execution engine (partial_fill_draws 3)
                   (sample_order BUY 10 100)) in
  let o2 := fst (MatchingEngine.simulate_execution engine full_fill_draws o1) in
  let o1' := fst (MatchingEngine.simulate_execution engine full_fill_draws
                    (sample_order BUY 10 100)) in
  let o2' := fst (MatchingEngine.simulate_execution engine full_fill_draws o1') in
  Order.filled_quantity o1 = 4%Z /\ Order.status o1 = PENDING
  /\ Order.quantity o2 = 10%Z /\ Order.filled_quantity o2 = 14%Z
  /\ ~ (Order.filled_quantity o2 <= Order.quantity o2)%Z
  /\ Order.status o2 = PENDING
  /\ Order.filled_quantity o1' = 10%Z /\ Order.status o1' = FILLED
  /\ Order.quantity o2' = 10%Z /\ Order.filled_quantity o2' = 20%Z
  /\ Order.status o2' = PENDING.
Proof. repeat apply conj; by_evaluation. Qed.

(** ** The loop body, case by case *)

Lemma validate_order_true (now : Q) (om om1 : OrderManager.t) (o o1 : Order.t) :
  OrderManager.validate_order now om o = (true, om1, o1) -> o1 = o.
Proof.
  unfold OrderManager.validate_order.
  repeat match goal with
         | |- context [match ?x with _ => _ end] => destruct x
         end; intros H; inversion H; reflexivity.
Qed.

Lemma process_signal_unfold (cfg : Runner.Config) (engine : MatchingEngine.t)
    (tick : MarketDataPoint.t) (direction : Side) (env : Runner.Env)
    (w : Runner.World) :
  Runner.process_signal cfg engine tick direction env w
  = let o0 := Order.init (MarketDataPoint.symbol tick) (Runner.DEFAULT_QTY cfg)
                (MarketDataPoint.price tick) direction (Runner.clock_order_id env) in
    let '(ok, om1, o1) :=
      OrderManager.validate_order (Runner.clock_validate env) (Runner.order_manager w) o0 in
    if ok then
      match MatchingEngine.simulate_execution engine (Runner.rng env) o1 with
      | (o2, Return (fill_price, filled_qty)) =>
          if (filled_qty >? 0)%Z then
            let '(p', om2) :=
              Portfolio.update_from_fill (Runner.portfolio w) om1 o2 fill_price filled_qty in
            (Return tt,
             {| Runner.gateway := Gateway.log_order (Runner.clock_log env) (Runner.gateway w) o2;
                Runner.order_manager := om2;
                Runner.portfolio := p';
                Runner.order := Some o2 |})
          else
            (Return tt,
             {| Runner.gateway := Gateway.log_order (Runner.clock_log env) (Runner.gateway w) o2;
                Runner.order_manager := om1;
                Runner.portfolio := Runner.portfolio w;
                Runner.order := Some o2 |})
      | (o2, Raise e) =>
          let o3 := Order.mark_failed o2 (failure_reason e) in
          (Return tt,
           {| Runner.gateway := Gateway.log_order (Runner.clock_log env) (Runner.gateway w) o3;
              Runner.order_manager := om1;
              Runner.portfolio := Runner.portfolio w;
              Runner.order := Some o3 |})
      end
    else
      (Return tt,
       {| Runner.gateway := Gateway.log_order (Runner.clock_log env) (Runner.gateway w) o1;
          Runner.order_manager := om1;
          Runner.portfolio := Runner.portfolio w;
          Runner.order := Some o1 |}).
Proof.
  unfold Runner.process_signal, Runner.validate_order, Runner.simulate_execution,
    Runner.update_from_fill, Runner.log_order, Runner.mark_failed, Runner.the_order,
    Runner.get_order, Runner.bind, Runner.try_except, Runner.set_order, Runner.ret.
  cbn [Runner.order Runner.order_manager Runner.gateway Runner.portfolio].
  cbv zeta.
  destruct (OrderManager.validate_order _ _ _) as [[ok om1] o1].
  destruct ok; cbn [negb Runner.order Runner.order_manager Runner.gateway Runner.portfolio];
    [|reflexivity].
  destruct (MatchingEngine.simulate_execution _ _ _) as [o2 [[fill_price filled_qty]|e]];
    cbn [Runner.order Runner.order_manager Runner.gateway Runner.portfolio].
  - destruct (filled_qty >? 0)%Z;
      cbn [Runner.order Runner.order_manager Runner.gateway Runner.portfolio];
      [|reflexivity].
    destruct (Portfolio.update_from_fill _ _ _ _ _) as [p' om2]. reflexivity.
  - destruct e; reflexivity.
Qed.

(** ** Cash *)




Lemma validate_order_false (now : Q) (om om1 : OrderManager.t) (o o1 : Order.t) :
  OrderManager.validate_order now om o = (false, om1, o1) ->
  Order.status o1 = REJECTED.
Proof.
  unfold OrderManager.validate_order.
  repeat match goal with
         | |- context [match ?x with _ => _ end] => destruct x
         end; intros H; inversion H; reflexivity.
Qed.

Lemma simulate_execution_filled (engine : MatchingEngine.t) (d : random.draws)
    (o o2 : Order.t) (fill_price : Q) (filled_qty : Z) :
  MatchingEngine.simulate_execution engine d o = (o2, Return (fill_price, filled_qty)) ->
  (0 < filled_qty)%Z ->
  Order.status o2 = FILLED \/ Order.status o2 = PENDING.
Proof.
  unfold MatchingEngine.simulate_execution, MatchingEngine.fill.
  intros H Hk.
  assert (Hm : forall k p, Order.status (Order.mark_filled o k p) = FILLED
                           \/ Order.status (Order.mark_filled o k p) = PENDING)
    by (intros k p; simpl; destruct (_ =? _)%Z; tauto).
  repeat match type of H with
         | context [if ?c then _ else _] => destruct c eqn:?
         | context [match ?x with Return _ => _ | Raise _ => _ end] => destruct x eqn:?
         end; inversion H; subst; try apply Hm; try lia.
Qed.





(** ** Fault isolation *)

Lemma process_signal_returns (cfg : Runner.Config) (engine : MatchingEngine.t)
    (tick : MarketDataPoint.t) (direction : Side) (env : Runner.Env)
    (w : Runner.World) :
  exists w',
    Runner.process_signal cfg engine tick direction env w = (Return tt, w')
    /\ length (Runner.gateway w') = S (length (Runner.gateway w))
    /\ Portfolio.trades (Runner.portfolio w') = Portfolio.trades (Runner.portfolio w).
Proof.
  rewrite process_signal_unfold. cbv zeta.
  assert (Hlog : forall now g o, length (Gateway.log_order now g o) = S (length g))
    by (intros; unfold Gateway.log_order; rewrite length_app; simpl; lia).
  destruct (OrderManager.validate_order _ _ _) as [[ok om1] o1].
  destruct ok.
  - destruct (MatchingEngine.simulate_execution _ _ _)
      as [o2 [[fill_price filled_qty]|e]].
    + destruct (filled_qty >? 0)%Z.
      * destruct (Portfolio.update_from_fill _ _ _ _ _) as [p' om2] eqn:Hu.
        eexists. split; [reflexivity|]. cbn [Runner.gateway Runner.portfolio].
        split; [apply Hlog|].
        change p' with (fst (p', om2)). rewrite <- Hu. reflexivity.
      * eexists. split; [reflexivity|]. split; [apply Hlog | reflexivity].
    + eexists. split; [reflexivity|]. split; [apply Hlog | reflexivity].
  - eexists. split; [reflexivity|]. split; [apply Hlog | reflexivity].
Qed.

Lemma process_signals_returns (cfg : Runner.Config) (engine : MatchingEngine.t)
    (tick : MarketDataPoint.t) (all_signals : list (Side * Runner.Env))
    (w : Runner.World) :
  exists w',
    Runner.process_signals cfg engine tick all_signals w = (Return tt, w')
    /\ length (Runner.gateway w') = (length (Runner.gateway w) + length all_signals)%nat
    /\ Portfolio.trades (Runner.portfolio w') = Portfolio.trades (Runner.portfolio w).
Proof.
  revert w. induction all_signals as [|[direction env] rest IH]; intros w.
  - exists w. simpl. repeat split. lia.
  - destruct (process_signal_returns cfg engine tick direction env w)
      as (w1 & E1 & L1 & T1).
    destruct (IH w1) as (w2 & E2 & L2 & T2).
    exists w2. simpl. unfold Runner.bind. rewrite E1, E2.
    repeat split; [lia | congruence].
Qed.

Lemma simulation_loop_returns (cfg : Runner.Config) (engine : MatchingEngine.t)
    (ticks : list (MarketDataPoint.t * list (Side * Runner.Env)))
    (w : Runner.World) :
  exists w',
    Runner.simulation_loop cfg engine ticks w = (Return tt, w')
    /\ length (Runner.gateway w') = (length (Runner.gateway w) + signals_count ticks)%nat
    /\ length (Portfolio.trades (Runner.portfolio w'))
       = (length (Portfolio.trades (Runner.portfolio w)) + length ticks)%nat.
Proof.
  revert w. induction ticks as [|[tick all_signals] rest IH]; intros w.
  - exists w. simpl. repeat split; lia.
  - destruct (process_signals_returns cfg engine tick all_signals w)
      as (w1 & E1 & L1 & T1).
    destruct (Runner.record_equity tick w1) as [r w2] eqn:E2.
    assert (r = Return tt /\ Runner.gateway w2 = Runner.gateway w1
            /\ length (Portfolio.trades (Runner.portfolio w2))
               = S (length (Portfolio.trades (Runner.portfolio w1)))) as (-> & G2 & T2).
    { unfold Runner.record_equity in E2. injection E2 as <- <-.
      cbn [Runner.gateway Runner.portfolio Portfolio.append_trade Portfolio.trades].
      rewrite length_app. simpl. repeat split. lia. }
    destruct (IH w2) as (w3 & E3 & L3 & T3).
    exists w3. simpl. unfold Runner.process_tick, Runner.bind.
    rewrite E1, E2, E3. split; [reflexivity|]. split.
    + rewrite L3, G2, L1. simpl. lia.
    + rewrite T3, T2, T1. lia.
Qed.

Lemma process_signal_raise (cfg : Runner.Config) (engine : MatchingEngine.t)
    (tick : MarketDataPoint.t) (direction : Side) (env : Runner.Env)
    (w : Runner.World) (om1 : OrderManager.t) (o1 o2 : Order.t) (e : exn) :
  OrderManager.validate_order (Runner.clock_validate env) (Runner.order_manager w)
    (Order.init (MarketDataPoint.symbol tick) (Runner.DEFAULT_QTY cfg)
       (MarketDataPoint.price tick) direction (Runner.clock_order_id env))
  = (true, om1, o1) ->
  MatchingEngine.simulate_execution engine (Runner.rng env) o1 = (o2, Raise e) ->
  Runner.process_signal cfg engine tick direction env w
  = (Return tt,
     {| Runner.gateway :=
          Gateway.log_order (Runner.clock_log env) (Runner.gateway w)
            (Order.mark_failed o2 (failure_reason e));
        Runner.order_manager := om1;
        Runner.portfolio := Runner.portfolio w;
        Runner.order := Some (Order.mark_failed o2 (failure_reason e)) |}).
Proof.
  intros Hv Hx. rewrite process_signal_unfold. cbv zeta. rewrite Hv, Hx. reflexivity.
Qed.



(** ** A partial fill of a single share *)

(** C10: for an order of quantity 1, when the draws select the partial-fill
    branch, [simulate_execution] raises the [ValueError] of the empty range
    [randint(1, 0)] and leaves the order untouched: neither an
    [ExecutionError] nor a cancellation.  In the loop, under a configuration
    whose default quantity is 1, the admitted order ends FAILED with the
    reason "Unknown Error: " followed by that message; it is logged, nothing
    is filled and the portfolio is unchanged. *)
Theorem single_share_partial_fill :
  (forall (engine : MatchingEngine.t) (d : random.draws) (o : Order.t),
      Order.quantity o = 1%Z ->
      0.02 <= random.random1 d -> 0.95 <= random.random2 d ->
      random.random3 d < 0.04 ->
      MatchingEngine.simulate_execution engine d o
      = (o, Raise (ValueError "empty range in randrange(1, 1)")))
  /\ (forall (cfg : Runner.Config) (engine : MatchingEngine.t)
        (tick : MarketDataPoint.t) (direction : Side) (env : Runner.Env)
        (w : Runner.World) (om1 : OrderManager.t) (o1 : Order.t),
        Runner.DEFAULT_QTY cfg = 1%Z ->
        OrderManager.validate_order (Runner.clock_validate env) (Runner.order_manager w)
          (Order.init (MarketDataPoint.symbol tick) (Runner.DEFAULT_QTY cfg)
             (MarketDataPoint.price tick) direction (Runner.clock_order_id env))
        = (true, om1, o1) ->
        0.02 <= random.random1 (Runner.rng env) ->
        0.95 <= random.random2 (Runner.rng env) ->
        random.random3 (Runner.rng env) < 0.04 ->
        let failed :=
          Order.mark_failed o1 "Unknown Error: empty range in randrange(1, 1)" in
        Runner.process_signal cfg engine tick direction env w
        = (Return tt,
           {| Runner.gateway :=
                Gateway.log_order (Runner.clock_log env) (Runner.gateway w) failed;
              Runner.order_manager := om1;
              Runner.portfolio := Runner.portfolio w;
              Runner.order := Some failed |})
        /\ Order.status failed = FAILED
        /\ Order.filled_quantity failed = 0%Z).
Proof.
  assert (Hsim : forall engine d o,
             Order.quantity o = 1%Z ->
             0.02 <= random.random1 d -> 0.95 <= random.random2 d ->
             random.random3 d < 0.04 ->
             MatchingEngine.simulate_execution engine d o
             = (o, Raise (ValueError "empty range in randrange(1, 1)"))).
  { intros engine d o Hq H1 H2 H3. unfold MatchingEngine.simulate_execution.
    apply Qltb_false in H1. apply Qltb_false in H2. apply Qltb_true in H3.
    rewrite H1, H2, H3, Hq. reflexivity. }
  split; [exact Hsim|].
  intros cfg engine tick direction env w om1 o1 Hq Hv H1 H2 H3 failed.
  pose proof (validate_order_true _ _ _ _ _ Hv) as ->.
  split; [|split; reflexivity].
  assert (Hx := Hsim engine (Runner.rng env)
                  (Order.init (MarketDataPoint.symbol tick) (Runner.DEFAULT_QTY cfg)
                     (MarketDataPoint.price tick) direction (Runner.clock_order_id env))
                  Hq H1 H2 H3).
  rewrite (process_signal_raise cfg engine tick direction env w om1 _ _ _ Hv Hx).
  reflexivity.
Qed.

Lemma single_share_partial_fill_witness :
  MatchingEngine.simulate_execution (MatchingEngine.init 0.0001) (partial_fill_draws 0)
    (sample_order BUY 1 100)
  = (sample_order BUY 1 100, Raise (ValueError "empty range in randrange(1, 1)"))
  /\ (let w := Runner.initial_world single_share_config in
      let failed :=
        Order.mark_failed (Order.init "AAPL" 1 100 BUY 1)
          "Unknown Error: empty range in randrange(1, 1)" in
      Runner.process_signal single_share_config (MatchingEngine.init 0.0001)
        (sample_tick 0 100) BUY (sample_env 1 (partial_fill_draws 0)) w
      = (Return tt,
         {| Runner.gateway := Gateway.log_order 1 (Runner.gateway w) failed;
            Runner.order_manager :=
              OrderManager.set_orders_timestamps (Runner.order_manager w) [1];
            Runner.portfolio := Runner.portfolio w;
            Runner.order := Some failed |})).
Proof.
  split.
  - apply (proj1 single_share_partial_fill); by_evaluation.
  - intros w failed.
    apply (proj2 single_share_partial_fill single_share_config
             (MatchingEngine.init 0.0001) (sample_tick 0 100) BUY
             (sample_env 1 (partial_fill_draws 0)) w
             (OrderManager.set_orders_timestamps (Runner.order_manager w) [1])
             (Order.init "AAPL" 1 100 BUY 1)); by_evaluation.
Defined.

(** * Further properties of the code *)

(** ** What [validate_order] leaves alone *)

Lemma validate_order_true_inv (now : Q) (om om1 : OrderManager.t) (o o1 : Order.t) :
  OrderManager.validate_order now om o = (true, om1, o1) ->
  structural_ok o /\ capital_ok om o /\ rate_ok now om /\ position_ok om o
  /\ om1 = OrderManager.set_orders_timestamps om (window now om ++ [now])
  /\ o1 = o.
Proof.
  intros H. unfold OrderManager.validate_order, Order.validate in H.
  destruct (Z.leb_spec (Order.quantity o) 0) as [?|Hq]; [discriminate H|].
  destruct (Qle_bool (Order.price o) 0) eqn:Hp; [discriminate H|].
  apply Qle_bool_false in Hp.
  destruct (is_BUY (Order.side o) && Qltb (OrderManager.capital om) _) eqn:Hc;
    [discriminate H|].
  cbn [OrderManager.MAX_ORDERS_PER_MIN OrderManager.set_orders_timestamps
       OrderManager.positions OrderManager.MAX_POSITION] in H.
  destruct (Z.geb_spec (Z.of_nat (length (OrderManager.popleft_expired now
                                             (OrderManager.orders_timestamps om))))
              (OrderManager.MAX_ORDERS_PER_MIN om)) as [?|Hr]; [discriminate H|].
  destruct (is_BUY (Order.side o) && Qltb (inject_Z (OrderManager.MAX_POSITION om)) _)
    eqn:Hb; [discriminate H|].
  destruct (is_SELL (Order.side o) && Qltb _ (- inject_Z (OrderManager.MAX_POSITION om)))
    eqn:Hs; [discriminate H|].
  injection H as <- <-.
  repeat split; try assumption; try reflexivity.
  - intros Hside. rewrite Hside in Hc. simpl in Hc. now apply Qltb_false in Hc.
  - unfold position_ok, current_pos. destruct (Order.side o); simpl in Hb, Hs.
    + now apply Qltb_false in Hb.
    + now apply Qltb_false in Hs.
Qed.

Lemma validate_order_effect (now : Q) (om : OrderManager.t) (o : Order.t) :
  let ok := fst (fst (OrderManager.validate_order now om o)) in
  let om1 := snd (fst (OrderManager.validate_order now om o)) in
  let o1 := snd (OrderManager.validate_order now om o) in
  OrderManager.capital om1 = OrderManager.capital om
  /\ OrderManager.positions om1 = OrderManager.positions om
  /\ OrderManager.MAX_ORDERS_PER_MIN om1 = OrderManager.MAX_ORDERS_PER_MIN om
  /\ OrderManager.MAX_POSITION om1 = OrderManager.MAX_POSITION om
  /\ (ok = false ->
      (exists dropped,
          OrderManager.orders_timestamps om
          = dropped ++ OrderManager.orders_timestamps om1)
      /\ Order.status o1 = REJECTED)
  /\ Order.symbol o1 = Order.symbol o /\ Order.side o1 = Order.side o
  /\ Order.quantity o1 = Order.quantity o /\ Order.price o1 = Order.price o
  /\ Order.filled_quantity o1 = Order.filled_quantity o
  /\ Order.order_id o1 = Order.order_id o.
Proof.
  assert (Hdrop : forall ts, exists dropped,
             ts = dropped ++ OrderManager.popleft_expired now ts).
  { induction ts as [|t0 rest [d Hd]]; simpl.
    - exists []. reflexivity.
    - destruct (Qltb t0 (now - 60)).
      + exists (t0 :: d). simpl. now rewrite <- Hd.
      + exists []. reflexivity. }
  unfold OrderManager.validate_order.
  destruct (Order.validate o);
    repeat match goal with
           | |- context [if ?c then _ else _] => destruct c
           end; cbn; repeat split; try discriminate; try apply Hdrop;
    try (exists []; reflexivity).
Qed.

Lemma validate_order_window_length (now : Q) (om : OrderManager.t) (o : Order.t) :
  (Z.of_nat (length (OrderManager.orders_timestamps om))
   <= OrderManager.MAX_ORDERS_PER_MIN om)%Z ->
  (Z.of_nat (length (OrderManager.orders_timestamps
                       (snd (fst (OrderManager.validate_order now om o)))))
   <= OrderManager.MAX_ORDERS_PER_MIN om)%Z.
Proof.
  intros H. pose proof (popleft_expired_length now (OrderManager.orders_timestamps om)).
  unfold OrderManager.validate_order.
  destruct (Order.validate o); [|exact H].
  destruct (_ && _); [exact H|].
  cbn [OrderManager.MAX_ORDERS_PER_MIN OrderManager.set_orders_timestamps
       OrderManager.positions OrderManager.MAX_POSITION].
  destruct (Z.geb_spec (Z.of_nat (length (OrderManager.popleft_expired now
                                             (OrderManager.orders_timestamps om))))
              (OrderManager.MAX_ORDERS_PER_MIN om)) as [?|Hr]; [simpl; lia|].
  repeat match goal with
         | |- context [if ?c then _ else _] => destruct c
         end; cbn [fst snd OrderManager.orders_timestamps
                   OrderManager.set_orders_timestamps]; try lia.
  rewrite length_app. simpl. lia.
Qed.

(** X1: whatever its verdict, [validate_order] changes in the manager nothing
    but the window, and in the order nothing but status and reason.  When the
    order is refused the window has only lost timestamps at its old end (no
    timestamp is recorded) and the order is REJECTED. *)
Theorem validate_order_frame (now : Q) (om : OrderManager.t) (o : Order.t) :
  let ok := fst (fst (OrderManager.validate_order now om o)) in
  let om1 := snd (fst (OrderManager.validate_order now om o)) in
  let o1 := snd (OrderManager.validate_order now om o) in
  OrderManager.capital om1 = OrderManager.capital om
  /\ OrderManager.positions om1 = OrderManager.positions om
  /\ OrderManager.MAX_ORDERS_PER_MIN om1 = OrderManager.MAX_ORDERS_PER_MIN om
  /\ OrderManager.MAX_POSITION om1 = OrderManager.MAX_POSITION om
  /\ (ok = false ->
      (exists dropped,
          OrderManager.orders_timestamps om
          = dropped ++ OrderManager.orders_timestamps om1)
      /\ Order.status o1 = REJECTED)
  /\ Order.symbol o1 = Order.symbol o /\ Order.side o1 = Order.side o
  /\ Order.quantity o1 = Order.quantity o /\ Order.price o1 = Order.price o
  /\ Order.filled_quantity o1 = Order.filled_quantity o
  /\ Order.order_id o1 = Order.order_id o
  /\ Order.order_type o1 = Order.order_type o.
Proof.
  assert (Hdrop : forall ts, exists dropped,
             ts = dropped ++ OrderManager.popleft_expired now ts).
  { induction ts as [|t0 rest [d Hd]]; simpl.
    - exists []. reflexivity.
    - destruct (Qltb t0 (now - 60)).
      + exists (t0 :: d). simpl. now rewrite <- Hd.
      + exists []. reflexivity. }
  unfold OrderManager.validate_order.
  destruct (Order.validate o);
    repeat match goal with
           | |- context [if ?c then _ else _] => destruct c
           end; cbn; repeat split; try discriminate; try apply Hdrop;
    try (exists []; reflexivity).
Qed.

Lemma validate_order_frame_witness :
  Order.status (snd (OrderManager.validate_order 1 (sample_manager 495)
                       (sample_order BUY 10 100))) = REJECTED.
Proof.
  apply (validate_order_frame 1 (sample_manager 495) (sample_order BUY 10 100)).
  vm_compute. reflexivity.
Defined.

(** X2: the window never grows beyond the ceiling: if it holds at most
    [MAX_ORDERS_PER_MIN] timestamps before a validation, it does so after. *)
Theorem window_within_ceiling (now : Q) (om : OrderManager.t) (o : Order.t) :
  (Z.of_nat (length (OrderManager.orders_timestamps om))
   <= OrderManager.MAX_ORDERS_PER_MIN om)%Z ->
  (Z.of_nat (length (OrderManager.orders_timestamps
                       (snd (fst (OrderManager.validate_order now om o)))))
   <= OrderManager.MAX_ORDERS_PER_MIN om)%Z.
Proof.
  intros H. pose proof (popleft_expired_length now (OrderManager.orders_timestamps om)).
  unfold OrderManager.validate_order.
  destruct (Order.validate o); [|exact H].
  destruct (_ && _); [exact H|].
  cbn [OrderManager.MAX_ORDERS_PER_MIN OrderManager.set_orders_timestamps
       OrderManager.positions OrderManager.MAX_POSITION].
  destruct (Z.geb_spec (Z.of_nat (length (OrderManager.popleft_expired now
                                             (OrderManager.orders_timestamps om))))
              (OrderManager.MAX_ORDERS_PER_MIN om)) as [?|Hr]; [simpl; lia|].
  repeat match goal with
         | |- context [if ?c then _ else _] => destruct c
         end; cbn [fst snd OrderManager.orders_timestamps
                   OrderManager.set_orders_timestamps]; try lia.
  rewrite length_app. simpl. lia.
Qed.

Lemma window_within_ceiling_witness :
  (Z.of_nat (length (OrderManager.orders_timestamps
                       (snd (fst (OrderManager.validate_order 1 (busy_manager 49 0)
                                    (sample_order BUY 10 100))))))
   <= OrderManager.MAX_ORDERS_PER_MIN (busy_manager 49 0))%Z.
Proof.
  apply (window_within_ceiling 1 (busy_manager 49 0) (sample_order BUY 10 100)).
  by_evaluation.
Defined.

(** ** Pruning under a monotone clock *)

Lemma popleft_expired_sorted (now : Q) (ts : list Q) :
  StronglySorted Qle ts ->
  StronglySorted Qle (OrderManager.popleft_expired now ts)
  /\ Forall (fun t => now - 60 <= t) (OrderManager.popleft_expired now ts)
  /\ (forall t, In t ts -> now - 60 <= t -> In t (OrderManager.popleft_expired now ts))
  /\ (forall t, In t (OrderManager.popleft_expired now ts) -> In t ts).
Proof.
  induction 1 as [|t0 rest Hs IH Hall]; simpl.
  - repeat split; try constructor; tauto.
  - destruct (Qltb t0 (now - 60)) eqn:E.
    + destruct IH as (I1 & I2 & I3 & I4). repeat split; try assumption.
      * intros t [<-|Hin] Ht; [|now apply I3].
        apply Qltb_true in E. exfalso. apply (Qlt_not_le _ _ E Ht).
      * intros t Hin. right. now apply I4.
    + apply Qltb_false in E. split; [|split; [|split]].
      * now constructor.
      * constructor; [exact E|].
        eapply Forall_impl; [exact Hall|]. intros t Ht. cbv beta in Ht.
        apply (Qle_trans _ t0); assumption.
      * intros t Hin _. exact Hin.
      * intros t Hin. exact Hin.
Qed.

(** X3: with a clock that never runs backwards (the window is sorted and no
    recorded timestamp is later than [now]) the window stays sorted and not
    later than [now] through a validation, and once the call has reached the
    rate-limit step no timestamp older than 60 seconds is left in it. *)
Theorem window_under_monotone_clock (now : Q) (om : OrderManager.t) (o : Order.t) :
  StronglySorted Qle (OrderManager.orders_timestamps om) ->
  Forall (fun t => t <= now) (OrderManager.orders_timestamps om) ->
  let om1 := snd (fst (OrderManager.validate_order now om o)) in
  StronglySorted Qle (OrderManager.orders_timestamps om1)
  /\ Forall (fun t => t <= now) (OrderManager.orders_timestamps om1)
  /\ (structural_ok o -> capital_ok om o ->
      Forall (fun t => now - 60 <= t) (OrderManager.orders_timestamps om1)).
Proof.
  intros Hs Hle.
  destruct (popleft_expired_sorted now _ Hs) as (P1 & P2 & _ & P4).
  assert (Hle' : Forall (fun t => t <= now)
                   (OrderManager.popleft_expired now (OrderManager.orders_timestamps om))).
  { apply List.Forall_forall. intros t Hin.
    apply (proj1 (List.Forall_forall _ _) Hle). now apply P4. }
  assert (Happ : StronglySorted Qle
                   (OrderManager.popleft_expired now (OrderManager.orders_timestamps om)
                    ++ [now])).
  { clear - P1 Hle'. induction P1 as [|t0 rest Hs IH Hall]; simpl.
    - repeat constructor.
    - constructor.
      + apply IH. now apply Forall_inv_tail in Hle'.
      + apply Forall_app. split; [exact Hall|].
        constructor; [|constructor]. now apply Forall_inv in Hle'. }
  assert (Hnow : Forall (fun t => t <= now)
                   (OrderManager.popleft_expired now (OrderManager.orders_timestamps om)
                    ++ [now])).
  { apply Forall_app. split; [exact Hle'|]. constructor; [apply Qle_refl | constructor]. }
  assert (Hfresh : Forall (fun t => now - 60 <= t)
                     (OrderManager.popleft_expired now (OrderManager.orders_timestamps om)
                      ++ [now])).
  { apply Forall_app. split; [exact P2|]. constructor; [lra | constructor]. }
  split; [|split].
  - unfold OrderManager.validate_order.
    destruct (Order.validate o);
      repeat match goal with
             | |- context [if ?c then _ else _] => destruct c
             end; cbn; assumption.
  - unfold OrderManager.validate_order.
    destruct (Order.validate o);
      repeat match goal with
             | |- context [if ?c then _ else _] => destruct c
             end; cbn; assumption.
  - intros Hst Hc. unfold OrderManager.validate_order.
    rewrite (validate_Return o Hst).
    pose proof (capital_check_passes om o Hc) as E. unfold cost in E. rewrite E.
    repeat match goal with
           | |- context [if ?c then _ else _] => destruct c
           end; cbn; assumption.
Qed.

Lemma window_under_monotone_clock_witness :
  Forall (fun t => 100 - 60 <= t)
    (OrderManager.orders_timestamps
       (snd (fst (OrderManager.validate_order 100 (busy_manager 3 0)
                    (sample_order BUY 10 100))))).
Proof.
  apply (window_under_monotone_clock 100 (busy_manager 3 0) (sample_order BUY 10 100)).
  - repeat constructor; by_evaluation.
  - repeat constructor; by_evaluation.
  - split; by_evaluation.
  - by_evaluation.
Defined.

(** ** What execution and accounting leave alone *)

Lemma simulate_execution_request (engine : MatchingEngine.t) (d : random.draws)
    (o : Order.t) :
  let o' := fst (MatchingEngine.simulate_execution engine d o) in
  Order.symbol o' = Order.symbol o /\ Order.side o' = Order.side o
  /\ Order.quantity o' = Order.quantity o /\ Order.price o' = Order.price o
  /\ Order.order_id o' = Order.order_id o.
Proof.
  unfold MatchingEngine.simulate_execution, MatchingEngine.fill.
  repeat match goal with
         | |- context [if ?c then _ else _] => destruct c
         | |- context [match ?x with Return _ => _ | Raise _ => _ end] => destruct x
         end; cbn; repeat split.
Qed.

Lemma simulate_execution_return_inv (engine : MatchingEngine.t) (d : random.draws)
    (o o2 : Order.t) (fill_price : Q) (k : Z) :
  MatchingEngine.simulate_execution engine d o = (o2, Return (fill_price, k)) ->
  (0 < Order.quantity o)%Z ->
  (k = 0%Z /\ o2 = Order.mark_rejected o "Canceled/No liquidity.")
  \/ ((1 <= k <= Order.quantity o)%Z
      /\ o2 = Order.mark_filled o k (slipped_price engine d o)
      /\ fill_price = reported_price engine d o).
Proof.
  intros H Hq. unfold MatchingEngine.simulate_execution in H.
  destruct (Qltb (random.random1 d) 0.02); [discriminate H|].
  destruct (Qltb (random.random2 d) 0.95).
  - rewrite fill_positive in H by exact Hq. injection H as <- <- <-.
    right. repeat split; lia.
  - destruct (Qltb (random.random3 d) 0.04).
    + unfold random.randint in H.
      destruct (Z.leb_spec 1 (Order.quantity o - 1)) as [Hle|Hgt]; [|discriminate H].
      pose proof (Z.mod_pos_bound (random.randint_raw d) (Order.quantity o - 1 - 1 + 1)).
      rewrite fill_positive in H by lia. injection H as <- <- <-.
      right. repeat split; lia.
    + injection H as <- <- <-. left. split; reflexivity.
Qed.

Lemma current_pos_held (p : Portfolio.t) (om : OrderManager.t) (o : Order.t) :
  mirror_ok p om ->
  current_pos om o = Portfolio.quantity (held p (Order.symbol o)).
Proof.
  intros Hm. unfold current_pos, held. rewrite (Hm (Order.symbol o)).
  now destruct (Portfolio.positions p !! Order.symbol o).
Qed.

Lemma update_from_fill_mirror (p : Portfolio.t) (om : OrderManager.t) (o : Order.t)
    (fill_price : Q) (k : Z) :
  Portfolio.om p = true -> mirror_ok p om ->
  mirror_ok (fst (Portfolio.update_from_fill p om o fill_price k))
            (snd (Portfolio.update_from_fill p om o fill_price k))
  /\ Portfolio.om (fst (Portfolio.update_from_fill p om o fill_price k)) = true.
Proof.
  intros Hom Hm. unfold Portfolio.update_from_fill.
  cbn [fst snd Portfolio.om Portfolio.positions]. rewrite Hom.
  split; [|reflexivity]. intros s.
  cbn [fst snd OrderManager.positions OrderManager.set_positions Portfolio.positions].
  destruct (decide (Order.symbol o = s)) as [<-|Hne].
  - rewrite !lookup_insert_eq. reflexivity.
  - rewrite !lookup_insert_ne by exact Hne. apply Hm.
Qed.

Lemma update_from_fill_manager (p : Portfolio.t) (om : OrderManager.t) (o : Order.t)
    (fill_price : Q) (k : Z) :
  let om' := snd (Portfolio.update_from_fill p om o fill_price k) in
  OrderManager.capital om' = OrderManager.capital om
  /\ OrderManager.orders_timestamps om' = OrderManager.orders_timestamps om
  /\ OrderManager.MAX_ORDERS_PER_MIN om' = OrderManager.MAX_ORDERS_PER_MIN om
  /\ OrderManager.MAX_POSITION om' = OrderManager.MAX_POSITION om.
Proof.
  unfold Portfolio.update_from_fill. cbn [snd Portfolio.om].
  destruct (Portfolio.om p); repeat split.
Qed.

Lemma update_from_fill_bounded (p : Portfolio.t) (om : OrderManager.t) (o : Order.t)
    (fill_price : Q) (k : Z) :
  Portfolio.om p = true -> mirror_ok p om ->
  (0 <= OrderManager.MAX_POSITION om)%Z ->
  positions_bounded om -> position_ok om o ->
  (1 <= k <= Order.quantity o)%Z ->
  positions_bounded (snd (Portfolio.update_from_fill p om o fill_price k)).
Proof.
  intros Hom Hm HM Hb Hp Hk s q.
  pose proof (current_pos_held p om o Hm) as Hcur.
  unfold Portfolio.update_from_fill. cbn [snd Portfolio.om]. rewrite Hom.
  cbn [OrderManager.positions OrderManager.set_positions OrderManager.MAX_POSITION].
  fold (held p (Order.symbol o)). rewrite <- Hcur.
  assert (Hcb : - inject_Z (OrderManager.MAX_POSITION om) <= current_pos om o
                /\ current_pos om o <= inject_Z (OrderManager.MAX_POSITION om)).
  { unfold current_pos.
    destruct (OrderManager.positions om !! Order.symbol o) as [c|] eqn:E; simpl.
    - now apply (Hb (Order.symbol o)).
    - assert (0 <= inject_Z (OrderManager.MAX_POSITION om))
        by (change 0 with (inject_Z 0); now rewrite <- Zle_Qle).
      split; [|lra].
      apply (Qle_trans _ 0); [lra | by_evaluation]. }
  assert (Hk1 : 0 < inject_Z k)
    by (change 0 with (inject_Z 0); rewrite <- Zlt_Qlt; lia).
  assert (Hk2 : inject_Z k <= inject_Z (Order.quantity o))
    by (rewrite <- Zle_Qle; lia).
  destruct (decide (Order.symbol o = s)) as [<-|Hne].
  - rewrite lookup_insert_eq. intros [= <-].
    unfold position_ok in Hp. destruct (Order.side o); simpl; lra.
  - rewrite lookup_insert_ne by exact Hne. apply Hb.
Qed.

(** ** Invariants of the simulation loop *)

Ltac signal_cases Hv Hx Hk Hu :=
  rewrite process_signal_unfold; cbv zeta;
  destruct (OrderManager.validate_order _ _ _) as [[?ok ?om1] ?o1] eqn:Hv;
  match goal with
  | |- context [if ?b then _ else _] => destruct b
  end;
  [ destruct (MatchingEngine.simulate_execution _ _ _)
      as [?o2 [[?fill_price ?k]|?e]] eqn:Hx;
    [ match goal with
      | |- context [(?k >? 0)%Z] => destruct (Z.gtb_spec k 0) as [Hk|Hk]
      end;
      [ destruct (Portfolio.update_from_fill _ _ _ _ _) as [?p' ?om2] eqn:Hu | ]
    | ]
  | ].

Lemma simulation_loop_invariant (I : Runner.World -> Prop) (cfg : Runner.Config)
    (engine : MatchingEngine.t) :
  (forall tick direction env w,
      I w -> I (snd (Runner.process_signal cfg engine tick direction env w))) ->
  (forall tick w, I w -> I (snd (Runner.record_equity tick w))) ->
  forall ticks w, I w -> I (snd (Runner.simulation_loop cfg engine ticks w)).
Proof.
  intros Hsig Heq.
  assert (Hsigs : forall tick sigs w,
             I w -> I (snd (Runner.process_signals cfg engine tick sigs w))).
  { intros tick sigs. induction sigs as [|[direction env] rest IH]; intros w Hw.
    - exact Hw.
    - simpl. unfold Runner.bind.
      destruct (process_signal_returns cfg engine tick direction env w)
        as (w1 & E1 & _).
      pose proof (Hsig tick direction env w Hw) as H1. rewrite E1 in *.
      simpl in H1. now apply IH. }
  induction ticks as [|[tick sigs] rest IH]; intros w Hw.
  - exact Hw.
  - simpl. unfold Runner.process_tick, Runner.bind.
    destruct (process_signals_returns cfg engine tick sigs w) as (w1 & E1 & _).
    pose proof (Hsigs tick sigs w Hw) as H1. rewrite E1 in *. simpl in H1.
    pose proof (Heq tick w1 H1) as H2.
    unfold Runner.record_equity in *. simpl in H2. now apply IH.
Qed.

Lemma process_signal_ledger (cfg : Runner.Config) (engine : MatchingEngine.t)
    (tick : MarketDataPoint.t) (direction : Side) (env : Runner.Env)
    (w : Runner.World) :
  ledger_ok w ->
  ledger_ok (snd (Runner.process_signal cfg engine tick direction env w)).
Proof.
  intros (Hom & Hm & HM & Hb).
  pose proof (validate_order_effect (Runner.clock_validate env) (Runner.order_manager w)
                (Order.init (MarketDataPoint.symbol tick) (Runner.DEFAULT_QTY cfg)
                   (MarketDataPoint.price tick) direction (Runner.clock_order_id env)))
    as F.
  signal_cases Hv Hx Hk Hu; cbn [fst snd] in F;
    destruct F as (_ & Fp & _ & FM & _);
    assert (Hm1 : mirror_ok (Runner.portfolio w) om1)
      by (intros s; rewrite Fp; apply Hm);
    assert (Hb1 : positions_bounded om1)
      by (intros s q; rewrite Fp, FM; apply Hb);
    assert (HM1 : (0 <= OrderManager.MAX_POSITION om1)%Z) by (rewrite FM; exact HM);
    unfold ledger_ok; cbn [snd Runner.portfolio Runner.order_manager];
    try (split; [|split; [|split]]; assumption).
  (* the filled case *)
  destruct (validate_order_true_inv _ _ _ _ _ Hv) as ((Hq & _) & _ & _ & Hp & _ & ->).
  destruct (simulate_execution_return_inv _ _ _ _ _ _ Hx Hq)
    as [[-> _]|(Hk' & -> & _)]; [lia|].
  match type of Hu with
  | Portfolio.update_from_fill _ _ ?o _ _ = _ => set (filled := o) in *
  end.
  assert (Hp1 : position_ok om1 filled).
  { unfold position_ok, current_pos in *. subst filled.
    cbn [Order.side Order.symbol Order.quantity Order.mark_filled Order.init] in *.
    rewrite Fp, FM. exact Hp. }
  pose proof (update_from_fill_mirror (Runner.portfolio w) om1 filled fill_price k
                Hom Hm1) as [M1 M2].
  pose proof (update_from_fill_bounded (Runner.portfolio w) om1 filled fill_price k
                Hom Hm1 HM1 Hb1 Hp1 Hk') as B1.
  pose proof (update_from_fill_manager (Runner.portfolio w) om1 filled fill_price k)
    as (_ & _ & _ & U4).
  rewrite Hu in M1, M2, B1, U4. cbn [fst snd] in M1, M2, B1, U4.
  split; [|split; [|split]]; try assumption. rewrite U4. exact HM1.
Qed.

Lemma record_equity_ledger (tick : MarketDataPoint.t) (w : Runner.World) :
  ledger_ok w -> ledger_ok (snd (Runner.record_equity tick w)).
Proof. intros H. exact H. Qed.

Lemma initial_world_ledger (cfg : Runner.Config) :
  ledger_ok (Runner.initial_world cfg).
Proof.
  split; [reflexivity|]. split; [|split].
  - intros s. cbn. rewrite !lookup_empty. reflexivity.
  - cbn. lia.
  - intros s q H. cbn in H. rewrite lookup_empty in H. discriminate H.
Qed.

Lemma run_ledger (cfg : Runner.Config)
    (ticks : list (MarketDataPoint.t * list (Side * Runner.Env))) :
  ledger_ok (snd (Runner.run_backtest_simulation cfg ticks)).
Proof.
  unfold Runner.run_backtest_simulation.
  apply (simulation_loop_invariant ledger_ok).
  - intros. now apply process_signal_ledger.
  - intros. now apply record_equity_ledger.
  - apply initial_world_ledger.
Qed.

(** X4: at the end of every run the manager's position mirror agrees with the
    portfolio, symbol by symbol: a symbol is in the one exactly when it is in
    the other, with the same quantity. *)
Theorem mirror_follows_portfolio (cfg : Runner.Config)
    (ticks : list (MarketDataPoint.t * list (Side * Runner.Env))) (s : string) :
  let w := snd (Runner.run_backtest_simulation cfg ticks) in
  OrderManager.positions (Runner.order_manager w) !! s
  = Portfolio.quantity <$> (Portfolio.positions (Runner.portfolio w) !! s).
Proof.
  intros w. destruct (run_ledger cfg ticks) as (_ & Hm & _). apply Hm.
Qed.

(** X5: at the end of every run every position, in the manager's mirror and
    in the portfolio, lies between -500 and 500 shares. *)
Theorem positions_stay_within_bound (cfg : Runner.Config)
    (ticks : list (MarketDataPoint.t * list (Side * Runner.Env))) (s : string) :
  let w := snd (Runner.run_backtest_simulation cfg ticks) in
  (forall q, OrderManager.positions (Runner.order_manager w) !! s = Some q ->
             -500 <= q /\ q <= 500)
  /\ (forall pos, Portfolio.positions (Runner.portfolio w) !! s = Some pos ->
                  -500 <= Portfolio.quantity pos /\ Portfolio.quantity pos <= 500).
Proof.
  intros w. destruct (run_ledger cfg ticks) as (_ & Hm & _ & Hb). fold w in Hm, Hb.
  assert (HM : OrderManager.MAX_POSITION (Runner.order_manager w) = 500%Z).
  { subst w. unfold Runner.run_backtest_simulation.
    apply (simulation_loop_invariant
             (fun w => OrderManager.MAX_POSITION (Runner.order_manager w) = 500%Z)).
    - intros tick direction env w0 H0.
      pose proof (validate_order_effect (Runner.clock_validate env)
                    (Runner.order_manager w0)
                    (Order.init (MarketDataPoint.symbol tick) (Runner.DEFAULT_QTY cfg)
                       (MarketDataPoint.price tick) direction
                       (Runner.clock_order_id env))) as F.
      signal_cases Hv Hx Hk Hu; cbn [fst snd] in F; destruct F as (_ & _ & _ & FM & _);
        cbn [snd Runner.order_manager]; try congruence.
      pose proof (update_from_fill_manager (Runner.portfolio w0) om1 o2 fill_price k)
        as (_ & _ & _ & U4).
      rewrite Hu in U4. cbn [snd] in U4. congruence.
    - intros tick w0 H0. exact H0.
    - reflexivity. }
  assert (Hq : forall q, OrderManager.positions (Runner.order_manager w) !! s = Some q ->
                         -500 <= q /\ q <= 500).
  { intros q Hq. specialize (Hb s q Hq). rewrite HM in Hb. exact Hb. }
  split; [exact Hq|].
  intros pos Hpos. apply Hq. rewrite (Hm s), Hpos. reflexivity.
Qed.

Lemma process_signal_settings (capital : Q) (cfg : Runner.Config)
    (engine : MatchingEngine.t) (tick : MarketDataPoint.t) (direction : Side)
    (env : Runner.Env) (w : Runner.World) :
  manager_settings capital w ->
  manager_settings capital
    (snd (Runner.process_signal cfg engine tick direction env w)).
Proof.
  intros (Hc & Hmax & Hpos & Hlen).
  pose proof (validate_order_effect (Runner.clock_validate env) (Runner.order_manager w)
                (Order.init (MarketDataPoint.symbol tick) (Runner.DEFAULT_QTY cfg)
                   (MarketDataPoint.price tick) direction (Runner.clock_order_id env)))
    as F.
  pose proof (validate_order_window_length (Runner.clock_validate env) (Runner.order_manager w)
                (Order.init (MarketDataPoint.symbol tick) (Runner.DEFAULT_QTY cfg)
                   (MarketDataPoint.price tick) direction (Runner.clock_order_id env)))
    as W.
  rewrite Hmax in W.
  signal_cases Hv Hx Hk Hu; cbn [fst snd] in F, W;
    destruct F as (Fc & _ & Fo & FM & _);
    unfold manager_settings; cbn [snd Runner.order_manager];
    try (repeat split; try congruence; lia).
  pose proof (update_from_fill_manager (Runner.portfolio w) om1 o2 fill_price k)
    as (U1 & U2 & U3 & U4).
  rewrite Hu in U1, U2, U3, U4. cbn [snd] in U1, U2, U3, U4.
  rewrite U1, U2, U3, U4. repeat split; try congruence; lia.
Qed.

(** X6: through a whole run the manager keeps the capital it was created
    with, whatever was bought or sold, its ceiling of 50 orders and its bound
    of 500 shares, and its window never holds more than 50 timestamps. *)
Theorem manager_settings_kept (cfg : Runner.Config)
    (ticks : list (MarketDataPoint.t * list (Side * Runner.Env))) :
  let om := Runner.order_manager (snd (Runner.run_backtest_simulation cfg ticks)) in
  OrderManager.capital om = Runner.INITIAL_CASH cfg
  /\ OrderManager.MAX_ORDERS_PER_MIN om = 50%Z
  /\ OrderManager.MAX_POSITION om = 500%Z
  /\ (length (OrderManager.orders_timestamps om) <= 50)%nat.
Proof.
  unfold Runner.run_backtest_simulation.
  apply (simulation_loop_invariant (manager_settings (Runner.INITIAL_CASH cfg))).
  - intros. now apply process_signal_settings.
  - intros tick w H. exact H.
  - repeat split. simpl. lia.
Qed.

(** ** The audit log and the equity curve *)

Lemma process_signal_log (cfg : Runner.Config) (engine : MatchingEngine.t)
    (tick : MarketDataPoint.t) (direction : Side) (env : Runner.Env)
    (w : Runner.World) :
  exists row,
    Runner.gateway (snd (Runner.process_signal cfg engine tick direction env w))
    = Runner.gateway w ++ [row]
    /\ row_request row
       = (MarketDataPoint.symbol tick, direction, Runner.DEFAULT_QTY cfg,
          MarketDataPoint.price tick)
    /\ logged_status (Gateway.row_status row)
    /\ Gateway.row_timestamp row = Runner.clock_log env
    /\ Gateway.row_order_id row = Runner.clock_order_id env.
Proof.
  pose proof (validate_order_effect (Runner.clock_validate env) (Runner.order_manager w)
                (Order.init (MarketDataPoint.symbol tick) (Runner.DEFAULT_QTY cfg)
                   (MarketDataPoint.price tick) direction (Runner.clock_order_id env)))
    as F.
  unfold logged_status, row_request.
  signal_cases Hv Hx Hk Hu; cbn [fst snd] in F;
    destruct F as (_ & _ & _ & _ & Frej & F1 & F2 & F3 & F4 & _ & F5);
    cbn [snd Runner.gateway]; unfold Gateway.log_order;
    (eexists; split; [reflexivity|]);
    cbn [Gateway.row_symbol Gateway.row_side Gateway.row_quantity Gateway.row_price
         Gateway.row_status Gateway.row_timestamp Gateway.row_order_id
         Order.symbol Order.side Order.quantity Order.price Order.status
         Order.order_id Order.mark_failed].
  - pose proof (simulate_execution_request engine (Runner.rng env) o1) as R.
    rewrite Hx in R. cbn [fst] in R. destruct R as (R1 & R2 & R3 & R4 & R5).
    rewrite R1, R2, R3, R4, R5, F1, F2, F3, F4, F5.
    repeat split; try reflexivity.
    destruct (simulate_execution_filled _ _ _ _ _ _ Hx) as [E|E]; [lia | |];
      rewrite E; tauto.
  - pose proof (simulate_execution_request engine (Runner.rng env) o1) as R.
    rewrite Hx in R. cbn [fst] in R. destruct R as (R1 & R2 & R3 & R4 & R5).
    rewrite R1, R2, R3, R4, R5, F1, F2, F3, F4, F5.
    repeat split; try reflexivity.
    destruct (validate_order_true_inv _ _ _ _ _ Hv) as ((Hq & _) & _ & _ & _ & _ & ->).
    destruct (simulate_execution_return_inv _ _ _ _ _ _ Hx Hq)
      as [[_ ->]|(Hk' & _)]; [|lia].
    simpl. tauto.
  - pose proof (simulate_execution_request engine (Runner.rng env) o1) as R.
    rewrite Hx in R. cbn [fst] in R. destruct R as (R1 & R2 & R3 & R4 & R5).
    rewrite R1, R2, R3, R4, R5, F1, F2, F3, F4, F5.
    repeat split; try reflexivity. tauto.
  - rewrite F1, F2, F3, F4, F5. repeat split; try reflexivity.
    destruct (Frej eq_refl) as [_ E]. rewrite E. tauto.
Qed.

Lemma process_signals_log (cfg : Runner.Config) (engine : MatchingEngine.t)
    (tick : MarketDataPoint.t) (sigs : list (Side * Runner.Env)) (w : Runner.World) :
  exists rows,
    Runner.gateway (snd (Runner.process_signals cfg engine tick sigs w))
    = Runner.gateway w ++ rows
    /\ map row_request rows
       = map (fun s => (MarketDataPoint.symbol tick, fst s, Runner.DEFAULT_QTY cfg,
                        MarketDataPoint.price tick)) sigs
    /\ Forall (fun r => logged_status (Gateway.row_status r)) rows
    /\ map Gateway.row_timestamp rows = map (fun s => Runner.clock_log (snd s)) sigs.
Proof.
  revert w. induction sigs as [|[direction env] rest IH]; intros w.
  - exists []. simpl. rewrite app_nil_r. repeat split. constructor.
  - destruct (process_signal_returns cfg engine tick direction env w) as (w1 & E1 & _).
    destruct (process_signal_log cfg engine tick direction env w)
      as (row & G & Rq & St & Ts & _).
    rewrite E1 in G. cbn [snd] in G.
    destruct (IH w1) as (rows & G' & Rq' & St' & Ts').
    exists (row :: rows). simpl. unfold Runner.bind. rewrite E1.
    rewrite G', G, <- app_assoc. simpl.
    repeat split; try congruence. now constructor.
Qed.

(** X7: the audit log is append-only and complete.  A run leaves the lines
    already in the log as they were and appends exactly one line per signal,
    in the order of the signals, each with the tick's symbol and price, the
    signal's side and the default quantity, and with one of the statuses
    FILLED, PENDING, REJECTED, FAILED (no order is logged NEW or CANCELED). *)
Theorem audit_log_complete (cfg : Runner.Config) (engine : MatchingEngine.t)
    (ticks : list (MarketDataPoint.t * list (Side * Runner.Env)))
    (w : Runner.World) :
  exists rows,
    Runner.gateway (snd (Runner.simulation_loop cfg engine ticks w))
    = Runner.gateway w ++ rows
    /\ map row_request rows = requests cfg ticks
    /\ Forall (fun r => logged_status (Gateway.row_status r)) rows.
Proof.
  revert w. induction ticks as [|[tick sigs] rest IH]; intros w.
  - exists []. simpl. rewrite app_nil_r. repeat split. constructor.
  - destruct (process_signals_returns cfg engine tick sigs w) as (w1 & E1 & _).
    destruct (process_signals_log cfg engine tick sigs w) as (rows1 & G1 & R1 & S1 & _).
    rewrite E1 in G1. cbn [snd] in G1.
    destruct (IH (snd (Runner.record_equity tick w1))) as (rows2 & G2 & R2 & S2).
    exists (rows1 ++ rows2). simpl.
    unfold Runner.process_tick, Runner.bind. rewrite E1.
    unfold Runner.record_equity in *. cbn [snd Runner.gateway] in G2.
    cbn [fst snd]. rewrite G2, G1, <- app_assoc.
    split; [reflexivity|]. split.
    + unfold requests in *. simpl. rewrite map_app, R1, R2. reflexivity.
    + apply Forall_app. split; assumption.
Qed.

Lemma process_signals_trades (cfg : Runner.Config) (engine : MatchingEngine.t)
    (tick : MarketDataPoint.t) (sigs : list (Side * Runner.Env)) (w : Runner.World) :
  Portfolio.trades (Runner.portfolio (snd (Runner.process_signals cfg engine tick sigs w)))
  = Portfolio.trades (Runner.portfolio w).
Proof.
  destruct (process_signals_returns cfg engine tick sigs w) as (w1 & E1 & _ & T).
  now rewrite E1.
Qed.

(** X8: the equity curve is append-only and has one sample per tick: a run
    keeps the samples it found and appends one per tick, in the order of the
    ticks, stamped with the tick's timestamp, whether or not the tick had
    signals. *)
Theorem equity_curve_follows_ticks (cfg : Runner.Config) (engine : MatchingEngine.t)
    (ticks : list (MarketDataPoint.t * list (Side * Runner.Env)))
    (w : Runner.World) :
  exists samples,
    Portfolio.trades (Runner.portfolio (snd (Runner.simulation_loop cfg engine ticks w)))
    = Portfolio.trades (Runner.portfolio w) ++ samples
    /\ map fst samples = map (fun t => MarketDataPoint.timestamp (fst t)) ticks.
Proof.
  revert w. induction ticks as [|[tick sigs] rest IH]; intros w.
  - exists []. simpl. now rewrite app_nil_r.
  - destruct (process_signals_returns cfg engine tick sigs w) as (w1 & E1 & _ & T1).
    destruct (IH (snd (Runner.record_equity tick w1))) as (samples & G & Ts).
    eexists (_ :: samples). simpl.
    unfold Runner.process_tick, Runner.bind. rewrite E1.
    unfold Runner.record_equity in *.
    cbn [fst snd Runner.portfolio Portfolio.append_trade Portfolio.trades] in *.
    rewrite G, T1, <- app_assoc. simpl. split; [reflexivity|].
    now rewrite Ts.
Qed.

(** ** Positions over a sequence of fills *)

Lemma held_update_other (p : Portfolio.t) (om : OrderManager.t) (o : Order.t)
    (fill_price : Q) (k : Z) (s : string) :
  Order.symbol o <> s ->
  held (fst (Portfolio.update_from_fill p om o fill_price k)) s = held p s.
Proof.
  intros Hne. unfold held, Portfolio.update_from_fill.
  cbn [fst Portfolio.positions]. now rewrite lookup_insert_ne.
Qed.

Lemma update_from_fill_flat (p : Portfolio.t) (om : OrderManager.t) (o : Order.t)
    (fill_price : Q) (k : Z) :
  flat_has_no_basis p ->
  flat_has_no_basis (fst (Portfolio.update_from_fill p om o fill_price k)).
Proof.
  intros Hf s. destruct (string_dec (Order.symbol o) s) as [<-|Hne].
  - intros Hz.
    destruct (new_avg_price_cases p om o fill_price k) as (_ & _ & Hzero & _).
    rewrite (Hzero Hz). reflexivity.
  - rewrite held_update_other by exact Hne. apply Hf.
Qed.

(** X9: after any sequence of fills the quantity held of a symbol is the
    quantity held before plus the filled quantities of that symbol's BUY fills
    minus those of its SELL fills; and if before the fills no flat position
    carried a cost basis, none does after them. *)
Theorem position_after_fills (fills : list (Order.t * Q * Z))
    (p : Portfolio.t) (om : OrderManager.t) (s : string) :
  Portfolio.quantity (held (fst (apply_fills fills (p, om))) s)
  == Portfolio.quantity (held p s) + fills_quantity s fills
  /\ (flat_has_no_basis p -> flat_has_no_basis (fst (apply_fills fills (p, om)))).
Proof.
  assert (G : forall st : Portfolio.t * OrderManager.t,
             Portfolio.quantity (held (fst (apply_fills fills st)) s)
             == Portfolio.quantity (held (fst st) s) + fills_quantity s fills
             /\ (flat_has_no_basis (fst st) ->
                 flat_has_no_basis (fst (apply_fills fills st)))).
  { induction fills as [|[[o fill_price] k] rest IH]; intros st.
    - simpl. split; [ring | tauto].
    - unfold apply_fills in *. simpl fold_left.
      destruct (IH (Portfolio.update_from_fill (fst st) (snd st) o fill_price k))
        as [Iq If].
      split.
      + rewrite Iq. simpl fills_quantity.
        destruct (String.eqb_spec (Order.symbol o) s) as [<-|Hne].
        * destruct (new_avg_price_cases (fst st) (snd st) o fill_price k) as (Hq & _).
          cbv zeta in Hq. rewrite Hq. ring.
        * rewrite held_update_other by exact Hne. reflexivity.
      + intros Hf. apply If. now apply update_from_fill_flat. }
  apply (G (p, om)).
Qed.

Lemma position_after_fills_witness :
  flat_has_no_basis
    (fst (apply_fills [(sample_order BUY 10 100, 100, 10%Z);
                       (sample_order SELL 10 110, 110, 10%Z)]
            (Portfolio.init 100000.0, sample_manager 0))).
Proof.
  apply (position_after_fills _ (Portfolio.init 100000.0) (sample_manager 0) "AAPL").
  intros s _. unfold held. cbn. rewrite lookup_empty. reflexivity.
Defined.

(** ** Equity *)

(** X11: when every position is flat (also when there is none) the equity is
    the cash, whatever the prices. *)
Theorem equity_of_flat_portfolio (p : Portfolio.t) (prices : gmap string Q) :
  (forall s pos, Portfolio.positions p !! s = Some pos -> Portfolio.quantity pos == 0) ->
  Portfolio.compute_equity p prices == Portfolio.cash p.
Proof.
  unfold Portfolio.compute_equity.
  apply (map_fold_weak_ind
           (fun (r : Q) (m : gmap string Portfolio.position) =>
              (forall s pos, m !! s = Some pos -> Portfolio.quantity pos == 0) ->
              r == Portfolio.cash p)).
  - intros _. reflexivity.
  - intros s pos m r Hnone IH Hall. cbv zeta.
    rewrite IH.
    + rewrite (Hall s pos) by apply lookup_insert_eq. ring.
    + intros s' pos' Hs'. apply (Hall s' pos').
      rewrite lookup_insert_ne; [exact Hs'|]. intros <-. congruence.
Qed.

Lemma equity_of_flat_portfolio_witness :
  let p := fst (apply_fills [(sample_order BUY 10 100, 100, 10%Z);
                             (sample_order SELL 10 110, 110, 10%Z)]
                  (Portfolio.init 100000.0, sample_manager 0)) in
  Portfolio.compute_equity p {[ "AAPL"%string := 95 ]} == Portfolio.cash p.
Proof.
  intros p. apply (equity_of_flat_portfolio p).
  intros s pos H. destruct (string_dec s "AAPL") as [->|Hne].
  - vm_compute in H. injection H as <-. reflexivity.
  - subst p. unfold apply_fills, Portfolio.update_from_fill in H. simpl in H.
    rewrite !lookup_insert_ne, lookup_empty in H by congruence. discriminate H.
Defined.

(** ** A run without signals *)

Lemma quiet_loop (cfg : Runner.Config) (engine : MatchingEngine.t)
    (ticks : list (MarketDataPoint.t * list (Side * Runner.Env)))
    (w : Runner.World) :
  Forall (fun t => snd t = []) ticks ->
  Portfolio.positions (Runner.portfolio w) = ∅ ->
  Runner.simulation_loop cfg engine ticks w
  = (Return tt,
     {| Runner.gateway := Runner.gateway w;
        Runner.order_manager := Runner.order_manager w;
        Runner.portfolio :=
          {| Portfolio.cash := Portfolio.cash (Runner.portfolio w);
             Portfolio.positions := ∅;
             Portfolio.trades :=
               Portfolio.trades (Runner.portfolio w)
               ++ map (fun t => (MarketDataPoint.timestamp (fst t),
                                 Portfolio.cash (Runner.portfolio w))) ticks;
             Portfolio.om := Portfolio.om (Runner.portfolio w) |};
        Runner.order := Runner.order w |}).
Proof.
  revert w. induction ticks as [|[tick sigs] rest IH]; intros w Hq He.
  - simpl. rewrite app_nil_r. destruct w as [g m [c ps tr o] ord].
    simpl in He. subst ps. reflexivity.
  - pose proof (Forall_inv Hq) as Hs. simpl in Hs. subst sigs.
    apply Forall_inv_tail in Hq.
    simpl. unfold Runner.process_tick, Runner.bind, Runner.record_equity.
    cbn [Runner.process_signals Runner.ret]. rewrite IH; [|exact Hq|cbn; exact He].
    cbn [Runner.portfolio Runner.gateway Runner.order_manager Runner.order
         Portfolio.append_trade Portfolio.cash Portfolio.trades Portfolio.om].
    unfold Portfolio.compute_equity. rewrite He, map_fold_empty.
    rewrite <- app_assoc. reflexivity.
Qed.

(** X12: a run in which no tick carries a signal logs nothing, touches neither
    the manager nor the cash nor the positions, and records for every tick an
    equity sample equal to the initial cash. *)
Theorem run_without_signals (cfg : Runner.Config)
    (ticks : list (MarketDataPoint.t * list (Side * Runner.Env))) :
  Forall (fun t => snd t = []) ticks ->
  let r := Runner.run_backtest_simulation cfg ticks in
  fst r = Return tt
  /\ Runner.gateway (snd r) = []
  /\ Runner.order_manager (snd r) = OrderManager.init (Runner.INITIAL_CASH cfg) 50
  /\ Portfolio.cash (Runner.portfolio (snd r)) = Runner.INITIAL_CASH cfg
  /\ Portfolio.positions (Runner.portfolio (snd r)) = ∅
  /\ Portfolio.trades (Runner.portfolio (snd r))
     = map (fun t => (MarketDataPoint.timestamp (fst t), Runner.INITIAL_CASH cfg)) ticks.
Proof.
  intros Hq. unfold Runner.run_backtest_simulation.
  rewrite (quiet_loop cfg _ ticks (Runner.initial_world cfg) Hq eq_refl).
  cbn. repeat split.
Qed.

Lemma run_without_signals_witness :
  Portfolio.trades
    (Runner.portfolio
       (snd (Runner.run_backtest_simulation Runner.config
               [(sample_tick 0 100, []); (sample_tick 60 101, [])])))
  = [(0, Runner.INITIAL_CASH Runner.config); (60, Runner.INITIAL_CASH Runner.config)].
Proof.
  apply (run_without_signals Runner.config
           [(sample_tick 0 100, []); (sample_tick 60 101, [])]).
  repeat constructor.
Defined.

(** ** Strategies *)

Lemma differs_true (last : option Side) (s : Side) :
  Strategies.differs last s = true -> last <> Some s.
Proof. destruct last as [[|]|], s; simpl; congruence. Qed.

Lemma feed_alternating {S : Type}
    (gen : S -> MarketDataPoint.t -> S * (Strategies.error + list Side))
    (last : S -> option Side) :
  (forall self tick self' signals,
      gen self tick = (self', inr signals) ->
      (signals = [] /\ last self' = last self)
      \/ (exists s, signals = [s] /\ last self <> Some s /\ last self' = Some s)) ->
  forall ticks self self' outs,
    feed gen self ticks = (self', inr outs) ->
    Forall (fun l => (length l <= 1)%nat) outs
    /\ alternating (last_as_list (last self) ++ concat outs).
Proof.
  intros Hstep. induction ticks as [|tick rest IH]; intros self self' outs Hf.
  - simpl in Hf. injection Hf as _ <-. simpl. rewrite app_nil_r.
    split; [constructor | now destruct (last self)].
  - simpl in Hf. destruct (gen self tick) as [self1 [e|signals]] eqn:Hg; [discriminate Hf|].
    destruct (feed gen self1 rest) as [self2 [e|later]] eqn:Hr; [discriminate Hf|].
    injection Hf as <- <-.
    destruct (IH self1 self2 later Hr) as [F A].
    destruct (Hstep _ _ _ _ Hg) as [[-> Hl]|(s & -> & Hne & Hl)].
    + split; [constructor; [simpl; lia | exact F]|].
      simpl. now rewrite Hl in A.
    + split; [constructor; [simpl; lia | exact F]|].
      rewrite Hl in A. simpl in A. simpl concat.
      destruct (last self) as [l0|]; simpl.
      * split; [congruence | exact A].
      * exact A.
Qed.

Lemma MAC_step (self : MAC.t) (tick : MarketDataPoint.t) (self' : MAC.t)
    (signals : list Side) :
  MAC.generate_signals self tick = (self', inr signals) ->
  (signals = [] /\ MAC._last_signal self' = MAC._last_signal self)
  \/ (exists s, signals = [s] /\ MAC._last_signal self <> Some s
                /\ MAC._last_signal self' = Some s).
Proof.
  unfold MAC.generate_signals. cbn [MAC._short_prices MAC._long_prices
    MAC._short_window MAC._long_window MAC._last_signal].
  repeat match goal with
         | |- context [if ?c then _ else _] => destruct c eqn:?
         | |- context [match ?x with inl _ => _ | inr _ => _ end] => destruct x
         end; intros H; inversion H; subst; cbn; try (left; split; reflexivity).
  - right. exists BUY. repeat split.
    apply differs_true. now apply andb_true_iff in Heqb0.
  - right. exists SELL. repeat split.
    apply differs_true. now apply andb_true_iff in Heqb1.
Qed.

Lemma Momentum_step (self : Momentum.t) (tick : MarketDataPoint.t)
    (self' : Momentum.t) (signals : list Side) :
  Momentum.generate_signals self tick = (self', inr signals) ->
  (signals = [] /\ Momentum._last_signal self' = Momentum._last_signal self)
  \/ (exists s, signals = [s] /\ Momentum._last_signal self <> Some s
                /\ Momentum._last_signal self' = Some s).
Proof.
  unfold Momentum.generate_signals. cbn [Momentum._prices Momentum._window
    Momentum._last_signal].
  repeat match goal with
         | |- context [if ?c then _ else _] => destruct c eqn:?
         | |- context [match ?x with [] => _ | _ :: _ => _ end] => destruct x
         end; intros H; inversion H; subst; cbn; try (left; split; reflexivity).
  - right. exists BUY. repeat split.
    apply differs_true. now apply andb_true_iff in Heqb0.
  - right. exists SELL. repeat split.
    apply differs_true. now apply andb_true_iff in Heqb1.
Qed.

(** X13: whatever the prices, a strategy (moving-average crossover or
    momentum) gives at most one signal per tick and never the same signal
    twice in a row: counting from the last signal it gave before, BUY and SELL
    alternate over the whole sequence of ticks. *)
Theorem signals_alternate :
  (forall (self self' : MAC.t) (ticks : list MarketDataPoint.t)
      (outs : list (list Side)),
      feed MAC.generate_signals self ticks = (self', inr outs) ->
      Forall (fun l => (length l <= 1)%nat) outs
      /\ alternating (last_as_list (MAC._last_signal self) ++ concat outs))
  /\ (forall (self self' : Momentum.t) (ticks : list MarketDataPoint.t)
        (outs : list (list Side)),
        feed Momentum.generate_signals self ticks = (self', inr outs) ->
        Forall (fun l => (length l <= 1)%nat) outs
        /\ alternating (last_as_list (Momentum._last_signal self) ++ concat outs)).
Proof.
  split.
  - intros self self' ticks outs.
    apply (feed_alternating MAC.generate_signals MAC._last_signal MAC_step).
  - intros self self' ticks outs.
    apply (feed_alternating Momentum.generate_signals Momentum._last_signal
             Momentum_step).
Qed.

Lemma signals_alternate_witness :
  alternating (concat [[]; [BUY]; [SELL]])
  /\ alternating (concat [[]; [BUY]; [SELL]; [BUY]]).
Proof.
  split.
  - refine (proj2 (proj1 signals_alternate sample_MAC
             (fst (feed MAC.generate_signals sample_MAC
                     (ticks_of_prices [100; 110; 90])))
             (ticks_of_prices [100; 110; 90]) [[]; [BUY]; [SELL]] _)).
    vm_compute. reflexivity.
  - refine (proj2 (proj2 signals_alternate sample_Momentum
             (fst (feed Momentum.generate_signals sample_Momentum
                     (ticks_of_prices [100; 110; 90; 120])))
             (ticks_of_prices [100; 110; 90; 120]) [[]; [BUY]; [SELL]; [BUY]] _)).
    vm_compute. reflexivity.
Defined.

(** ** The price windows *)

Lemma deque_append_length (maxlen : Z) (d : list Q) (x : Q) :
  (0 <= maxlen)%Z -> (Z.of_nat (length d) <= maxlen)%Z ->
  Z.of_nat (length (Strategies.deque_append maxlen d x))
  = Z.min (Z.of_nat (length d) + 1) maxlen.
Proof.
  intros H0 Hd. unfold Strategies.deque_append.
  destruct d as [|a d]; cbn [app tl length] in *.
  - destruct (Z.ltb_spec maxlen (Z.of_nat 1)); simpl; lia.
  - destruct (Z.ltb_spec maxlen (Z.of_nat (S (length (d ++ [x])))));
      cbn [tl length]; rewrite length_app in *; simpl in *; lia.
Qed.

Lemma deque_new_inr (maxlen : Z) (d : list Q) :
  Strategies.deque_new maxlen = inr d -> (0 <= maxlen)%Z /\ d = [].
Proof.
  unfold Strategies.deque_new. destruct (Z.ltb_spec maxlen 0); [discriminate|].
  intros H'. injection H' as <-. now split.
Qed.

Lemma MAC_init_inr (short_window long_window : Z) (self : MAC.t) :
  MAC.init short_window long_window = inr self ->
  (0 <= short_window)%Z /\ (0 <= long_window)%Z
  /\ self = {| MAC._short_window := short_window; MAC._long_window := long_window;
               MAC._short_prices := []; MAC._long_prices := [];
               MAC._last_signal := None |}.
Proof.
  unfold MAC.init.
  destruct (Strategies.deque_new short_window) as [e|sp] eqn:Hs; [discriminate|].
  destruct (Strategies.deque_new long_window) as [e|lp] eqn:Hl; [discriminate|].
  apply deque_new_inr in Hs as [? ->]. apply deque_new_inr in Hl as [? ->].
  intros H'. injection H' as <-. now repeat split.
Qed.

Lemma Momentum_init_inr (window : Z) (self : Momentum.t) :
  Momentum.init window = inr self ->
  (0 <= window)%Z
  /\ self = {| Momentum._window := window; Momentum._prices := [];
               Momentum._last_signal := None |}.
Proof.
  unfold Momentum.init.
  destruct (Strategies.deque_new window) as [e|sp] eqn:Hs; [discriminate|].
  apply deque_new_inr in Hs as [? ->].
  intros H'. injection H' as <-. now split.
Qed.

Lemma Momentum_quiet_until_full (ticks : list MarketDataPoint.t) :
  forall self : Momentum.t,
    (Z.of_nat (length (Momentum._prices self)) + Z.of_nat (length ticks)
     < Momentum._window self)%Z ->
    feed Momentum.generate_signals self ticks
    = ({| Momentum._window := Momentum._window self;
          Momentum._prices :=
            Momentum._prices self ++ map MarketDataPoint.price ticks;
          Momentum._last_signal := Momentum._last_signal self |},
       inr (silent (length ticks))).
Proof.
  induction ticks as [|tick rest IH]; intros [w d last] H; cbn [Momentum._prices
    Momentum._window Momentum._last_signal length map] in *.
  - simpl. now rewrite app_nil_r.
  - assert (G : Momentum.generate_signals
                  {| Momentum._window := w; Momentum._prices := d;
                     Momentum._last_signal := last |} tick
                = ({| Momentum._window := w;
                      Momentum._prices := d ++ [MarketDataPoint.price tick];
                      Momentum._last_signal := last |}, inr [])).
    { unfold Momentum.generate_signals, Strategies.deque_append.
      cbn [Momentum._prices Momentum._window Momentum._last_signal].
      destruct (Z.ltb_spec w (Z.of_nat (length (d ++ [MarketDataPoint.price tick]))))
        as [L|L]; [rewrite length_app in L; simpl in L; lia|].
      destruct (Z.ltb_spec (Z.of_nat (length (d ++ [MarketDataPoint.price tick]))) w)
        as [L'|L']; [reflexivity | rewrite length_app in L'; simpl in L'; lia]. }
    cbn [feed]. rewrite G, IH;
      cbn [Momentum._prices Momentum._window Momentum._last_signal].
    + now rewrite <- app_assoc.
    + rewrite length_app. simpl. lia.
Qed.

Lemma MAC_quiet_until_full (ticks : list MarketDataPoint.t) :
  forall self : MAC.t,
    (0 <= MAC._short_window self)%Z -> (0 <= MAC._long_window self)%Z ->
    (Z.of_nat (length (MAC._short_prices self)) <= MAC._short_window self)%Z ->
    (Z.of_nat (length (MAC._long_prices self)) <= MAC._long_window self)%Z ->
    (Z.of_nat (length (MAC._short_prices self)) + Z.of_nat (length ticks)
     < MAC._short_window self
     \/ Z.of_nat (length (MAC._long_prices self)) + Z.of_nat (length ticks)
        < MAC._long_window self)%Z ->
    exists self',
      feed MAC.generate_signals self ticks = (self', inr (silent (length ticks))).
Proof.
  induction ticks as [|tick rest IH]; intros [s l sp lp last] Hs Hl Hsp Hlp H;
    cbn [MAC._short_prices MAC._long_prices MAC._short_window MAC._long_window
         MAC._last_signal length] in *.
  - eexists. reflexivity.
  - pose proof (deque_append_length s sp (MarketDataPoint.price tick) Hs Hsp) as Ls.
    pose proof (deque_append_length l lp (MarketDataPoint.price tick) Hl Hlp) as Ll.
    remember (Strategies.deque_append s sp (MarketDataPoint.price tick)) as sp'.
    remember (Strategies.deque_append l lp (MarketDataPoint.price tick)) as lp'.
    assert (G : MAC.generate_signals
                  {| MAC._short_window := s; MAC._long_window := l;
                     MAC._short_prices := sp; MAC._long_prices := lp;
                     MAC._last_signal := last |} tick
                = ({| MAC._short_window := s; MAC._long_window := l;
                      MAC._short_prices := sp'; MAC._long_prices := lp';
                      MAC._last_signal := last |}, inr [])).
    { unfold MAC.generate_signals.
      cbn [MAC._short_prices MAC._long_prices MAC._short_window MAC._long_window
           MAC._last_signal].
      rewrite <- Heqsp', <- Heqlp'.
      assert (C : (Z.of_nat (length sp') <? s)%Z || (Z.of_nat (length lp') <? l)%Z
                  = true).
      { apply orb_true_iff. rewrite !Z.ltb_lt. lia. }
      now rewrite C. }
    destruct (IH {| MAC._short_window := s; MAC._long_window := l;
                    MAC._short_prices := sp'; MAC._long_prices := lp';
                    MAC._last_signal := last |}) as (self' & E);
      cbn [MAC._short_prices MAC._long_prices MAC._short_window MAC._long_window
           MAC._last_signal]; try lia.
    exists self'. cbn [feed]. now rewrite G, E.
Qed.

(** X14: a strategy gives no signal before its windows are full: a momentum
    strategy as constructed is silent on the first [window - 1] ticks, a
    crossover strategy on the first [max short_window long_window - 1]
    ticks, whatever the prices. *)
Theorem silent_until_windows_full :
  (forall (window : Z) (self : Momentum.t) (ticks : list MarketDataPoint.t),
      Momentum.init window = inr self ->
      (Z.of_nat (length ticks) < window)%Z ->
      exists self',
        feed Momentum.generate_signals self ticks
        = (self', inr (silent (length ticks))))
  /\ (forall (short_window long_window : Z) (self : MAC.t)
        (ticks : list MarketDataPoint.t),
        MAC.init short_window long_window = inr self ->
        (Z.of_nat (length ticks) < Z.max short_window long_window)%Z ->
        exists self',
          feed MAC.generate_signals self ticks
          = (self', inr (silent (length ticks)))).
Proof.
  split.
  - intros window self ticks Hi Hn.
    apply Momentum_init_inr in Hi as [_ ->].
    eexists. apply Momentum_quiet_until_full. simpl. lia.
  - intros short_window long_window self ticks Hi Hn.
    apply MAC_init_inr in Hi as (Hs & Hl & ->).
    apply MAC_quiet_until_full; simpl; lia.
Qed.

Lemma silent_until_windows_full_witness :
  (exists self',
      feed Momentum.generate_signals sample_Momentum (ticks_of_prices [100])
      = (self', inr [[]]))
  /\ (exists self',
        feed MAC.generate_signals sample_MAC (ticks_of_prices [100])
        = (self', inr [[]])).
Proof.
  split.
  - apply (proj1 silent_until_windows_full 2%Z sample_Momentum
             (ticks_of_prices [100])); [reflexivity | simpl; lia].
  - apply (proj2 silent_until_windows_full 1%Z 2%Z sample_MAC
             (ticks_of_prices [100])); [reflexivity | simpl; lia].
Defined.

Lemma mean_nonempty (d : list Q) :
  d <> [] -> exists m, Strategies.mean d = inr m.
Proof. destruct d; [congruence|]. intros _. eexists. reflexivity. Qed.

Lemma length_zero_nil {A : Type} (d : list A) :
  Z.of_nat (length d) = 0%Z -> d = [].
Proof. destruct d; [reflexivity|]. simpl. lia. Qed.

Lemma MAC_zero_window (ticks : list MarketDataPoint.t) :
  forall self : MAC.t,
    (0 <= MAC._short_window self)%Z -> (0 <= MAC._long_window self)%Z ->
    (Z.of_nat (length (MAC._short_prices self)) <= MAC._short_window self)%Z ->
    (Z.of_nat (length (MAC._long_prices self)) <= MAC._long_window self)%Z ->
    MAC._short_window self = 0%Z \/ MAC._long_window self = 0%Z ->
    (1 <= Z.of_nat (length ticks))%Z ->
    (MAC._short_window self
     <= Z.of_nat (length (MAC._short_prices self)) + Z.of_nat (length ticks))%Z ->
    (MAC._long_window self
     <= Z.of_nat (length (MAC._long_prices self)) + Z.of_nat (length ticks))%Z ->
    snd (feed MAC.generate_signals self ticks)
    = inl (Strategies.ZeroDivisionError "division by zero").
Proof.
  induction ticks as [|tick rest IH];
    intros [s l sp lp last] Hs Hl Hsp Hlp Hz Hn Hsn Hln;
    cbn [MAC._short_prices MAC._long_prices MAC._short_window MAC._long_window
         MAC._last_signal length] in *; [lia|].
  pose proof (deque_append_length s sp (MarketDataPoint.price tick) Hs Hsp) as Ls.
  pose proof (deque_append_length l lp (MarketDataPoint.price tick) Hl Hlp) as Ll.
  remember (Strategies.deque_append s sp (MarketDataPoint.price tick)) as sp'.
  remember (Strategies.deque_append l lp (MarketDataPoint.price tick)) as lp'.
  cbn [feed]. unfold MAC.generate_signals at 1.
  cbn [MAC._short_prices MAC._long_prices MAC._short_window MAC._long_window
       MAC._last_signal].
  rewrite <- Heqsp', <- Heqlp'.
  destruct ((Z.of_nat (length sp') <? s)%Z || (Z.of_nat (length lp') <? l)%Z)
    eqn:C.
  - apply orb_true_iff in C. rewrite !Z.ltb_lt in C.
    specialize (IH {| MAC._short_window := s; MAC._long_window := l;
                      MAC._short_prices := sp'; MAC._long_prices := lp';
                      MAC._last_signal := last |}).
    cbn [MAC._short_prices MAC._long_prices MAC._short_window MAC._long_window
         MAC._last_signal] in IH.
    destruct (feed MAC.generate_signals _ rest) as [self' [e|later]];
      cbn [snd] in *; [apply IH; lia|].
    assert (X : @inr Strategies.error _ later
                = inl (Strategies.ZeroDivisionError "division by zero"))
      by (apply IH; lia).
    discriminate X.
  - apply orb_false_iff in C. rewrite !Z.ltb_ge in C.
    destruct Hz as [-> | ->].
    + assert (sp' = []) as -> by (apply length_zero_nil; lia). reflexivity.
    + assert (lp' = []) as -> by (apply length_zero_nil; lia).
      destruct sp'; reflexivity.
Qed.

(** X15: the constructors refuse a negative window with the [ValueError] of
    [deque] and accept a window of 0, with which the strategy then fails: a
    momentum strategy of window 0 raises [IndexError] on its first tick, and a
    crossover strategy with a window of 0 raises [ZeroDivisionError] at the
    tick where its other window is full. *)
Theorem degenerate_windows :
  (forall window : Z,
      (window < 0)%Z ->
      Momentum.init window
      = inl (Strategies.ValueError "maxlen must be non-negative")
      /\ forall other : Z,
          MAC.init window other
          = inl (Strategies.ValueError "maxlen must be non-negative")
          /\ MAC.init other window
             = inl (Strategies.ValueError "maxlen must be non-negative"))
  /\ (forall (self : Momentum.t) (tick : MarketDataPoint.t)
        (ticks : list MarketDataPoint.t),
        Momentum.init 0 = inr self ->
        snd (feed Momentum.generate_signals self (tick :: ticks))
        = inl (Strategies.IndexError "deque index out of range"))
  /\ (forall (short_window long_window : Z) (self : MAC.t)
        (ticks : list MarketDataPoint.t),
        MAC.init short_window long_window = inr self ->
        short_window = 0%Z \/ long_window = 0%Z ->
        (Z.max (Z.max short_window long_window) 1 <= Z.of_nat (length ticks))%Z ->
        snd (feed MAC.generate_signals self ticks)
        = inl (Strategies.ZeroDivisionError "division by zero")).
Proof.
  split; [|split].
  - intros window Hw.
    assert (E : Strategies.deque_new window
                = inl (Strategies.ValueError "maxlen must be non-negative")).
    { unfold Strategies.deque_new. now destruct (Z.ltb_spec window 0); [|lia]. }
    split; [|intros other; split].
    + unfold Momentum.init. now rewrite E.
    + unfold MAC.init. now rewrite E.
    + unfold MAC.init. rewrite E.
      unfold Strategies.deque_new. now destruct (other <? 0)%Z.
  - intros self tick ticks Hi. apply Momentum_init_inr in Hi as [_ ->].
    reflexivity.
  - intros short_window long_window self ticks Hi Hz Hn.
    apply MAC_init_inr in Hi as (Hs & Hl & ->).
    apply MAC_zero_window; simpl; lia.
Qed.

Lemma degenerate_windows_witness :
  Momentum.init (-1) = inl (Strategies.ValueError "maxlen must be non-negative")
  /\ snd (feed Momentum.generate_signals
            {| Momentum._window := 0; Momentum._prices := [];
               Momentum._last_signal := None |} (ticks_of_prices [100]))
     = inl (Strategies.IndexError "deque index out of range")
  /\ snd (feed MAC.generate_signals
            {| MAC._short_window := 0; MAC._long_window := 2;
               MAC._short_prices := []; MAC._long_prices := [];
               MAC._last_signal := None |} (ticks_of_prices [100; 110]))
     = inl (Strategies.ZeroDivisionError "division by zero").
Proof.
  destruct degenerate_windows as (Hneg & Hmom & Hmac).
  split; [|split].
  - apply (Hneg (-1)%Z). lia.
  - apply (Hmom _ (sample_tick 0 100) []). reflexivity.
  - apply (Hmac 0%Z 2%Z); [reflexivity | now left | simpl; lia].
Defined.

Lemma Qltb_irrefl (a b : Q) : a == b -> Qltb a b = false.
Proof. intros E. apply Qltb_false. rewrite E. apply Qle_refl. Qed.

Lemma Momentum_window_1 (ticks : list MarketDataPoint.t) :
  forall self : Momentum.t,
    Momentum._window self = 1%Z ->
    (length (Momentum._prices self) <= 1)%nat ->
    exists self',
      feed Momentum.generate_signals self ticks
      = (self', inr (silent (length ticks))).
Proof.
  induction ticks as [|tick rest IH]; intros [w d last] Hw Hd;
    cbn [Momentum._prices Momentum._window Momentum._last_signal] in *.
  - eexists. reflexivity.
  - subst w.
    assert (G : Momentum.generate_signals
                  {| Momentum._window := 1; Momentum._prices := d;
                     Momentum._last_signal := last |} tick
                = ({| Momentum._window := 1;
                      Momentum._prices := [MarketDataPoint.price tick];
                      Momentum._last_signal := last |}, inr [])).
    { unfold Momentum.generate_signals.
      cbn [Momentum._prices Momentum._window Momentum._last_signal].
      assert (E : Strategies.deque_append 1 d (MarketDataPoint.price tick)
                  = [MarketDataPoint.price tick]).
      { destruct d as [|a [|b d]]; [reflexivity | reflexivity | simpl in Hd; lia]. }
      rewrite E. cbn [length Z.of_nat Z.ltb Z.compare Pos.of_succ_nat Pos.compare
                      Pos.compare_cont].
      rewrite !Qltb_irrefl by ring. reflexivity. }
    destruct (IH {| Momentum._window := 1;
                    Momentum._prices := [MarketDataPoint.price tick];
                    Momentum._last_signal := last |}) as (self' & E);
      [reflexivity | simpl; lia |].
    exists self'. cbn [feed]. now rewrite G, E.
Qed.

Lemma deque_append_nonempty (maxlen : Z) (d : list Q) (x : Q) :
  (1 <= maxlen)%Z -> Strategies.deque_append maxlen d x <> [].
Proof.
  intros H. unfold Strategies.deque_append.
  destruct d as [|a d]; cbn [app tl length].
  - destruct (Z.ltb_spec maxlen (Z.of_nat 1)); [simpl in *; lia | discriminate].
  - destruct (maxlen <? _)%Z; cbn [tl]; [|discriminate].
    destruct d; discriminate.
Qed.

Lemma MAC_equal_windows (ticks : list MarketDataPoint.t) :
  forall self : MAC.t,
    (1 <= MAC._short_window self)%Z ->
    MAC._long_window self = MAC._short_window self ->
    MAC._long_prices self = MAC._short_prices self ->
    exists self',
      feed MAC.generate_signals self ticks
      = (self', inr (silent (length ticks))).
Proof.
  induction ticks as [|tick rest IH]; intros [s l sp lp last] Hs Hl Hp;
    cbn [MAC._short_prices MAC._long_prices MAC._short_window MAC._long_window
         MAC._last_signal] in *.
  - eexists. reflexivity.
  - subst l lp.
    remember (Strategies.deque_append s sp (MarketDataPoint.price tick)) as sp'.
    assert (G : MAC.generate_signals
                  {| MAC._short_window := s; MAC._long_window := s;
                     MAC._short_prices := sp; MAC._long_prices := sp;
                     MAC._last_signal := last |} tick
                = ({| MAC._short_window := s; MAC._long_window := s;
                      MAC._short_prices := sp'; MAC._long_prices := sp';
                      MAC._last_signal := last |}, inr [])).
    { unfold MAC.generate_signals.
      cbn [MAC._short_prices MAC._long_prices MAC._short_window MAC._long_window
           MAC._last_signal].
      rewrite <- Heqsp'.
      destruct ((Z.of_nat (length sp') <? s)%Z || (Z.of_nat (length sp') <? s)%Z);
        [reflexivity|].
      destruct (mean_nonempty sp') as (m & ->).
      { subst sp'. now apply deque_append_nonempty. }
      rewrite !Qltb_irrefl by reflexivity. reflexivity. }
    destruct (IH {| MAC._short_window := s; MAC._long_window := s;
                    MAC._short_prices := sp'; MAC._long_prices := sp';
                    MAC._last_signal := last |}) as (self' & E);
      [assumption | reflexivity | reflexivity |].
    exists self'. cbn [feed]. now rewrite G, E.
Qed.

(** X16: two settings that never trade.  A momentum strategy of window 1
    compares each price with itself, and a crossover strategy with equal
    windows compares an average with itself: both stay silent on every
    sequence of ticks. *)
Theorem strategies_that_never_signal :
  (forall (self : Momentum.t) (ticks : list MarketDataPoint.t),
      Momentum.init 1 = inr self ->
      exists self',
        feed Momentum.generate_signals self ticks
        = (self', inr (silent (length ticks))))
  /\ (forall (window : Z) (self : MAC.t) (ticks : list MarketDataPoint.t),
        (1 <= window)%Z ->
        MAC.init window window = inr self ->
        exists self',
          feed MAC.generate_signals self ticks
          = (self', inr (silent (length ticks)))).
Proof.
  split.
  - intros self ticks Hi. apply Momentum_init_inr in Hi as [_ ->].
    apply Momentum_window_1; [reflexivity | simpl; lia].
  - intros window self ticks Hw Hi. apply MAC_init_inr in Hi as (_ & _ & ->).
    now apply MAC_equal_windows.
Qed.

Lemma strategies_that_never_signal_witness :
  (exists self',
      feed Momentum.generate_signals
        {| Momentum._window := 1; Momentum._prices := [];
           Momentum._last_signal := None |} (ticks_of_prices [100; 110; 90])
      = (self', inr [[]; []; []]))
  /\ (exists self',
        feed MAC.generate_signals
          {| MAC._short_window := 2; MAC._long_window := 2;
             MAC._short_prices := []; MAC._long_prices := [];
             MAC._last_signal := None |} (ticks_of_prices [100; 110; 90])
        = (self', inr [[]; []; []])).
Proof.
  split.
  - apply (proj1 strategies_that_never_signal _ (ticks_of_prices [100; 110; 90])).
    reflexivity.
  - apply (proj2 strategies_that_never_signal 2%Z _ (ticks_of_prices [100; 110; 90]));
      [lia | reflexivity].
Defined.

(** ** Strategies on a trend *)

Lemma feed_app {S : Type}
    (gen : S -> MarketDataPoint.t -> S * (Strategies.error + list Side))
    (first rest : list MarketDataPoint.t) :
  forall (self self1 self2 : S) (outs1 outs2 : list (list Side)),
    feed gen self first = (self1, inr outs1) ->
    feed gen self1 rest = (self2, inr outs2) ->
    feed gen self (first ++ rest) = (self2, inr (outs1 ++ outs2)).
Proof.
  induction first as [|tick first IH]; intros self self1 self2 outs1 outs2 H1 H2.
  - simpl in H1. injection H1 as <- <-. exact H2.
  - cbn [feed app] in *.
    destruct (gen self tick) as [self0 [e|signals]]; [discriminate H1|].
    destruct (feed gen self0 first) as [self0' [e|later]] eqn:F; [discriminate H1|].
    injection H1 as <- <-.
    now rewrite (IH self0 self0' self2 later outs2 F H2).
Qed.

Lemma trend_head (s : Side) (b x : Q) (d rest : list Q) :
  trend s (b :: d ++ x :: rest) ->
  match s with BUY => b < x | SELL => x < b end.
Proof.
  intros H. apply StronglySorted_inv in H as [_ H].
  rewrite List.Forall_forall in H. apply H. apply in_elt.
Qed.

Lemma Momentum_trend_step (s : Side) (w : Z) (d rest : list Q)
    (last : option Side) (tick : MarketDataPoint.t) :
  (2 <= w)%Z ->
  (w - 1 <= Z.of_nat (length d) <= w)%Z ->
  trend s (d ++ MarketDataPoint.price tick :: rest) ->
  exists d',
    Momentum.generate_signals
      {| Momentum._window := w; Momentum._prices := d;
         Momentum._last_signal := last |} tick
    = (if Strategies.differs last s
       then ({| Momentum._window := w; Momentum._prices := d';
                Momentum._last_signal := Some s |}, inr [s])
       else ({| Momentum._window := w; Momentum._prices := d';
                Momentum._last_signal := last |}, inr []))
    /\ Z.of_nat (length d') = w
    /\ trend s (d' ++ rest).
Proof.
  intros Hw Hd Ht.
  set (x := MarketDataPoint.price tick) in *.
  assert (D : exists b d0,
             Strategies.deque_append w d x = b :: d0 ++ [x]
             /\ Z.of_nat (length (b :: d0 ++ [x])) = w
             /\ trend s (b :: d0 ++ x :: rest)).
  { unfold Strategies.deque_append.
    destruct d as [|a d]; [simpl in Hd; lia|].
    cbn [app length] in *. rewrite length_app. cbn [length].
    destruct (Z.ltb_spec w (Z.of_nat (S (length d + 1)))) as [L|L].
    - destruct d as [|b d]; [simpl in *; lia|].
      exists b, d. cbn [tl app]. split; [reflexivity|]. split.
      + cbn [length] in *. rewrite length_app. simpl. lia.
      + now apply StronglySorted_inv in Ht as [Ht _].
    - exists a, d. split; [reflexivity|]. split; [|exact Ht].
      cbn [length] in *. rewrite length_app. simpl. lia. }
  destruct D as (b & d0 & E & Ln & Ht').
  exists (b :: d0 ++ [x]). split; [|split; [exact Ln|]].
  - unfold Momentum.generate_signals.
    cbn [Momentum._prices Momentum._window Momentum._last_signal].
    fold x. rewrite E.
    destruct (Z.ltb_spec (Z.of_nat (length (b :: d0 ++ [x]))) w) as [L|_]; [lia|].
    pose proof (trend_head s b x d0 rest Ht') as Hbx.
    unfold Momentum.set_last_signal.
    cbn [Momentum._prices Momentum._window Momentum._last_signal].
    destruct s.
    + assert (P : Qltb 0 (x - b) = true) by (apply Qltb_true; lra).
      rewrite P. cbn [andb].
      destruct (Strategies.differs last BUY) eqn:Df; [reflexivity|].
      assert (N : Qltb (x - b) 0 = false) by (apply Qltb_false; lra).
      now rewrite N.
    + assert (N : Qltb 0 (x - b) = false) by (apply Qltb_false; lra).
      assert (P : Qltb (x - b) 0 = true) by (apply Qltb_true; lra).
      rewrite N, P. cbn [andb].
      destruct (Strategies.differs last SELL); reflexivity.
  - cbn [app]. now rewrite <- app_assoc.
Qed.

Lemma differs_same (s : Side) : Strategies.differs (Some s) s = false.
Proof. now destruct s. Qed.

Lemma differs_None (s : Side) : Strategies.differs None s = true.
Proof. now destruct s. Qed.

Lemma Momentum_trend_steady (s : Side) (w : Z) (ticks : list MarketDataPoint.t) :
  (2 <= w)%Z ->
  forall d : list Q,
    (w - 1 <= Z.of_nat (length d) <= w)%Z ->
    trend s (d ++ map MarketDataPoint.price ticks) ->
    exists self',
      feed Momentum.generate_signals
        {| Momentum._window := w; Momentum._prices := d;
           Momentum._last_signal := Some s |} ticks
      = (self', inr (silent (length ticks))).
Proof.
  intros Hw. induction ticks as [|tick rest IH]; intros d Hd Ht.
  - eexists. reflexivity.
  - cbn [map] in Ht.
    destruct (Momentum_trend_step s w d _ (Some s) tick Hw Hd Ht)
      as (d' & G & Ln & Ht').
    rewrite differs_same in G.
    destruct (IH d') as (self' & E); [lia | exact Ht' |].
    exists self'. cbn [feed]. now rewrite G, E.
Qed.

(** X17: on prices that rise from tick to tick a momentum strategy of window
    [w >= 2] buys once, at tick [w], and then stays silent for as long as the
    rise lasts; on falling prices it sells once, at tick [w]. *)
Theorem momentum_on_a_trend (s : Side) (window : Z) (self : Momentum.t)
    (ticks : list MarketDataPoint.t) :
  (2 <= window)%Z ->
  Momentum.init window = inr self ->
  (window <= Z.of_nat (length ticks))%Z ->
  trend s (map MarketDataPoint.price ticks) ->
  exists self',
    feed Momentum.generate_signals self ticks
    = (self', inr (silent (Z.to_nat (window - 1))
                   ++ [s] :: silent (length ticks - Z.to_nat window))).
Proof.
  intros Hw Hi Hn Ht. apply Momentum_init_inr in Hi as [_ ->].
  set (k := Z.to_nat (window - 1)).
  remember (firstn k ticks) as first eqn:Hf.
  assert (Hk : length first = k) by (subst first; apply firstn_length_le; lia).
  destruct (skipn k ticks) as [|tick rest] eqn:Sk.
  { apply (f_equal (@length _)) in Sk. rewrite length_skipn in Sk. simpl in Sk. lia. }
  assert (Hr : length rest = (length ticks - Z.to_nat window)%nat).
  { apply (f_equal (@length _)) in Sk. rewrite length_skipn in Sk. simpl in Sk. lia. }
  rewrite <- Hr.
  assert (Tk : ticks = first ++ tick :: rest).
  { rewrite Hf, <- Sk. symmetry. apply firstn_skipn. }
  clear Hf Sk Hr Hn. subst ticks.
  rewrite map_app in Ht. cbn [map] in Ht.
  pose proof (Momentum_quiet_until_full first
                {| Momentum._window := window; Momentum._prices := [];
                   Momentum._last_signal := None |}) as Q1.
  cbn [Momentum._prices Momentum._window Momentum._last_signal app length] in Q1.
  rewrite Hk in Q1. specialize (Q1 ltac:(lia)).
  destruct (Momentum_trend_step s window (map MarketDataPoint.price first)
              (map MarketDataPoint.price rest) None tick Hw)
    as (d' & G & Ln & Ht'); [rewrite length_map, Hk; lia | exact Ht |].
  rewrite differs_None in G.
  destruct (Momentum_trend_steady s window rest Hw d') as (self' & E);
    [lia | exact Ht' |].
  exists self'.
  apply (feed_app _ _ _ _ _ _ _ _ Q1).
  cbn [feed]. now rewrite G, E.
Qed.

Lemma momentum_on_a_trend_witness :
  exists self',
    feed Momentum.generate_signals sample_Momentum (ticks_of_prices [100; 110; 120])
    = (self', inr [[]; [BUY]; []]).
Proof.
  apply (momentum_on_a_trend BUY 2%Z sample_Momentum
           (ticks_of_prices [100; 110; 120])).
  - lia.
  - reflexivity.
  - simpl. lia.
  - repeat constructor.
Defined.

Lemma fold_left_Qplus (d : list Q) (acc : Q) :
  fold_left Qplus d acc == acc + Strategies.sum d.
Proof.
  unfold Strategies.sum. revert acc.
  induction d as [|x d IH]; intros acc; cbn [fold_left].
  - ring.
  - rewrite (IH (acc + x)), (IH (0 + x)). ring.
Qed.

Lemma sum_cons (x : Q) (d : list Q) :
  Strategies.sum (x :: d) == x + Strategies.sum d.
Proof.
  unfold Strategies.sum at 1. cbn [fold_left]. rewrite fold_left_Qplus. ring.
Qed.

Lemma sum_app (d1 d2 : list Q) :
  Strategies.sum (d1 ++ d2) == Strategies.sum d1 + Strategies.sum d2.
Proof.
  induction d1 as [|x d1 IH]; cbn [app].
  - unfold Strategies.sum at 2. simpl. ring.
  - rewrite !sum_cons, IH. ring.
Qed.

Lemma count_cons {A : Type} (x : A) (d : list A) :
  inject_Z (Z.of_nat (length (x :: d))) == inject_Z (Z.of_nat (length d)) + 1.
Proof.
  cbn [length]. rewrite Nat2Z.inj_succ. unfold Z.succ.
  rewrite inject_Z_plus. reflexivity.
Qed.

Lemma count_app {A : Type} (d1 d2 : list A) :
  inject_Z (Z.of_nat (length (d1 ++ d2)))
  == inject_Z (Z.of_nat (length d1)) + inject_Z (Z.of_nat (length d2)).
Proof.
  rewrite length_app, Nat2Z.inj_add, inject_Z_plus. reflexivity.
Qed.

Lemma count_positive {A : Type} (d : list A) :
  d <> [] -> 0 < inject_Z (Z.of_nat (length d)).
Proof.
  destruct d; [congruence|]. intros _.
  change 0 with (inject_Z 0). rewrite <- Zlt_Qlt. simpl. lia.
Qed.

Lemma sum_at_least (b : Q) (d : list Q) :
  Forall (fun a => b <= a) d ->
  inject_Z (Z.of_nat (length d)) * b <= Strategies.sum d.
Proof.
  induction 1 as [|x d Hx _ IH].
  - unfold Strategies.sum. cbn [length fold_left Z.of_nat].
    change (inject_Z (Z.of_nat 0)) with 0. lra.
  - rewrite count_cons, sum_cons. nra.
Qed.

Lemma sum_at_most (b : Q) (d : list Q) :
  Forall (fun a => a <= b) d ->
  Strategies.sum d <= inject_Z (Z.of_nat (length d)) * b.
Proof.
  induction 1 as [|x d Hx _ IH].
  - unfold Strategies.sum. cbn [length fold_left Z.of_nat].
    change (inject_Z (Z.of_nat 0)) with 0. lra.
  - rewrite count_cons, sum_cons. nra.
Qed.

Lemma sum_less (b : Q) (d : list Q) :
  d <> [] -> Forall (fun a => a < b) d ->
  Strategies.sum d < inject_Z (Z.of_nat (length d)) * b.
Proof.
  intros Hd H. destruct H as [|x d Hx H]; [congruence|].
  rewrite count_cons, sum_cons.
  assert (L : Strategies.sum d <= inject_Z (Z.of_nat (length d)) * b).
  { apply sum_at_most. eapply List.Forall_impl; [|exact H].
    intros a. apply Qlt_le_weak. }
  nra.
Qed.

Lemma sum_more (b : Q) (d : list Q) :
  d <> [] -> Forall (fun a => b < a) d ->
  inject_Z (Z.of_nat (length d)) * b < Strategies.sum d.
Proof.
  intros Hd H. destruct H as [|x d Hx H]; [congruence|].
  rewrite count_cons, sum_cons.
  assert (L : inject_Z (Z.of_nat (length d)) * b <= Strategies.sum d).
  { apply sum_at_least. eapply List.Forall_impl; [|exact H].
    intros a. apply Qlt_le_weak. }
  nra.
Qed.

Lemma mean_of_newer_prices (s : Side) (older newer : list Q) :
  older <> [] -> newer <> [] ->
  trend s (older ++ newer) ->
  exists short_ma long_ma,
    Strategies.mean newer = inr short_ma
    /\ Strategies.mean (older ++ newer) = inr long_ma
    /\ ahead s long_ma short_ma.
Proof.
  intros Ho Hn Ht.
  destruct newer as [|b newer0] eqn:En; [congruence|]. rewrite <- En in *.
  assert (Hon : older ++ newer <> []) by (destruct older; [congruence | discriminate]).
  exists (Strategies.sum newer / inject_Z (Z.of_nat (length newer))),
         (Strategies.sum (older ++ newer)
          / inject_Z (Z.of_nat (length (older ++ newer)))).
  split; [rewrite En; reflexivity|].
  split; [destruct (older ++ newer); [congruence | reflexivity]|].
  pose proof (count_positive older Ho) as Hp.
  pose proof (count_positive newer Hn) as Hq.
  set (p := inject_Z (Z.of_nat (length older))) in *.
  set (q := inject_Z (Z.of_nat (length newer))) in *.
  set (A := Strategies.sum older). set (B := Strategies.sum newer).
  assert (Old : Forall (fun a => ahead s a b) older).
  { clear -Ht En. subst newer. induction older as [|a older IH]; [constructor|].
    cbn [app] in Ht. apply StronglySorted_inv in Ht as [Ht Ha].
    constructor; [|now apply IH].
    rewrite List.Forall_forall in Ha. apply Ha. apply in_elt. }
  assert (New : Forall (fun a => ahead s b a) newer0).
  { clear -Ht En. subst newer. induction older as [|a older IH].
    - now apply StronglySorted_inv in Ht as [_ Ht].
    - apply IH. cbn [app] in Ht. now apply StronglySorted_inv in Ht as [Ht _]. }
  assert (Eq : Strategies.sum (older ++ newer) / inject_Z (Z.of_nat (length (older ++ newer)))
               == (A + B) / (p + q)).
  { rewrite sum_app, count_app. reflexivity. }
  set (m := B / q).
  assert (Em : B == m * q) by (unfold m; field; lra).
  unfold ahead in *. destruct s; rewrite Eq.
  - assert (HA : A < p * b) by (apply sum_less; assumption).
    assert (HB : q * b <= B).
    { subst newer. apply sum_at_least. constructor; [apply Qle_refl|].
      eapply List.Forall_impl; [|exact New]. intros a. apply Qlt_le_weak. }
    assert (Hb : b <= m) by (apply Qle_shift_div_l; lra).
    assert (Hpm : p * b <= p * m) by (apply Qmult_le_l; assumption).
    apply Qlt_shift_div_r; lra.
  - assert (HA : p * b < A) by (apply sum_more; assumption).
    assert (HB : B <= q * b).
    { subst newer. apply sum_at_most. constructor; [apply Qle_refl|].
      eapply List.Forall_impl; [|exact New]. intros a. apply Qlt_le_weak. }
    assert (Hb : m <= b) by (apply Qle_shift_div_r; lra).
    assert (Hpm : p * m <= p * b) by (apply Qmult_le_l; assumption).
    apply Qlt_shift_div_l; lra.
Qed.

Lemma trend_app_l (s : Side) (d rest : list Q) :
  trend s (d ++ rest) -> trend s d.
Proof.
  unfold trend. induction d as [|a d IH]; cbn [app]; intros H; [constructor|].
  apply StronglySorted_inv in H as [H Ha]. constructor; [now apply IH|].
  now apply List.Forall_app in Ha as [Ha _].
Qed.

Lemma deque_append_trend (s : Side) (maxlen : Z) (d rest : list Q) (x : Q) :
  trend s (d ++ x :: rest) ->
  trend s (Strategies.deque_append maxlen d x ++ rest).
Proof.
  intros H. unfold Strategies.deque_append.
  destruct (maxlen <? _)%Z.
  - destruct d as [|a d]; cbn [app tl] in *.
    + now apply StronglySorted_inv in H as [H _].
    + rewrite <- app_assoc. now apply StronglySorted_inv in H as [H _].
  - now rewrite <- app_assoc.
Qed.

Lemma windows_nested_append (short_window long_window : Z)
    (short_prices long_prices : list Q) (x : Q) :
  (0 <= short_window <= long_window)%Z ->
  windows_nested short_window long_window short_prices long_prices ->
  windows_nested short_window long_window
    (Strategies.deque_append short_window short_prices x)
    (Strategies.deque_append long_window long_prices x).
Proof.
  intros Hw (Hs & Hl & older & E & Hfull).
  pose proof (deque_append_length short_window short_prices x ltac:(lia) Hs) as Ls.
  pose proof (deque_append_length long_window long_prices x ltac:(lia) Hl) as Ll.
  split; [lia|]. split; [lia|].
  clear Ls Ll. subst long_prices. unfold Strategies.deque_append.
  rewrite !length_app in *. cbn [length] in *.
  destruct (Z.ltb_spec short_window (Z.of_nat (length short_prices + 1))) as [S1|S1].
  - destruct short_prices as [|a sp0]; cbn [app tl length] in *.
    + eexists. split; [symmetry; apply app_nil_r | simpl; lia].
    + destruct (Z.ltb_spec long_window
                  (Z.of_nat (length older + S (length sp0) + 1))) as [L1|L1].
      * destruct older as [|p older0]; cbn [app tl length] in *.
        -- exists []. split; [reflexivity | rewrite length_app; simpl; lia].
        -- exists (older0 ++ [a]). split; [|rewrite length_app; simpl; lia].
           rewrite <- !app_assoc. reflexivity.
      * exists (older ++ [a]). split; [|rewrite length_app; simpl; lia].
        rewrite <- !app_assoc. reflexivity.
  - rewrite (Hfull ltac:(lia)) in *. cbn [app length] in *.
    destruct (Z.ltb_spec long_window (Z.of_nat (0 + length short_prices + 1)));
      [lia|].
    exists []. split; [reflexivity | intros _; reflexivity].
Qed.

Lemma MAC_quiet_state (short_window long_window : Z) (last : option Side)
    (ticks : list MarketDataPoint.t) :
  (0 <= short_window <= long_window)%Z ->
  forall short_prices long_prices : list Q,
    windows_nested short_window long_window short_prices long_prices ->
    (Z.of_nat (length long_prices) + Z.of_nat (length ticks) < long_window)%Z ->
    exists short_prices',
      feed MAC.generate_signals
        {| MAC._short_window := short_window; MAC._long_window := long_window;
           MAC._short_prices := short_prices; MAC._long_prices := long_prices;
           MAC._last_signal := last |} ticks
      = ({| MAC._short_window := short_window; MAC._long_window := long_window;
            MAC._short_prices := short_prices';
            MAC._long_prices :=
              long_prices ++ map MarketDataPoint.price ticks;
            MAC._last_signal := last |}, inr (silent (length ticks)))
      /\ windows_nested short_window long_window short_prices'
           (long_prices ++ map MarketDataPoint.price ticks).
Proof.
  intros Hw. induction ticks as [|tick rest IH]; intros sp lp Hn Hlen;
    cbn [length map] in *.
  - exists sp. rewrite app_nil_r. split; [reflexivity | exact Hn].
  - pose proof (windows_nested_append _ _ _ _ (MarketDataPoint.price tick) Hw Hn)
      as Hn'.
    assert (E : Strategies.deque_append long_window lp (MarketDataPoint.price tick)
                = lp ++ [MarketDataPoint.price tick]).
    { unfold Strategies.deque_append.
      destruct (Z.ltb_spec long_window
                  (Z.of_nat (length (lp ++ [MarketDataPoint.price tick]))))
        as [L|L]; [rewrite length_app in L; simpl in L; lia | reflexivity]. }
    rewrite E in Hn'.
    remember (Strategies.deque_append short_window sp (MarketDataPoint.price tick))
      as sp'.
    assert (G : MAC.generate_signals
                  {| MAC._short_window := short_window;
                     MAC._long_window := long_window;
                     MAC._short_prices := sp; MAC._long_prices := lp;
                     MAC._last_signal := last |} tick
                = ({| MAC._short_window := short_window;
                      MAC._long_window := long_window;
                      MAC._short_prices := sp';
                      MAC._long_prices := lp ++ [MarketDataPoint.price tick];
                      MAC._last_signal := last |}, inr [])).
    { unfold MAC.generate_signals.
      cbn [MAC._short_prices MAC._long_prices MAC._short_window MAC._long_window
           MAC._last_signal].
      rewrite <- Heqsp', E.
      assert (C : (Z.of_nat (length sp') <? short_window)%Z
                  || (Z.of_nat (length (lp ++ [MarketDataPoint.price tick]))
                      <? long_window)%Z = true).
      { apply orb_true_iff. right. rewrite Z.ltb_lt, length_app. simpl. lia. }
      now rewrite C. }
    destruct (IH sp' (lp ++ [MarketDataPoint.price tick]) Hn') as (sp'' & F & Hn'').
    { rewrite length_app. simpl. lia. }
    rewrite <- app_assoc in F, Hn''. cbn [app] in F, Hn''.
    exists sp''. split; [|exact Hn''].
    cbn [feed]. now rewrite G, F.
Qed.

Lemma MAC_trend_step (s : Side) (short_window long_window : Z)
    (short_prices long_prices rest : list Q) (last : option Side)
    (tick : MarketDataPoint.t) :
  (1 <= short_window < long_window)%Z ->
  windows_nested short_window long_window short_prices long_prices ->
  (long_window - 1 <= Z.of_nat (length long_prices))%Z ->
  trend s (long_prices ++ MarketDataPoint.price tick :: rest) ->
  exists short_prices' long_prices',
    MAC.generate_signals
      {| MAC._short_window := short_window; MAC._long_window := long_window;
         MAC._short_prices := short_prices; MAC._long_prices := long_prices;
         MAC._last_signal := last |} tick
    = (if Strategies.differs last s
       then ({| MAC._short_window := short_window;
                MAC._long_window := long_window;
                MAC._short_prices := short_prices';
                MAC._long_prices := long_prices';
                MAC._last_signal := Some s |}, inr [s])
       else ({| MAC._short_window := short_window;
                MAC._long_window := long_window;
                MAC._short_prices := short_prices';
                MAC._long_prices := long_prices';
                MAC._last_signal := last |}, inr []))
    /\ windows_nested short_window long_window short_prices' long_prices'
    /\ Z.of_nat (length long_prices') = long_window
    /\ trend s (long_prices' ++ rest).
Proof.
  intros Hw Hn Hlen Ht.
  pose proof (windows_nested_append short_window long_window short_prices
                long_prices (MarketDataPoint.price tick) ltac:(lia) Hn) as Hn'.
  pose proof (deque_append_trend s long_window _ _ _ Ht) as Ht'.
  destruct Hn as (Hs & Hl & older & E & Hfull).
  pose proof (deque_append_length short_window short_prices
                (MarketDataPoint.price tick) ltac:(lia) Hs) as Ls.
  pose proof (deque_append_length long_window long_prices
                (MarketDataPoint.price tick) ltac:(lia) Hl) as Ll.
  assert (Fs : Z.of_nat (length short_prices) = short_window).
  { destruct (Z.lt_ge_cases (Z.of_nat (length short_prices)) short_window)
      as [L|L]; [|lia].
    rewrite (Hfull L) in E. cbn [app] in E. subst long_prices. lia. }
  remember (Strategies.deque_append short_window short_prices
              (MarketDataPoint.price tick)) as sp'.
  remember (Strategies.deque_append long_window long_prices
              (MarketDataPoint.price tick)) as lp'.
  exists sp', lp'. split; [|split; [exact Hn'|split; [lia | exact Ht']]].
  unfold MAC.generate_signals.
  cbn [MAC._short_prices MAC._long_prices MAC._short_window MAC._long_window
       MAC._last_signal].
  rewrite <- Heqsp', <- Heqlp'.
  assert (C : (Z.of_nat (length sp') <? short_window)%Z
              || (Z.of_nat (length lp') <? long_window)%Z = false).
  { apply orb_false_iff. rewrite !Z.ltb_ge. lia. }
  rewrite C.
  destruct Hn' as (_ & _ & older' & E' & _).
  assert (Ho : older' <> []).
  { intros ->. cbn [app] in E'. rewrite E' in Ll. lia. }
  assert (Hsp : sp' <> []).
  { intros ->. simpl in Ls. lia. }
  apply trend_app_l in Ht'. rewrite E' in Ht'.
  destruct (mean_of_newer_prices s older' sp' Ho Hsp Ht')
    as (short_ma & long_ma & M1 & M2 & Hma).
  rewrite E', M1, M2. unfold MAC.set_last_signal.
  cbn [MAC._short_prices MAC._long_prices MAC._short_window MAC._long_window
       MAC._last_signal].
  destruct s; cbn [ahead] in Hma.
  - assert (P : Qltb long_ma short_ma = true) by now apply Qltb_true.
    rewrite P. cbn [andb].
    destruct (Strategies.differs last BUY); [reflexivity|].
    assert (N : Qltb short_ma long_ma = false)
      by (apply Qltb_false; now apply Qlt_le_weak).
    now rewrite N.
  - assert (N : Qltb long_ma short_ma = false)
      by (apply Qltb_false; now apply Qlt_le_weak).
    assert (P : Qltb short_ma long_ma = true) by now apply Qltb_true.
    rewrite N, P. cbn [andb].
    destruct (Strategies.differs last SELL); reflexivity.
Qed.

Lemma MAC_trend_steady (s : Side) (short_window long_window : Z)
    (ticks : list MarketDataPoint.t) :
  (1 <= short_window < long_window)%Z ->
  forall short_prices long_prices : list Q,
    windows_nested short_window long_window short_prices long_prices ->
    (long_window - 1 <= Z.of_nat (length long_prices))%Z ->
    trend s (long_prices ++ map MarketDataPoint.price ticks) ->
    exists self',
      feed MAC.generate_signals
        {| MAC._short_window := short_window; MAC._long_window := long_window;
           MAC._short_prices := short_prices; MAC._long_prices := long_prices;
           MAC._last_signal := Some s |} ticks
      = (self', inr (silent (length ticks))).
Proof.
  intros Hw. induction ticks as [|tick rest IH]; intros sp lp Hn Hlen Ht.
  - eexists. reflexivity.
  - cbn [map] in Ht.
    destruct (MAC_trend_step s short_window long_window sp lp _ (Some s) tick
                Hw Hn Hlen Ht) as (sp' & lp' & G & Hn' & Ln & Ht').
    rewrite differs_same in G.
    destruct (IH sp' lp' Hn') as (self' & E); [lia | exact Ht' |].
    exists self'. cbn [feed]. now rewrite G, E.
Qed.

(** X18: on prices that rise from tick to tick a crossover strategy whose
    short window is shorter than its long window buys once, at the tick where
    the long window is full, and then stays silent for as long as the rise
    lasts; on falling prices it sells once, at that tick. *)
Theorem crossover_on_a_trend (s : Side) (short_window long_window : Z)
    (self : MAC.t) (ticks : list MarketDataPoint.t) :
  (1 <= short_window < long_window)%Z ->
  MAC.init short_window long_window = inr self ->
  (long_window <= Z.of_nat (length ticks))%Z ->
  trend s (map MarketDataPoint.price ticks) ->
  exists self',
    feed MAC.generate_signals self ticks
    = (self', inr (silent (Z.to_nat (long_window - 1))
                   ++ [s] :: silent (length ticks - Z.to_nat long_window))).
Proof.
  intros Hw Hi Hlen Ht. apply MAC_init_inr in Hi as (_ & _ & ->).
  set (k := Z.to_nat (long_window - 1)).
  remember (firstn k ticks) as first eqn:Hf.
  assert (Hk : length first = k) by (subst first; apply firstn_length_le; lia).
  destruct (skipn k ticks) as [|tick rest] eqn:Sk.
  { apply (f_equal (@length _)) in Sk. rewrite length_skipn in Sk. simpl in Sk. lia. }
  assert (Hr : length rest = (length ticks - Z.to_nat long_window)%nat).
  { apply (f_equal (@length _)) in Sk. rewrite length_skipn in Sk. simpl in Sk. lia. }
  rewrite <- Hr.
  assert (Tk : ticks = first ++ tick :: rest).
  { rewrite Hf, <- Sk. symmetry. apply firstn_skipn. }
  clear Hf Sk Hr Hlen. subst ticks.
  rewrite map_app in Ht. cbn [map] in Ht.
  assert (N0 : windows_nested short_window long_window [] []).
  { split; [simpl; lia|]. split; [simpl; lia|]. exists []. now split. }
  destruct (MAC_quiet_state short_window long_window None first ltac:(lia) [] [] N0)
    as (sp1 & Q1 & N1); [simpl; lia|].
  cbn [app] in Q1, N1. rewrite Hk in Q1.
  destruct (MAC_trend_step s short_window long_window sp1
              (map MarketDataPoint.price first)
              (map MarketDataPoint.price rest) None tick Hw N1)
    as (sp2 & lp2 & G & N2 & Ln & Ht'); [rewrite length_map, Hk; lia | exact Ht |].
  rewrite differs_None in G.
  destruct (MAC_trend_steady s short_window long_window rest Hw sp2 lp2 N2)
    as (self' & E); [lia | exact Ht' |].
  exists self'.
  apply (feed_app _ _ _ _ _ _ _ _ Q1).
  cbn [feed]. now rewrite G, E.
Qed.

Lemma crossover_on_a_trend_witness :
  exists self',
    feed MAC.generate_signals sample_MAC (ticks_of_prices [120; 110; 100; 90])
    = (self', inr [[]; [SELL]; []; []]).
Proof.
  apply (crossover_on_a_trend SELL 1%Z 2%Z sample_MAC
           (ticks_of_prices [120; 110; 100; 90])).
  - lia.
  - reflexivity.
  - simpl. lia.
  - repeat constructor.
Defined.

(** ** The reporter *)

Lemma simulation_loop_samples (cfg : Runner.Config) (engine : MatchingEngine.t)
    (ticks : list (MarketDataPoint.t * list (Side * Runner.Env)))
    (w : Runner.World) :
  exists samples,
    Portfolio.trades (Runner.portfolio (snd (Runner.simulation_loop cfg engine ticks w)))
    = Portfolio.trades (Runner.portfolio w) ++ samples
    /\ map fst samples = map (fun t => MarketDataPoint.timestamp (fst t)) ticks.
Proof.
  revert w. induction ticks as [|[tick sigs] rest IH]; intros w.
  - exists []. simpl. now rewrite app_nil_r.
  - destruct (process_signals_returns cfg engine tick sigs w) as (w1 & E1 & _ & T1).
    destruct (IH (snd (Runner.record_equity tick w1))) as (samples & G & Ts).
    eexists (_ :: samples). simpl.
    unfold Runner.process_tick, Runner.bind. rewrite E1.
    unfold Runner.record_equity in *.
    cbn [fst snd Runner.portfolio Portfolio.append_trade Portfolio.trades] in *.
    rewrite G, T1, <- app_assoc. simpl. split; [reflexivity|].
    now rewrite Ts.
Qed.

(** X19: the reporter needs two ticks.  After a run over no tick no reporter
    is made; after a run over exactly one tick the constructor of the reporter
    raises [ValueError], which ends [run_backtest_simulation] with that
    exception although the simulation itself went through; after a run over
    two ticks or more the reporter is constructed, with the timestamps of the
    ticks. *)
Theorem reporter_needs_two_ticks (cfg : Runner.Config)
    (ticks : list (MarketDataPoint.t * list (Side * Runner.Env))) :
  let w := snd (Runner.run_backtest_simulation cfg ticks) in
  make_reporter w
  = match ticks with
    | [] => Return None
    | [_] =>
        Raise (ValueError "Equity curve is empty or insufficient for analysis. Cannot generate report.")
    | _ =>
        Return (Some {| PerformanceReporter.equity_curve :=
                          Portfolio.trades (Runner.portfolio w);
                        PerformanceReporter.timestamps :=
                          map (fun t => MarketDataPoint.timestamp (fst t)) ticks;
                        PerformanceReporter.equity_values :=
                          map snd (Portfolio.trades (Runner.portfolio w)) |})
    end.
Proof.
  intros w. subst w. unfold Runner.run_backtest_simulation.
  destruct (simulation_loop_samples cfg (MatchingEngine.init 0.0001) ticks
              (Runner.initial_world cfg)) as (samples & E & Ts).
  cbn [Runner.initial_world Runner.portfolio Portfolio.set_om Portfolio.init
       Portfolio.trades app] in E.
  unfold make_reporter. rewrite E.
  destruct ticks as [|t1 [|t2 rest]]; destruct samples as [|s1 [|s2 samples]];
    try discriminate Ts; try reflexivity.
  unfold PerformanceReporter.init.
  destruct (Z.ltb_spec (Z.of_nat (length (s1 :: s2 :: samples))) 2) as [L|_];
    [simpl in L; lia|].
  now rewrite Ts.
Qed.

Lemma earlier_snoc (a b x : Q) (seen : list Q) :
  earlier a b (seen ++ [x]) -> earlier a b seen \/ (b = x /\ In a seen).
Proof.
  intros (l1 & l2 & l3 & E).
  destruct (exists_last (l := b :: l3) ltac:(discriminate)) as (front & y & Ey).
  destruct front as [|b' front].
  - right. destruct l3; [|destruct l3; discriminate Ey].
    injection Ey as ->.
    assert (E' : seen ++ [x] = (l1 ++ a :: l2) ++ [y])
      by (rewrite E, <- app_assoc; reflexivity).
    apply app_inj_tail in E' as [-> ->].
    split; [reflexivity | apply in_elt].
  - left. cbn [app] in Ey. injection Ey as <- Ey. rewrite Ey in E.
    assert (E' : seen ++ [x] = (l1 ++ a :: l2 ++ b :: front) ++ [y]).
    { rewrite E, <- app_assoc. cbn [app]. now rewrite <- app_assoc. }
    apply app_inj_tail in E' as [-> _].
    now exists l1, l2, front.
Qed.

Lemma earlier_app (a b : Q) (seen rest : list Q) :
  earlier a b seen -> earlier a b (seen ++ rest).
Proof.
  intros (l1 & l2 & l3 & ->). exists l1, l2, (l3 ++ rest).
  now rewrite <- !app_assoc, <- !app_comm_cons, <- app_assoc.
Qed.

Lemma decline_monotone (a p x : Q) :
  0 < a -> a <= p -> 0 < x -> (a - x) / a <= (p - x) / p.
Proof.
  intros Ha Hp Hx.
  assert (P : 0 < p) by lra.
  set (r := x / a).
  assert (Er : x == r * a) by (unfold r; field; lra).
  assert (Hr : 0 <= r) by (apply Qle_shift_div_l; lra).
  assert (E1 : (a - x) / a == 1 - r) by (unfold r; field; lra).
  rewrite E1. apply Qle_shift_div_l; [exact P|].
  assert (M : r * a <= r * p).
  { destruct (Qle_lt_or_eq _ _ Hr) as [L|L].
    - now apply Qmult_le_l.
    - rewrite <- L. lra. }
  lra.
Qed.

Lemma drawdown_step_invariant (seen : list Q) (peak max_drawdown x : Q) :
  drawdown_invariant seen peak max_drawdown -> 0 < x ->
  drawdown_invariant (seen ++ [x])
    (fst (PerformanceReporter.drawdown_step (peak, max_drawdown) x))
    (snd (PerformanceReporter.drawdown_step (peak, max_drawdown) x)).
Proof.
  intros (Hall & Hin & H0 & Hle & Hat) Hx.
  assert (Hpeak : 0 < peak).
  { rewrite List.Forall_forall in Hall. now apply (Hall peak). }
  unfold PerformanceReporter.drawdown_step. cbn [fst snd].
  set (peak' := if Qltb peak x then x else peak).
  assert (Hp' : peak <= peak' /\ x <= peak'
                /\ (peak' = peak \/ (peak' = x /\ peak < x))).
  { unfold peak'. destruct (Qltb peak x) eqn:C.
    - apply Qltb_true in C. repeat split; try lra. now right.
    - apply Qltb_false in C. repeat split; try lra. now left. }
  destruct Hp' as (Hp1 & Hp2 & Hp3).
  assert (Hp0 : 0 < peak') by lra.
  set (dd := (peak' - x) / peak').
  assert (Hdd : 0 <= dd) by (apply Qle_shift_div_l; lra).
  set (mdd' := if Qltb max_drawdown dd then dd else max_drawdown).
  assert (Hm : max_drawdown <= mdd' /\ dd <= mdd'
               /\ (mdd' = max_drawdown \/ (mdd' = dd /\ max_drawdown < dd))).
  { unfold mdd'. destruct (Qltb max_drawdown dd) eqn:C.
    - apply Qltb_true in C. repeat split; try lra. now right.
    - apply Qltb_false in C. repeat split; try lra. now left. }
  destruct Hm as (Hm1 & Hm2 & Hm3).
  split; [|split; [|split; [|split]]].
  - apply List.Forall_app. split.
    + eapply List.Forall_impl; [|exact Hall]. cbn beta. intros a Ha. lra.
    + constructor; [lra | constructor].
  - apply in_or_app. destruct Hp3 as [-> | [-> _]]; [now left | right; now left].
  - lra.
  - intros a b Hab. apply earlier_snoc in Hab as [Hab | [-> Ha]].
    + specialize (Hle a b Hab). lra.
    + rewrite List.Forall_forall in Hall. specialize (Hall a Ha).
      assert (D : (a - x) / a <= dd) by (apply decline_monotone; lra).
      lra.
  - destruct Hm3 as [-> | [-> Hlt]].
    + destruct Hat as [Z | (a & b & Hab & E)]; [now left|].
      right. exists a, b. split; [now apply earlier_app | exact E].
    + right. destruct Hp3 as [Ep | [Ep _]].
      * exists peak, x. split; [|unfold dd; now rewrite Ep].
        apply in_split in Hin as (l1 & l2 & ->). exists l1, l2, [].
        now rewrite <- app_assoc.
      * exfalso. assert (Z : dd == 0) by (unfold dd; rewrite Ep; field; lra).
        lra.
Qed.

Lemma drawdown_loop_invariant (rest : list Q) :
  forall (seen : list Q) (peak max_drawdown : Q),
    drawdown_invariant seen peak max_drawdown ->
    Forall (fun e => 0 < e) rest ->
    drawdown_invariant (seen ++ rest)
      (fst (fold_left PerformanceReporter.drawdown_step rest (peak, max_drawdown)))
      (snd (fold_left PerformanceReporter.drawdown_step rest (peak, max_drawdown))).
Proof.
  induction rest as [|x rest IH]; intros seen peak mdd Hinv Hpos.
  - now rewrite app_nil_r.
  - apply Forall_cons_iff in Hpos as [Hx Hpos].
    pose proof (drawdown_step_invariant seen peak mdd x Hinv Hx) as Hstep.
    cbn [fold_left].
    destruct (PerformanceReporter.drawdown_step (peak, mdd) x) as [peak' mdd'].
    cbn [fst snd] in Hstep.
    replace (seen ++ x :: rest) with ((seen ++ [x]) ++ rest)
      by now rewrite <- app_assoc.
    now apply IH.
Qed.

(** X20: for an equity curve of positive values the maximum drawdown of the
    report is the largest relative decline from a value to a later one: no
    decline [(a - b) / a] from a value [a] to a later value [b] exceeds it, it
    is 0 or the decline of one such pair, and it lies in [0, 1). *)
Theorem max_drawdown_is_largest_decline (equity_values : list Q) :
  equity_values <> [] ->
  Forall (fun e => 0 < e) equity_values ->
  exists max_drawdown,
    PerformanceReporter.max_drawdown equity_values = Some max_drawdown
    /\ 0 <= max_drawdown /\ max_drawdown < 1
    /\ (forall a b, earlier a b equity_values -> (a - b) / a <= max_drawdown)
    /\ (max_drawdown == 0
        \/ exists a b,
            earlier a b equity_values /\ max_drawdown == (a - b) / a).
Proof.
  intros Hne Hpos. destruct equity_values as [|first rest]; [congruence|].
  eexists. split; [reflexivity|].
  pose proof Hpos as Hpos'. apply Forall_cons_iff in Hpos' as [Hf Hrest].
  assert (S1 : PerformanceReporter.drawdown_step (first, 0) first = (first, 0)).
  { unfold PerformanceReporter.drawdown_step.
    rewrite (Qltb_irrefl first first) by reflexivity.
    assert (N : Qltb 0 ((first - first) / first) = false).
    { apply Qltb_irrefl. field. lra. }
    now rewrite N. }
  cbn [fold_left]. rewrite S1.
  assert (I0 : drawdown_invariant [first] first 0).
  { split; [|split; [|split; [|split]]].
    - constructor; [lra | constructor].
    - now left.
    - lra.
    - intros a b (l1 & l2 & l3 & E). apply (f_equal (@length _)) in E.
      rewrite length_app in E. cbn [length] in E. rewrite length_app in E.
      cbn [length] in E. lia.
    - now left. }
  pose proof (drawdown_loop_invariant rest [first] first 0 I0 Hrest) as Hinv.
  cbn [app] in Hinv.
  destruct Hinv as (Hall & _ & H0 & Hle & Hat).
  split; [exact H0|]. split; [|split; [exact Hle | exact Hat]].
  destruct Hat as [Z | (a & b & (l1 & l2 & l3 & E) & Eq)]; [lra|].
  rewrite Eq. rewrite List.Forall_forall in Hpos.
  assert (Ha : 0 < a) by (apply Hpos; rewrite E; apply in_elt).
  assert (Hb : 0 < b).
  { apply Hpos. rewrite E. apply in_or_app. right. right. apply in_elt. }
  apply Qlt_shift_div_r; lra.
Qed.

Lemma max_drawdown_is_largest_decline_witness :
  exists max_drawdown,
    PerformanceReporter.max_drawdown [100; 120; 90; 110] = Some max_drawdown
    /\ 0 <= max_drawdown /\ max_drawdown < 1
    /\ (forall a b, earlier a b [100; 120; 90; 110] ->
                    (a - b) / a <= max_drawdown)
    /\ (max_drawdown == 0
        \/ exists a b,
            earlier a b [100; 120; 90; 110] /\ max_drawdown == (a - b) / a).
Proof.
  apply (max_drawdown_is_largest_decline [100; 120; 90; 110]).
  - discriminate.
  - repeat constructor.
Defined.

(** ** Price-time priority *)

Lemma LimitOrder_lt_spec (a b : LimitOrder.t) :
  LimitOrder.lt a b = true
  <-> LimitOrder.price_key a < LimitOrder.price_key b
      \/ (LimitOrder.price_key a == LimitOrder.price_key b
          /\ LimitOrder.timestamp_key a < LimitOrder.timestamp_key b).
Proof.
  unfold LimitOrder.lt.
  destruct (Qeq_bool (LimitOrder.price_key a) (LimitOrder.price_key b)) eqn:E;
    cbn [negb]; rewrite Qltb_true.
  - apply Qeq_bool_iff in E. split; [now right|].
    intros [L | [_ L]]; [lra | exact L].
  - apply Qeq_bool_neq in E. split; [now left|].
    intros [L | [C _]]; [exact L | contradiction].
Qed.

(** X21: [LimitOrder.__lt__] is a strict total order on the pair of keys,
    price first and time second: no limit order comes before itself, the
    comparison is transitive, and of two limit orders one comes before the
    other unless both keys are equal. *)
Theorem price_time_priority (a b c : LimitOrder.t) :
  LimitOrder.lt a a = false
  /\ (LimitOrder.lt a b = true -> LimitOrder.lt b a = false)
  /\ (LimitOrder.lt a b = true -> LimitOrder.lt b c = true ->
      LimitOrder.lt a c = true)
  /\ (LimitOrder.lt a b = false -> LimitOrder.lt b a = false ->
      LimitOrder.price_key a == LimitOrder.price_key b
      /\ LimitOrder.timestamp_key a == LimitOrder.timestamp_key b).
Proof.
  split; [|split; [|split]].
  - apply not_true_iff_false. rewrite LimitOrder_lt_spec. lra.
  - intros H. apply not_true_iff_false. rewrite LimitOrder_lt_spec in *. lra.
  - rewrite !LimitOrder_lt_spec. lra.
  - intros H1 H2. apply not_true_iff_false in H1, H2.
    rewrite LimitOrder_lt_spec in H1, H2. lra.
Qed.

Lemma price_time_priority_witness :
  LimitOrder.lt
    {| LimitOrder.price_key := 100; LimitOrder.timestamp_key := 1;
       LimitOrder.order := Order.init "AAPL" 10 100 SELL 1 |}
    {| LimitOrder.price_key := 101; LimitOrder.timestamp_key := 0;
       LimitOrder.order := Order.init "AAPL" 10 101 SELL 0 |} = true.
Proof.
  apply (proj1 (proj2 (proj2 (price_time_priority
           {| LimitOrder.price_key := 100; LimitOrder.timestamp_key := 1;
              LimitOrder.order := Order.init "AAPL" 10 100 SELL 1 |}
           {| LimitOrder.price_key := 100; LimitOrder.timestamp_key := 2;
              LimitOrder.order := Order.init "AAPL" 10 100 SELL 2 |}
           {| LimitOrder.price_key := 101; LimitOrder.timestamp_key := 0;
              LimitOrder.order := Order.init "AAPL" 10 101 SELL 0 |}))));
    reflexivity.
Defined.

(** ** The order book *)

Lemma key_le_refl (a : heapq.item) : key_le a a.
Proof. right. split; [reflexivity | apply Qle_refl]. Qed.

Lemma key_le_trans (a b c : heapq.item) : key_le a b -> key_le b c -> key_le a c.
Proof. unfold key_le. intros [H1 | [E1 H1]] [H2 | [E2 H2]]; lra. Qed.

Lemma key_le_price (a b : heapq.item) :
  key_le a b -> heapq.price_key a <= heapq.price_key b.
Proof. unfold key_le. intros [H | [E _]]; lra. Qed.

Lemma heapq_lt_true (a b : heapq.item) : heapq.lt a b = inr true -> key_le a b.
Proof.
  unfold heapq.lt, key_le.
  destruct (Qeq_bool (heapq.price_key a) (heapq.price_key b)) eqn:E1; cbn [negb].
  - apply Qeq_bool_iff in E1.
    destruct (Qeq_bool (heapq.timestamp_key a) (heapq.timestamp_key b)) eqn:E2;
      cbn [negb].
    + destruct (Order_eq _ _); discriminate.
    + intros H. injection H as H. apply Qltb_true in H. right. split; [exact E1 | lra].
  - intros H. injection H as H. apply Qltb_true in H. now left.
Qed.

Lemma heapq_lt_false (a b : heapq.item) : heapq.lt a b = inr false -> key_le b a.
Proof.
  unfold heapq.lt, key_le.
  destruct (Qeq_bool (heapq.price_key a) (heapq.price_key b)) eqn:E1; cbn [negb].
  - apply Qeq_bool_iff in E1.
    destruct (Qeq_bool (heapq.timestamp_key a) (heapq.timestamp_key b)) eqn:E2;
      cbn [negb].
    + apply Qeq_bool_iff in E2. intros _. right. split; lra.
    + intros H. injection H as H. apply Qltb_false in H. right. split; lra.
  - apply Qeq_bool_neq in E1. intros H. injection H as H. apply Qltb_false in H.
    left. destruct (Qle_lt_or_eq _ _ H) as [L|L]; [exact L|].
    exfalso. apply E1. lra.
Qed.

Lemma heapq_lt_comparable (a b : heapq.item) :
  ~ heapq.timestamp_key a == heapq.timestamp_key b ->
  exists r, heapq.lt a b = inr r.
Proof.
  intros Hne. unfold heapq.lt.
  destruct (negb (Qeq_bool (heapq.price_key a) (heapq.price_key b)));
    [eexists; reflexivity|].
  destruct (Qeq_bool (heapq.timestamp_key a) (heapq.timestamp_key b)) eqn:E2;
    cbn [negb]; [|eexists; reflexivity].
  apply Qeq_bool_iff in E2. contradiction.
Qed.

Lemma parent_below (pos : nat) : (0 < pos)%nat -> (Nat.div2 (pos - 1) < pos)%nat.
Proof.
  intros H. destruct (pos - 1)%nat as [|k] eqn:E.
  - simpl. lia.
  - pose proof (Nat.div2_decr (S k) k (Nat.le_refl _)). lia.
Qed.

Lemma exchange_lookup (heap : list heapq.item) (pos parentpos i : nat)
    (newitem parent : heapq.item) :
  parentpos <> pos ->
  heap !! pos = Some newitem -> heap !! parentpos = Some parent ->
  <[parentpos := newitem]> (<[pos := parent]> heap) !! i
  = if decide (i = parentpos) then Some newitem
    else if decide (i = pos) then Some parent
    else heap !! i.
Proof.
  intros Hne Hpos Hpar.
  pose proof (lookup_lt_Some _ _ _ Hpos) as Lpos.
  pose proof (lookup_lt_Some _ _ _ Hpar) as Lpar.
  destruct (decide (i = parentpos)) as [->|N1].
  - apply list_lookup_insert_eq. now rewrite length_insert.
  - rewrite list_lookup_insert_ne by congruence.
    destruct (decide (i = pos)) as [->|N2].
    + now apply list_lookup_insert_eq.
    + now rewrite list_lookup_insert_ne by congruence.
Qed.

Lemma siftdown_spec (fuel : nat) :
  forall (heap : list heapq.item) (pos : nat) (newitem : heapq.item),
    (pos <= fuel)%nat ->
    heap !! pos = Some newitem ->
    (forall r i x, i <> pos -> heap !! 0%nat = Some r -> heap !! i = Some x ->
                   key_le r x) ->
    let heap' := fst (heapq.siftdown fuel heap pos) in
    let e := snd (heapq.siftdown fuel heap pos) in
    (forall x, (exists i, heap' !! i = Some x) <-> (exists i, heap !! i = Some x))
    /\ (e = None -> root_min heap')
    /\ ((forall i x, i <> pos -> heap !! i = Some x ->
                     ~ heapq.timestamp_key newitem == heapq.timestamp_key x) ->
        e = None).
Proof.
  induction fuel as [|fuel IH]; intros heap pos newitem Hfuel Hpos Hmin;
    cbn zeta.
  - assert (pos = 0)%nat as -> by lia. cbn [heapq.siftdown fst snd].
    split; [reflexivity|]. split; [|reflexivity].
    intros _ r i x Hr Hx. destruct (decide (i = 0%nat)) as [->|N].
    + rewrite Hr in Hx. injection Hx as <-. apply key_le_refl.
    + now apply (Hmin r i x).
  - cbn [heapq.siftdown].
    destruct (Nat.ltb_spec 0 pos) as [P|P].
    2:{ assert (pos = 0)%nat as -> by lia. cbn [fst snd].
        split; [reflexivity|]. split; [|reflexivity].
        intros _ r i x Hr Hx. destruct (decide (i = 0%nat)) as [->|N].
        - rewrite Hr in Hx. injection Hx as <-. apply key_le_refl.
        - now apply (Hmin r i x). }
    pose proof (parent_below pos P) as Hpp.
    set (parentpos := Nat.div2 (pos - 1)) in *.
    rewrite Hpos.
    destruct (lookup_lt_is_Some_2 heap parentpos) as [parent Hpar].
    { apply lookup_lt_Some in Hpos. lia. }
    rewrite Hpar.
    destruct (heapq.lt newitem parent) as [err|[|]] eqn:C; cbn [fst snd].
    + split; [reflexivity|]. split; [discriminate|].
      intros Hcmp. exfalso.
      destruct (heapq_lt_comparable newitem parent) as [r Hr].
      * apply (Hcmp parentpos); [lia | exact Hpar].
      * congruence.
    + assert (Hx : forall i, <[parentpos := newitem]> (<[pos := parent]> heap) !! i
                   = if decide (i = parentpos) then Some newitem
                     else if decide (i = pos) then Some parent
                     else heap !! i).
      { intros i. apply exchange_lookup; [lia | assumption | assumption]. }
      set (heap2 := <[parentpos := newitem]> (<[pos := parent]> heap)) in *.
      apply heapq_lt_true in C.
      destruct (IH heap2 parentpos newitem) as (Hel & Hroot & Hok).
      * lia.
      * rewrite Hx. now rewrite decide_True.
      * intros r i x Hi Hr Hxi. rewrite Hx in Hr, Hxi.
        rewrite (decide_False (P := i = parentpos)) in Hxi by exact Hi.
        assert (Rx : forall r0, heap !! 0%nat = Some r0 -> key_le r0 parent).
        { intros r0 Hr0. destruct (decide (parentpos = 0%nat)) as [Ez|Nz].
          - rewrite Ez in Hpar. rewrite Hr0 in Hpar. injection Hpar as ->.
            apply key_le_refl.
          - apply (Hmin r0 parentpos parent); [lia | exact Hr0 | exact Hpar]. }
        destruct (decide (0%nat = parentpos)) as [Ez|Nz].
        -- injection Hr as <-.
           destruct (decide (i = pos)) as [->|Np].
           ++ injection Hxi as <-. exact C.
           ++ apply (key_le_trans _ parent); [exact C|].
              rewrite <- Ez in Hpar.
              apply (Hmin parent i x); [exact Np | exact Hpar | exact Hxi].
        -- rewrite (decide_False (P := 0%nat = pos)) in Hr by lia.
           destruct (decide (i = pos)) as [->|Np].
           ++ injection Hxi as <-. now apply Rx.
           ++ apply (Hmin r i x); assumption.
      * split; [|split].
        -- intros x. rewrite Hel. split; intros [i Hi].
           ++ rewrite Hx in Hi.
              destruct (decide (i = parentpos)); [exists pos; congruence|].
              destruct (decide (i = pos)); [exists parentpos; congruence|].
              now exists i.
           ++ destruct (decide (i = pos)) as [->|Np].
              ** exists parentpos. rewrite Hx, decide_True by reflexivity. congruence.
              ** destruct (decide (i = parentpos)) as [->|Npp].
                 --- exists pos. rewrite Hx, decide_False by lia.
                     rewrite decide_True by reflexivity. congruence.
                 --- exists i. rewrite Hx. now rewrite !decide_False by assumption.
        -- exact Hroot.
        -- intros Hcmp. apply Hok. intros i x Hi Hxi. rewrite Hx in Hxi.
           rewrite (decide_False (P := i = parentpos)) in Hxi by exact Hi.
           destruct (decide (i = pos)) as [->|Np].
           ++ injection Hxi as <-. apply (Hcmp parentpos); [lia | exact Hpar].
           ++ now apply (Hcmp i).
    + split; [reflexivity|]. split; [|reflexivity].
      apply heapq_lt_false in C.
      intros _ r i x Hr Hxi. destruct (decide (i = pos)) as [->|Np].
      * rewrite Hpos in Hxi. injection Hxi as <-.
        apply (key_le_trans _ parent); [|exact C].
        destruct (decide (parentpos = 0%nat)) as [Ez|Nz].
        -- rewrite Ez in Hpar. rewrite Hr in Hpar. injection Hpar as ->.
           apply key_le_refl.
        -- apply (Hmin r parentpos parent); [lia | exact Hr | exact Hpar].
      * now apply (Hmin r i x).
Qed.

Lemma In_lookup {A : Type} (l : list A) (x : A) :
  In x l <-> exists i, l !! i = Some x.
Proof. now rewrite <- list_elem_of_In, list_elem_of_lookup. Qed.

Lemma heappush_spec (heap : list heapq.item) (x : heapq.item) :
  root_min heap ->
  let heap' := fst (heapq.heappush heap x) in
  let e := snd (heapq.heappush heap x) in
  (forall y, In y heap' <-> y = x \/ In y heap)
  /\ (e = None -> root_min heap')
  /\ ((forall y, In y heap ->
                 ~ heapq.timestamp_key x == heapq.timestamp_key y) ->
      e = None).
Proof.
  intros Hmin. cbn zeta. unfold heapq.heappush.
  assert (Hlast : (heap ++ [x]) !! length heap = Some x).
  { rewrite lookup_app_r by lia. now rewrite Nat.sub_diag. }
  assert (Hother : forall i y, i <> length heap -> (heap ++ [x]) !! i = Some y ->
                               heap !! i = Some y).
  { intros i y Hi Hy. pose proof (lookup_lt_Some _ _ _ Hy) as L.
    rewrite length_app in L. simpl in L.
    now rewrite lookup_app_l in Hy by lia. }
  destruct (siftdown_spec (length heap) (heap ++ [x]) (length heap) x
              (Nat.le_refl _) Hlast) as (Hel & Hroot & Hok).
  { intros r i y Hi Hr Hy. apply Hother in Hy; [|exact Hi].
    destruct (decide (0%nat = length heap)) as [Ez|Nz].
    - destruct heap; [destruct i; discriminate Hy | discriminate Ez].
    - apply Hother in Hr; [|exact Nz]. now apply (Hmin r i y). }
  split; [|split].
  - intros y. rewrite In_lookup, Hel, <- In_lookup, in_app_iff. simpl.
    split; [intros [H | [H | []]] | intros [H | H]]; auto.
  - exact Hroot.
  - intros Hcmp. apply Hok. intros i y Hi Hy. apply Hother in Hy; [|exact Hi].
    apply Hcmp. apply In_lookup. now exists i.
Qed.

Lemma add_order_spec (now : Q) (order : Order.t) (done : list (Q * Order.t))
    (book : OrderBook.t) :
  book_of done book ->
  Forall (fun c => ~ now == fst c) done ->
  snd (OrderBook.add_order now book order) = None
  /\ book_of (done ++ [(now, order)]) (fst (OrderBook.add_order now book order)).
Proof.
  intros (Hb & Ha & Eb & Ea) Hclock.
  assert (Hcalls : forall (P : Q * Order.t -> Prop),
             (exists c, In c (done ++ [(now, order)]) /\ P c)
             <-> P (now, order) \/ exists c, In c done /\ P c).
  { intros P. split.
    - intros (c & Hc & Pc). apply in_app_iff in Hc as [Hc | [<- | []]]; eauto.
    - intros [Pc | (c & Hc & Pc)].
      + exists (now, order). split; [apply in_app_iff; right; now left | exact Pc].
      + exists c. split; [apply in_app_iff; now left | exact Pc]. }
  unfold OrderBook.add_order.
  destruct (Order.side order) eqn:Hside; cbn [is_BUY].
  - pose proof (heappush_spec (OrderBook.bids book) (- Order.price order, now, order)
                  Hb) as (Hel & Hroot & Hok).
    destruct (heapq.heappush (OrderBook.bids book) (- Order.price order, now, order))
      as [heap e]. cbn [fst snd] in *.
    assert (He : e = None).
    { apply Hok. intros y Hy. apply Eb in Hy as (c & Hc & _ & ->).
      rewrite List.Forall_forall in Hclock. now apply Hclock. }
    split; [exact He|]. split; [now apply Hroot|]. split; [exact Ha|].
    cbn [OrderBook.bids OrderBook.asks]. split.
    + intros y. rewrite Hel, Eb, (Hcalls (fun c => Order.side (snd c) = BUY /\ y = item_of c)).
      unfold item_of at 2. cbn [fst snd]. rewrite Hside. cbn [is_BUY]. tauto.
    + intros y. rewrite Ea, (Hcalls (fun c => Order.side (snd c) = SELL /\ y = item_of c)).
      cbn [fst snd]. rewrite Hside. split; [auto | intros [[C _] | H]; [discriminate C | exact H]].
  - pose proof (heappush_spec (OrderBook.asks book) (Order.price order, now, order)
                  Ha) as (Hel & Hroot & Hok).
    destruct (heapq.heappush (OrderBook.asks book) (Order.price order, now, order))
      as [heap e]. cbn [fst snd] in *.
    assert (He : e = None).
    { apply Hok. intros y Hy. apply Ea in Hy as (c & Hc & _ & ->).
      rewrite List.Forall_forall in Hclock. now apply Hclock. }
    split; [exact He|]. split; [exact Hb|]. split; [now apply Hroot|].
    cbn [OrderBook.bids OrderBook.asks]. split.
    + intros y. rewrite Eb, (Hcalls (fun c => Order.side (snd c) = BUY /\ y = item_of c)).
      cbn [fst snd]. rewrite Hside. split; [auto | intros [[C _] | H]; [discriminate C | exact H]].
    + intros y. rewrite Hel, Ea, (Hcalls (fun c => Order.side (snd c) = SELL /\ y = item_of c)).
      unfold item_of at 2. cbn [fst snd]. rewrite Hside. cbn [is_BUY]. tauto.
Qed.

Lemma add_orders_spec (calls : list (Q * Order.t)) :
  forall (done : list (Q * Order.t)) (book : OrderBook.t),
    book_of done book ->
    StronglySorted Qlt (map fst (done ++ calls)) ->
    snd (add_orders calls book) = None
    /\ book_of (done ++ calls) (fst (add_orders calls book)).
Proof.
  induction calls as [|[now order] rest IH]; intros done book Hbook Hclock.
  - rewrite app_nil_r. now split.
  - cbn [add_orders].
    destruct (add_order_spec now order done book Hbook) as (He & Hbook').
    { rewrite map_app in Hclock. cbn [map fst] in Hclock.
      rewrite List.Forall_forall. intros c Hc E.
      assert (L : fst c < now).
      { clear -Hclock Hc. induction done as [|d done IHd]; [destruct Hc|].
        cbn [map app] in Hclock. apply StronglySorted_inv in Hclock as [Hs Hd].
        destruct Hc as [-> | Hc]; [|now apply IHd].
        rewrite List.Forall_forall in Hd. apply Hd. apply in_elt. }
      lra. }
    destruct (OrderBook.add_order now book order) as [book' e]. cbn [fst snd] in *.
    subst e.
    replace (done ++ (now, order) :: rest) with ((done ++ [(now, order)]) ++ rest)
      in * by now rewrite <- app_assoc.
    now apply IH.
Qed.

Lemma book_of_init : book_of [] OrderBook.init.
Proof.
  split; [|split; [|split]].
  - intros r i x Hr. discriminate Hr.
  - intros r i x Hr. discriminate Hr.
  - intros y. split; [intros [] | intros (c & [] & _)].
  - intros y. split; [intros [] | intros (c & [] & _)].
Qed.

(** X22: the order book finds the best prices.  When the clock readings of
    the calls increase, every [add_order] goes through, and afterwards
    [check_match] answers [True] exactly when some BUY order added to the
    book bids at least the price some SELL order added to it asks. *)
Theorem order_book_crossing (calls : list (Q * Order.t)) :
  StronglySorted Qlt (map fst calls) ->
  let book := fst (add_orders calls OrderBook.init) in
  snd (add_orders calls OrderBook.init) = None
  /\ (OrderBook.check_match book = true
      <-> exists bid ask,
          In bid calls /\ In ask calls
          /\ Order.side (snd bid) = BUY /\ Order.side (snd ask) = SELL
          /\ Order.price (snd ask) <= Order.price (snd bid)).
Proof.
  intros Hclock. cbn zeta.
  destruct (add_orders_spec calls [] OrderBook.init book_of_init Hclock)
    as (He & Hb & Ha & Eb & Ea).
  cbn [app] in *. split; [exact He|].
  destruct (add_orders calls OrderBook.init) as [[bids asks] e].
  cbn [fst snd OrderBook.bids OrderBook.asks] in *.
  unfold OrderBook.check_match. cbn [OrderBook.bids OrderBook.asks].
  split.
  - destruct bids as [|best_bid bids]; [discriminate|].
    destruct asks as [|best_ask asks]; [discriminate|].
    intros H. apply Qle_bool_iff in H.
    destruct (proj1 (Eb best_bid) (or_introl eq_refl)) as (bid & Hbid & Sb & Ib).
    destruct (proj1 (Ea best_ask) (or_introl eq_refl)) as (ask & Hask & Sa & Ia).
    exists bid, ask. repeat (split; [assumption|]).
    subst best_bid best_ask. unfold item_of, heapq.price_key in H.
    rewrite Sb, Sa in H. cbn [is_BUY fst snd] in H. lra.
  - intros (bid & ask & Hbid & Hask & Sb & Sa & Hp).
    assert (Ib : In (item_of bid) bids) by (apply Eb; eauto).
    assert (Ia : In (item_of ask) asks) by (apply Ea; eauto).
    destruct bids as [|best_bid bids]; [destruct Ib|].
    destruct asks as [|best_ask asks]; [destruct Ia|].
    apply In_lookup in Ib as [i Ib]. apply In_lookup in Ia as [j Ia].
    pose proof (key_le_price _ _ (Hb best_bid i _ eq_refl Ib)) as Lb.
    pose proof (key_le_price _ _ (Ha best_ask j _ eq_refl Ia)) as La.
    unfold item_of, heapq.price_key in Lb, La. rewrite Sb in Lb. rewrite Sa in La.
    cbn [is_BUY fst snd] in Lb, La.
    apply Qle_bool_iff. unfold heapq.price_key. lra.
Qed.

Lemma order_book_crossing_witness :
  snd (add_orders [(1, sample_order BUY 10 101); (2, sample_order SELL 10 100)]
         OrderBook.init) = None
  /\ (OrderBook.check_match
        (fst (add_orders [(1, sample_order BUY 10 101); (2, sample_order SELL 10 100)]
                OrderBook.init)) = true
      <-> exists bid ask,
          In bid [(1, sample_order BUY 10 101); (2, sample_order SELL 10 100)]
          /\ In ask [(1, sample_order BUY 10 101); (2, sample_order SELL 10 100)]
          /\ Order.side (snd bid) = BUY /\ Order.side (snd ask) = SELL
          /\ Order.price (snd ask) <= Order.price (snd bid)).
Proof.
  apply (order_book_crossing
           [(1, sample_order BUY 10 101); (2, sample_order SELL 10 100)]).
  repeat constructor.
Defined.

(** X23: the order book cannot break a tie.  When two orders of the same side
    and price that differ in some field are added at the same clock reading,
    the first call goes through and the second raises [TypeError]: the heap
    falls back on comparing the orders themselves, which [Order] does not
    support. *)
Theorem add_order_tie (now : Q) (first second : Order.t) :
  Order.side first = Order.side second ->
  Order.price first == Order.price second ->
  Order_eq second first = false ->
  snd (OrderBook.add_order now OrderBook.init first) = None
  /\ snd (OrderBook.add_order now
            (fst (OrderBook.add_order now OrderBook.init first)) second)
     = Some (heapq.TypeError
               "'<' not supported between instances of 'Order' and 'Order'").
Proof.
  intros Hside Hprice Hne.
  unfold OrderBook.add_order, OrderBook.init. rewrite Hside.
  assert (Ek : forall k1 k2 : Q, k1 == k2 ->
             heapq.lt (k2, now, second) (k1, now, first)
             = inl (heapq.TypeError
                      "'<' not supported between instances of 'Order' and 'Order'")).
  { intros k1 k2 E. unfold heapq.lt, heapq.price_key, heapq.timestamp_key, heapq.order.
    cbn [fst snd].
    assert (E1 : Qeq_bool k2 k1 = true) by (apply Qeq_bool_iff; lra).
    assert (E2 : Qeq_bool now now = true) by (apply Qeq_bool_iff; reflexivity).
    now rewrite E1, E2, Hne. }
  destruct (Order.side second); cbn [is_BUY OrderBook.bids OrderBook.asks
    heapq.heappush heapq.siftdown length app fst snd].
  - split; [reflexivity|].
    cbn [Nat.ltb Nat.leb Nat.sub Nat.div2 lookup list_lookup].
    rewrite (Ek (- Order.price first) (- Order.price second)) by lra. reflexivity.
  - split; [reflexivity|].
    cbn [Nat.ltb Nat.leb Nat.sub Nat.div2 lookup list_lookup].
    rewrite (Ek (Order.price first) (Order.price second)) by lra. reflexivity.
Qed.

Lemma add_order_tie_witness :
  snd (OrderBook.add_order 1
         (fst (OrderBook.add_order 1 OrderBook.init (sample_order BUY 10 100)))
         (sample_order BUY 5 100))
  = Some (heapq.TypeError
            "'<' not supported between instances of 'Order' and 'Order'").
Proof.
  apply (add_order_tie 1 (sample_order BUY 10 100) (sample_order BUY 5 100));
    reflexivity.
Defined.

(** ** The live trader *)

Lemma process_signals_allowed (signals : list Side) (current_qty : Z) :
  order_allowed current_qty (AlpacaTrader.process_signals signals current_qty).
Proof.
  unfold AlpacaTrader.process_signals.
  destruct (last signals) as [[|]|]; cbn; [reflexivity | | exact I].
  destruct (Z.ltb_spec 0 current_qty); cbn; [|exact I].
  unfold AlpacaTrader.QTY. lia.
Qed.

(** X24: the live trader never sells short.  In every turn of its loop a SELL
    order is submitted only while a position is held, for at most the quantity
    held and at most [QTY] shares; every BUY order is for [QTY] shares. *)
Theorem trader_never_sells_short (self : AlpacaTrader.t)
    (ticks : list (MarketDataPoint.t * Z)) :
  Forall2 (fun tick submitted => order_allowed (snd tick) submitted)
    ticks (AlpacaTrader.run self ticks).
Proof.
  revert self. induction ticks as [|[tick current_qty] rest IH]; intros self.
  - constructor.
  - cbn [AlpacaTrader.run]. unfold AlpacaTrader.turn.
    destruct (MAC.generate_signals (AlpacaTrader.strategy self) tick)
      as [strategy [e|signals]].
    + constructor; [exact I | apply IH].
    + constructor; [apply process_signals_allowed | apply IH].
Qed.

Lemma MAC_trend_steady_state (s : Side) (short_window long_window : Z)
    (ticks : list MarketDataPoint.t) (rest : list Q) :
  (1 <= short_window < long_window)%Z ->
  forall short_prices long_prices : list Q,
    windows_nested short_window long_window short_prices long_prices ->
    (long_window - 1 <= Z.of_nat (length long_prices))%Z ->
    trend s (long_prices ++ map MarketDataPoint.price ticks ++ rest) ->
    exists short_prices' long_prices',
      feed MAC.generate_signals
        {| MAC._short_window := short_window; MAC._long_window := long_window;
           MAC._short_prices := short_prices; MAC._long_prices := long_prices;
           MAC._last_signal := Some s |} ticks
      = ({| MAC._short_window := short_window; MAC._long_window := long_window;
            MAC._short_prices := short_prices';
            MAC._long_prices := long_prices';
            MAC._last_signal := Some s |}, inr (silent (length ticks)))
      /\ windows_nested short_window long_window short_prices' long_prices'
      /\ (long_window - 1 <= Z.of_nat (length long_prices'))%Z
      /\ trend s (long_prices' ++ rest).
Proof.
  intros Hw. induction ticks as [|tick more IH]; intros sp lp Hn Hlen Ht.
  - cbn [map app] in Ht. exists sp, lp.
    split; [reflexivity|]. split; [exact Hn|]. split; [exact Hlen | exact Ht].
  - cbn [map app] in Ht.
    destruct (MAC_trend_step s short_window long_window sp lp _ (Some s) tick
                Hw Hn Hlen Ht) as (sp' & lp' & G & Hn' & Ln & Ht').
    rewrite differs_same in G.
    destruct (IH sp' lp' Hn') as (sp'' & lp'' & E & R); [lia | exact Ht' |].
    exists sp'', lp''. split; [|exact R].
    cbn [feed]. now rewrite G, E.
Qed.

Lemma MAC_after_trend (s : Side) (short_window long_window : Z)
    (ticks : list MarketDataPoint.t) (rest : list Q) :
  (1 <= short_window < long_window)%Z ->
  (long_window <= Z.of_nat (length ticks))%Z ->
  trend s (map MarketDataPoint.price ticks ++ rest) ->
  exists short_prices long_prices outs,
    feed MAC.generate_signals
      {| MAC._short_window := short_window; MAC._long_window := long_window;
         MAC._short_prices := []; MAC._long_prices := [];
         MAC._last_signal := None |} ticks
    = ({| MAC._short_window := short_window; MAC._long_window := long_window;
          MAC._short_prices := short_prices; MAC._long_prices := long_prices;
          MAC._last_signal := Some s |}, inr outs)
    /\ outs = silent (Z.to_nat (long_window - 1))
              ++ [s] :: silent (length ticks - Z.to_nat long_window)
    /\ windows_nested short_window long_window short_prices long_prices
    /\ (long_window - 1 <= Z.of_nat (length long_prices))%Z
    /\ trend s (long_prices ++ rest).
Proof.
  intros Hw Hlen Ht.
  set (k := Z.to_nat (long_window - 1)).
  remember (firstn k ticks) as first eqn:Hf.
  assert (Hk : length first = k) by (subst first; apply firstn_length_le; lia).
  destruct (skipn k ticks) as [|tick more] eqn:Sk.
  { apply (f_equal (@length _)) in Sk. rewrite length_skipn in Sk. simpl in Sk. lia. }
  assert (Hr : length more = (length ticks - Z.to_nat long_window)%nat).
  { apply (f_equal (@length _)) in Sk. rewrite length_skipn in Sk. simpl in Sk. lia. }
  rewrite <- Hr.
  assert (Tk : ticks = first ++ tick :: more).
  { rewrite Hf, <- Sk. symmetry. apply firstn_skipn. }
  clear Hf Sk Hlen Hr. subst ticks.
  rewrite map_app, <- app_assoc in Ht. cbn [map app] in Ht.
  assert (N0 : windows_nested short_window long_window [] []).
  { split; [simpl; lia|]. split; [simpl; lia|]. exists []. now split. }
  destruct (MAC_quiet_state short_window long_window None first ltac:(lia) [] [] N0)
    as (sp1 & Q1 & N1); [simpl; lia|].
  cbn [app] in Q1, N1.
  destruct (MAC_trend_step s short_window long_window sp1
              (map MarketDataPoint.price first)
              (map MarketDataPoint.price more ++ rest) None tick Hw N1)
    as (sp2 & lp2 & G & N2 & Ln & Ht'); [rewrite length_map, Hk; lia | exact Ht |].
  rewrite differs_None in G.
  destruct (MAC_trend_steady_state s short_window long_window more rest Hw sp2 lp2 N2)
    as (sp3 & lp3 & E & R); [lia | exact Ht' |].
  exists sp3, lp3, (silent (length first) ++ [s] :: silent (length more)).
  split; [|split; [now rewrite Hk | exact R]].
  apply (feed_app _ _ _ _ _ _ _ _ Q1).
  cbn [feed]. now rewrite G, E.
Qed.

Lemma run_on_known_trend (s : Side) (short_window long_window : Z)
    (live : list (MarketDataPoint.t * Z)) :
  (1 <= short_window < long_window)%Z ->
  forall short_prices long_prices : list Q,
    windows_nested short_window long_window short_prices long_prices ->
    (long_window - 1 <= Z.of_nat (length long_prices))%Z ->
    trend s (long_prices ++ map (fun t => MarketDataPoint.price (fst t)) live) ->
    Forall (fun submitted => submitted = None)
      (AlpacaTrader.run
         {| AlpacaTrader.strategy :=
              {| MAC._short_window := short_window;
                 MAC._long_window := long_window;
                 MAC._short_prices := short_prices;
                 MAC._long_prices := long_prices;
                 MAC._last_signal := Some s |} |} live).
Proof.
  intros Hw. induction live as [|[tick qty] rest IH]; intros sp lp Hn Hlen Ht.
  - constructor.
  - cbn [map fst] in Ht.
    destruct (MAC_trend_step s short_window long_window sp lp _ (Some s) tick
                Hw Hn Hlen Ht) as (sp' & lp' & G & Hn' & Ln & Ht').
    rewrite differs_same in G.
    cbn [AlpacaTrader.run]. unfold AlpacaTrader.turn.
    cbn [AlpacaTrader.strategy]. rewrite G.
    constructor; [reflexivity|].
    apply IH; [exact Hn' | lia | exact Ht'].
Qed.

(** X25: the warm-up swallows the signal of a trend under way.  When the bars
    of the warm-up, 20 or more, and the ticks received afterwards rise from
    one to the next (or fall from one to the next), the strategy gives its one
    signal at the 20th bar of the warm-up, where signals are dropped: the
    warm-up ends with that signal as the strategy's last one, and the trader
    submits no order for as long as the trend lasts. *)
Theorem trader_misses_trend_under_way (s : Side)
    (past_bars : list MarketDataPoint.t) (live : list (MarketDataPoint.t * Z)) :
  (20 <= length past_bars)%nat ->
  trend s (map MarketDataPoint.price past_bars
           ++ map (fun t => MarketDataPoint.price (fst t)) live) ->
  exists self0 self,
    AlpacaTrader.init = inr self0
    /\ AlpacaTrader.warm_up_strategy self0 past_bars = inr self
    /\ feed MAC.generate_signals (AlpacaTrader.strategy self0) past_bars
       = (AlpacaTrader.strategy self,
          inr (silent 19 ++ [s] :: silent (length past_bars - 20)))
    /\ MAC._last_signal (AlpacaTrader.strategy self) = Some s
    /\ Forall (fun submitted => submitted = None) (AlpacaTrader.run self live).
Proof.
  intros Hlen Ht.
  destruct (MAC_after_trend s 5 20 past_bars
              (map (fun t => MarketDataPoint.price (fst t)) live))
    as (sp & lp & outs & F & Eo & Hn & Ll & Ht'); [lia | lia | exact Ht |].
  subst outs.
  eexists. eexists. split; [reflexivity|].
  unfold AlpacaTrader.warm_up_strategy. cbn [AlpacaTrader.strategy].
  rewrite F. split; [reflexivity|]. cbn [AlpacaTrader.strategy].
  split; [reflexivity|]. split; [reflexivity|].
  apply run_on_known_trend; [lia | exact Hn | exact Ll | exact Ht'].
Qed.

Lemma trader_misses_trend_under_way_witness :
  exists self0 self,
    AlpacaTrader.init = inr self0
    /\ AlpacaTrader.warm_up_strategy self0 (rising_bars 20) = inr self
    /\ feed MAC.generate_signals (AlpacaTrader.strategy self0) (rising_bars 20)
       = (AlpacaTrader.strategy self,
          inr (silent 19 ++ [BUY] :: silent (length (rising_bars 20) - 20)))
    /\ MAC._last_signal (AlpacaTrader.strategy self) = Some BUY
    /\ Forall (fun submitted => submitted = None)
         (AlpacaTrader.run self [(sample_tick 20 120, 0%Z); (sample_tick 21 121, 0%Z)]).
Proof.
  apply (trader_misses_trend_under_way BUY (rising_bars 20)
           [(sample_tick 20 120, 0%Z); (sample_tick 21 121, 0%Z)]).
  - simpl. lia.
  - unfold trend. vm_compute. repeat constructor.
Defined.

(** ** The backtest with its strategies *)

Lemma process_tick_returns (cfg : Runner.Config) (engine : MatchingEngine.t)
    (tick : MarketDataPoint.t) (all_signals : list (Side * Runner.Env))
    (w : Runner.World) :
  Runner.process_tick cfg engine tick all_signals w
  = (Return tt, snd (Runner.process_tick cfg engine tick all_signals w)).
Proof.
  unfold Runner.process_tick, Runner.bind.
  destruct (process_signals_returns cfg engine tick all_signals w) as (w1 & E & _).
  rewrite E. reflexivity.
Qed.

Lemma backtest_feed_all (cfg : Runner.Config)
    (engine : MatchingEngine.t) (strategies_list : list strategy)
    (ticks : list (MarketDataPoint.t * (nat -> Runner.Env))) (w : Runner.World) :
  backtest cfg engine strategies_list ticks w
  = (fst (fst (feed_all strategies_list (map fst ticks))),
     match snd (feed_all strategies_list (map fst ticks)) with
     | None => inr (Return tt)
     | Some e => inl e
     end,
     snd (Runner.simulation_loop cfg engine
            (attach ticks (snd (fst (feed_all strategies_list (map fst ticks))))) w)).
Proof.
  revert strategies_list w.
  induction ticks as [|[tick envs] rest IH]; intros strategies_list w.
  - reflexivity.
  - cbn [backtest feed_all map fst].
    destruct (collect_signals strategies_list tick) as [strategies' [e|all_signals]].
    + reflexivity.
    + rewrite process_tick_returns.
      rewrite IH.
      destruct (feed_all strategies' (map fst rest)) as [[strategies'' later] e].
      cbn [fst snd attach combine map Runner.simulation_loop].
      unfold Runner.bind at 1. rewrite process_tick_returns. reflexivity.
Qed.

Lemma feed_all_length (ticks : list MarketDataPoint.t) :
  forall (strategies_list strategies' : list strategy)
         (signals : list (list Side)) (e : option Strategies.error),
    feed_all strategies_list ticks = (strategies', signals, e) ->
    match e with
    | None => length signals = length ticks
    | Some _ => (length signals < length ticks)%nat
    end.
Proof.
  induction ticks as [|tick rest IH]; intros strategies_list strategies' signals e H.
  - injection H as <- <- <-. reflexivity.
  - cbn [feed_all] in H.
    destruct (collect_signals strategies_list tick) as [strategies1 [e1|all_signals]].
    + injection H as <- <- <-. simpl. lia.
    + destruct (feed_all strategies1 rest) as [[strategies2 later] e2] eqn:F.
      injection H as <- <- <-. specialize (IH _ _ _ _ F).
      destruct e2; simpl; lia.
Qed.

(** X26: the backtest is the simulation loop fed with the strategies'
    signals, up to the first exception of a strategy.  If no strategy raises,
    the run is [simulation_loop] on all the ticks, with the signals the
    strategies give, and returns; if a strategy raises on some tick, nothing
    catches it: the run ends there with that exception, the components are as
    the loop left them after the ticks before, and that tick gets neither
    orders nor an equity sample. *)
Theorem backtest_follows_strategies (cfg : Runner.Config)
    (engine : MatchingEngine.t) (strategies_list strategies' : list strategy)
    (ticks : list (MarketDataPoint.t * (nat -> Runner.Env)))
    (signals : list (list Side)) (w : Runner.World) :
  (feed_all strategies_list (map fst ticks) = (strategies', signals, None) ->
   length signals = length ticks
   /\ backtest cfg engine strategies_list ticks w
      = (strategies', inr (Return tt),
         snd (Runner.simulation_loop cfg engine (attach ticks signals) w)))
  /\ (forall e,
        feed_all strategies_list (map fst ticks) = (strategies', signals, Some e) ->
        (length signals < length ticks)%nat
        /\ backtest cfg engine strategies_list ticks w
           = (strategies', inl e,
              snd (Runner.simulation_loop cfg engine (attach ticks signals) w))
        /\ length (Portfolio.trades
                     (Runner.portfolio (snd (backtest cfg engine strategies_list
                                               ticks w))))
           = (length (Portfolio.trades (Runner.portfolio w)) + length signals)%nat).
Proof.
  split.
  - intros F. pose proof (feed_all_length _ _ _ _ _ F) as L. cbn beta iota in L.
    rewrite length_map in L. split; [exact L|].
    rewrite backtest_feed_all, F. reflexivity.
  - intros e F. pose proof (feed_all_length _ _ _ _ _ F) as L. cbn beta iota in L.
    rewrite length_map in L. split; [exact L|].
    rewrite backtest_feed_all, F. cbn [fst snd]. split; [reflexivity|].
    destruct (simulation_loop_returns cfg engine (attach ticks signals) w)
      as (w' & E & _ & T).
    rewrite E. cbn [snd]. rewrite T. unfold attach.
    rewrite length_map, length_combine. lia.
Qed.

Lemma backtest_follows_strategies_witness :
  backtest Runner.config (MatchingEngine.init 0.0001)
    [a_MAC {| MAC._short_window := 0; MAC._long_window := 2;
              MAC._short_prices := []; MAC._long_prices := [];
              MAC._last_signal := None |}]
    [(sample_tick 0 100, fun _ => sample_env 0 full_fill_draws);
     (sample_tick 1 101, fun _ => sample_env 1 full_fill_draws)]
    (Runner.initial_world Runner.config)
  = ([a_MAC {| MAC._short_window := 0; MAC._long_window := 2;
               MAC._short_prices := []; MAC._long_prices := [100; 101];
               MAC._last_signal := None |}],
     inl (Strategies.ZeroDivisionError "division by zero"),
     snd (Runner.simulation_loop Runner.config (MatchingEngine.init 0.0001)
            (attach [(sample_tick 0 100, fun _ => sample_env 0 full_fill_draws);
                     (sample_tick 1 101, fun _ => sample_env 1 full_fill_draws)]
                    [[]])
            (Runner.initial_world Runner.config))).
Proof.
  apply (proj2 (backtest_follows_strategies Runner.config (MatchingEngine.init 0.0001)
                  _ _ _ [[]] (Runner.initial_world Runner.config))
           (Strategies.ZeroDivisionError "division by zero")).
  vm_compute. reflexivity.
Defined.

(** ** The rows of the plot *)











(** ** One strategy, one trend, one order *)

Lemma feed_all_single_MAC (ticks : list MarketDataPoint.t) :
  forall (self self' : MAC.t) (outs : list (list Side)),
    feed MAC.generate_signals self ticks = (self', inr outs) ->
    feed_all [a_MAC self] ticks = ([a_MAC self'], outs, None).
Proof.
  induction ticks as [|tick rest IH]; intros self self' outs H.
  - simpl in H. injection H as <- <-. reflexivity.
  - cbn [feed] in H. cbn [feed_all collect_signals generate_signals].
    destruct (MAC.generate_signals self tick) as [self1 [e|signals]];
      [discriminate H|].
    destruct (feed MAC.generate_signals self1 rest) as [self2 [e|later]] eqn:F;
      [discriminate H|].
    injection H as <- <-.
    rewrite (IH self1 self2 later F), app_nil_r. reflexivity.
Qed.

Lemma attach_app (first rest : list (MarketDataPoint.t * (nat -> Runner.Env)))
    (signals1 signals2 : list (list Side)) :
  length first = length signals1 ->
  attach (first ++ rest) (signals1 ++ signals2)
  = attach first signals1 ++ attach rest signals2.
Proof.
  unfold attach. revert signals1.
  induction first as [|t first IH]; intros [|s1 signals1] H; try discriminate H.
  - reflexivity.
  - cbn [app combine map]. f_equal. apply IH. simpl in H. lia.
Qed.

Lemma attach_silent (ticks : list (MarketDataPoint.t * (nat -> Runner.Env)))
    (n : nat) :
  Forall (fun t => snd t = []) (attach ticks (silent n)).
Proof.
  unfold attach, silent. revert n.
  induction ticks as [|t ticks IH]; intros [|n]; cbn [repeat combine map];
    try constructor; [reflexivity | apply IH].
Qed.

Lemma simulation_loop_app (cfg : Runner.Config) (engine : MatchingEngine.t)
    (first rest : list (MarketDataPoint.t * list (Side * Runner.Env)))
    (w : Runner.World) :
  Runner.simulation_loop cfg engine (first ++ rest) w
  = Runner.simulation_loop cfg engine rest
      (snd (Runner.simulation_loop cfg engine first w)).
Proof.
  revert w. induction first as [|[tick sigs] first IH]; intros w.
  - reflexivity.
  - cbn [app Runner.simulation_loop]. unfold Runner.bind.
    rewrite process_tick_returns. apply IH.
Qed.

Lemma quiet_gateway (cfg : Runner.Config) (engine : MatchingEngine.t)
    (ticks : list (MarketDataPoint.t * list (Side * Runner.Env)))
    (w : Runner.World) :
  Forall (fun t => snd t = []) ticks ->
  Runner.gateway (snd (Runner.simulation_loop cfg engine ticks w))
  = Runner.gateway w.
Proof.
  revert w. induction ticks as [|[tick sigs] rest IH]; intros w Hq.
  - reflexivity.
  - pose proof (Forall_inv Hq) as Hs. simpl in Hs. subst sigs.
    apply Forall_inv_tail in Hq.
    cbn [Runner.simulation_loop]. unfold Runner.process_tick, Runner.bind.
    cbn [Runner.process_signals Runner.ret]. unfold Runner.record_equity.
    now rewrite IH.
Qed.

Lemma process_tick_gateway (cfg : Runner.Config) (engine : MatchingEngine.t)
    (tick : MarketDataPoint.t) (sigs : list (Side * Runner.Env))
    (w : Runner.World) :
  Runner.gateway (snd (Runner.process_tick cfg engine tick sigs w))
  = Runner.gateway (snd (Runner.process_signals cfg engine tick sigs w)).
Proof.
  unfold Runner.process_tick, Runner.bind.
  destruct (process_signals_returns cfg engine tick sigs w) as (w1 & E & _).
  rewrite E. reflexivity.
Qed.

(** X28: one strategy, one trend, one order.  A backtest of a single
    crossover strategy with [short_window < long_window] over ticks whose
    prices rise from one to the next (or fall from one to the next) returns
    and adds exactly one line to the audit log: the order made at the tick
    where the long window is full, for [DEFAULT_QTY] shares at that tick's
    price, BUY on a rise and SELL on a fall. *)
Theorem one_order_on_a_trend (s : Side) (cfg : Runner.Config)
    (engine : MatchingEngine.t) (short_window long_window : Z) (self : MAC.t)
    (ticks : list (MarketDataPoint.t * (nat -> Runner.Env))) (w : Runner.World) :
  (1 <= short_window < long_window)%Z ->
  MAC.init short_window long_window = inr self ->
  (long_window <= Z.of_nat (length ticks))%Z ->
  trend s (map (fun t => MarketDataPoint.price (fst t)) ticks) ->
  exists self' tick envs row,
    ticks !! Z.to_nat (long_window - 1) = Some (tick, envs)
    /\ fst (backtest cfg engine [a_MAC self] ticks w)
       = ([a_MAC self'], inr (Return tt))
    /\ Runner.gateway (snd (backtest cfg engine [a_MAC self] ticks w))
       = Runner.gateway w ++ [row]
    /\ row_request row
       = (MarketDataPoint.symbol tick, s, Runner.DEFAULT_QTY cfg,
          MarketDataPoint.price tick)
    /\ logged_status (Gateway.row_status row).
Proof.
  intros Hw Hi Hlen Ht. apply MAC_init_inr in Hi as (_ & _ & ->).
  destruct (MAC_after_trend s short_window long_window (map fst ticks) [] Hw)
    as (sp & lp & outs & F & Eo & _).
  { rewrite length_map. exact Hlen. }
  { rewrite app_nil_r, map_map. exact Ht. }
  apply feed_all_single_MAC in F.
  rewrite length_map in Eo.
  set (k := Z.to_nat (long_window - 1)) in *.
  remember (firstn k ticks) as first eqn:Hf.
  assert (Hk : length first = k) by (subst first; apply firstn_length_le; lia).
  destruct (skipn k ticks) as [|[tick envs] more] eqn:Sk.
  { apply (f_equal (@length _)) in Sk. rewrite length_skipn in Sk. simpl in Sk. lia. }
  assert (Tk : ticks = first ++ (tick, envs) :: more).
  { rewrite Hf, <- Sk. symmetry. apply firstn_skipn. }
  clear Hf Sk Ht.
  destruct (process_signals_log cfg engine tick [(s, envs 0%nat)]
              (snd (Runner.simulation_loop cfg engine (attach first (silent k)) w)))
    as (rows & G & Rq & St & _).
  destruct rows as [|row [|row' rows]]; try discriminate Rq.
  cbn [map fst] in Rq.
  assert (Rq' : row_request row
                = (MarketDataPoint.symbol tick, s, Runner.DEFAULT_QTY cfg,
                   MarketDataPoint.price tick)) by congruence.
  clear Rq. rename Rq' into Rq.
  apply Forall_inv in St.
  eexists. exists tick, envs, row.
  split; [|split; [|split; [|split; [exact Rq | exact St]]]].
  - rewrite Tk, <- Hk. apply list_lookup_middle. reflexivity.
  - rewrite backtest_feed_all, F. reflexivity.
  - rewrite backtest_feed_all, F. cbn [fst snd]. rewrite Eo.
    rewrite Tk at 1.
    rewrite attach_app by (unfold silent; now rewrite repeat_length).
    rewrite simulation_loop_app.
    unfold attach at 1. cbn [combine map fst snd Runner.simulation_loop].
    unfold Runner.bind at 1. rewrite process_tick_returns. cbn [snd].
    fold (attach more (silent (length ticks - Z.to_nat long_window))).
    rewrite quiet_gateway by apply attach_silent.
    rewrite process_tick_gateway.
    unfold with_envs. cbn [length seq map combine].
    rewrite G. rewrite quiet_gateway by apply attach_silent. reflexivity.
Qed.

Lemma one_order_on_a_trend_witness :
  exists self' tick envs row,
    rising_ticks !! Z.to_nat (2 - 1) = Some (tick, envs)
    /\ fst (backtest Runner.config (MatchingEngine.init 0.0001) [a_MAC sample_MAC]
              rising_ticks (Runner.initial_world Runner.config))
       = ([a_MAC self'], inr (Return tt))
    /\ Runner.gateway
         (snd (backtest Runner.config (MatchingEngine.init 0.0001) [a_MAC sample_MAC]
                 rising_ticks (Runner.initial_world Runner.config)))
       = Runner.gateway (Runner.initial_world Runner.config) ++ [row]
    /\ row_request row
       = (MarketDataPoint.symbol tick, BUY, Runner.DEFAULT_QTY Runner.config,
          MarketDataPoint.price tick)
    /\ logged_status (Gateway.row_status row).
Proof.
  apply (one_order_on_a_trend BUY Runner.config (MatchingEngine.init 0.0001)
           1%Z 2%Z sample_MAC rising_ticks (Runner.initial_world Runner.config)).
  - lia.
  - reflexivity.
  - simpl. lia.
  - repeat constructor.
Defined.
